(** * Smart Task Planner: the plan response normalizer and the
      rate-limit classifier of [app.py]

    A shallow embedding of [generate_plan] and [create_plan_endpoint]
    (src/app.py) together with the parts of the Python runtime they lean
    on: [str] methods, the [re] patterns of the file, [float] and
    [math.ceil].

    Text.  A Python [str] is modelled as a list of characters whose code
    points are below 256 (the type [ascii] read as Latin-1).  On this
    range the character tables below ([str.isspace], the class [\s],
    the class [\d], [str.lower]) are the ones of CPython.

    The table of plans.  [init_db], [get_plan] and the insert of
    [create_plan_endpoint] (src/app.py) and [list_plans], [show_plan] and
    the command line of src/inspect_db.py are modelled on a table of
    rows that follows the CREATE TABLE statement of [init_db].

    Not modelled: the [print] calls of [app.py] (logging only) and the
    two routes that render a template, [index] and [view_plans]. *)

From Stdlib Require Import ZArith List Ascii String Bool Arith Lia.
From Stdlib Require Import DecimalString DecimalPos.
Import ListNotations.

Set Implicit Arguments.

(** ** Text *)

Definition text := list ascii.

(** A literal of the source, as text. *)
Definition T (s : string) : text := list_ascii_of_string s.

Definition code (c : ascii) : nat := nat_of_ascii c.

(** [str.isspace] on one character, which is also the class [\s] of a
    [str] pattern: TAB..CR, FS..US, space, NEL and NBSP. *)
Definition is_space (c : ascii) : bool :=
  let n := code c in
  ((9 <=? n) && (n <=? 13)) || ((28 <=? n) && (n <=? 32))
  || (n =? 133) || (n =? 160).

(** The class [\d] of a [str] pattern: decimal digits. *)
Definition is_digit (c : ascii) : bool :=
  let n := code c in (48 <=? n) && (n <=? 57).

(** [str.lower] on one character: A..Z and the upper-case letters of the
    Latin-1 supplement (all but the multiplication sign) move up by 32. *)
Definition lower_char (c : ascii) : ascii :=
  let n := code c in
  if ((65 <=? n) && (n <=? 90))
     || ((192 <=? n) && (n <=? 222) && negb (n =? 215))
  then ascii_of_nat (n + 32) else c.

Definition lower (s : text) : text := map lower_char s.

Definition ascii_eqb (a b : ascii) : bool := Ascii.eqb a b.

Fixpoint startswith (s p : text) {struct p} : bool :=
  match p, s with
  | [], _ => true
  | _ :: _, [] => false
  | a :: p', b :: s' => ascii_eqb a b && startswith s' p'
  end.

(** [sub in s] for two strings. *)
Fixpoint contains (sub s : text) : bool :=
  startswith s sub ||
  match s with
  | [] => false
  | _ :: s' => contains sub s'
  end.

Fixpoint lstrip (s : text) : text :=
  match s with
  | c :: s' => if is_space c then lstrip s' else s
  | [] => []
  end.

Definition rstrip (s : text) : text := rev (lstrip (rev s)).

(** [s.strip()] *)
Definition strip (s : text) : text := rstrip (lstrip s).

(** ** Regular expressions

    The constructs that the five patterns of [app.py] use, with the
    backtracking semantics of [re]: alternatives are tried in priority
    order (greedy repetition first takes as much as it can) and the first
    overall success is the match. *)

Inductive regex : Type :=
| RLit (c : ascii)               (* one literal character *)
| RSet (p : ascii -> bool)       (* one character of a class *)
| RSeq (r1 r2 : regex)           (* r1 r2 *)
| ROpt (r : regex)               (* r?  *)
| RStar (p : ascii -> bool)      (* [class]*  *)
| RPlus (p : ascii -> bool)      (* [class]+  *)
| RGroup (r : regex)             (* ( r ), capture group 1 *)
| RBol                           (* ^ without MULTILINE *)
| REol.                          (* $ without MULTILINE *)

(** A literal word, character by character. *)
Fixpoint RWord (w : text) : regex :=
  match w with
  | [] => ROpt (RSet (fun _ => false))
  | [c] => RLit c
  | c :: w' => RSeq (RLit c) (RWord w')
  end.

(** Comparison of a subject character with a literal of the pattern;
    under [re.IGNORECASE] both are lowered first. *)
Definition lit_match (ic : bool) (c x : ascii) : bool :=
  if ic then ascii_eqb (lower_char c) (lower_char x) else ascii_eqb c x.

Definition newline : ascii := ascii_of_nat 10.

Section Matcher.
Variable A : Type.

(** A continuation receives the index reached, the text that remains
    and the content of group 1. *)
Definition cont := nat -> text -> option text -> option A.

(** Greedy repetition of a class: longest first, then shorter. *)
Fixpoint star (p : ascii -> bool) (i : nat) (s : text) (g : option text)
         (k : cont) : option A :=
  match s with
  | c :: s' =>
      if p c then
        match star p (S i) s' g k with
        | Some a => Some a
        | None => k i s g
        end
      else k i s g
  | [] => k i s g
  end.

Fixpoint rmatch (ic : bool) (r : regex) (i : nat) (s : text)
         (g : option text) (k : cont) : option A :=
  match r with
  | RLit c =>
      match s with
      | x :: s' => if lit_match ic c x then k (S i) s' g else None
      | [] => None
      end
  | RSet p =>
      match s with
      | x :: s' => if p x then k (S i) s' g else None
      | [] => None
      end
  | RSeq r1 r2 =>
      rmatch ic r1 i s g (fun i' s' g' => rmatch ic r2 i' s' g' k)
  | ROpt r1 =>
      match rmatch ic r1 i s g k with
      | Some a => Some a
      | None => k i s g
      end
  | RStar p => star p i s g k
  | RPlus p =>
      match s with
      | x :: s' => if p x then star p (S i) s' g k else None
      | [] => None
      end
  | RGroup r1 =>
      rmatch ic r1 i s g
             (fun i' s' _ => k i' s' (Some (firstn (i' - i) s)))
  | RBol => if i =? 0 then k i s g else None
  | REol =>
      match s with
      | [] => k i s g
      | [c] => if ascii_eqb c newline then k i s g else None
      | _ => None
      end
  end.
End Matcher.

(** A match object: where the match starts and ends, and group 1. *)
Record rematch : Type := MkMatch {
  m_start : nat;
  m_end : nat;
  m_group1 : option text
}.

(** One attempt at index [i], where [s] is the text from [i] on.  With
    [must_advance] an empty match is refused (and the matcher backtracks),
    as [re.sub] asks right after an empty match. *)
Definition match_at (ic : bool) (r : regex) (must_advance : bool)
           (i : nat) (s : text) : option rematch :=
  rmatch ic r i s None
         (fun i' _ g =>
            if must_advance && (i' =? i) then None
            else Some (MkMatch i i' g)).

(** [re.search]: the attempt is made at every index from left to right,
    the end of the text included. *)
Fixpoint search_from (ic : bool) (r : regex) (i : nat) (s : text)
  : option rematch :=
  match match_at ic r false i s with
  | Some m => Some m
  | None =>
      match s with
      | [] => None
      | _ :: s' => search_from ic r (S i) s'
      end
  end.

Definition re_search (ic : bool) (r : regex) (s : text) : option rematch :=
  search_from ic r 0 s.

(** [m.group(0)] for a match in [s]. *)
Definition group0 (s : text) (m : rematch) : text :=
  firstn (m_end m - m_start m) (skipn (m_start m) s).

(** [re.sub(r, repl, s)] with a literal replacement and no count: every
    non-overlapping match from left to right is replaced.  [skip] counts
    the characters of the current match still to be dropped.  After an
    empty match the next attempt is made at the same index and must
    advance. *)
Fixpoint sub_from (ic : bool) (r : regex) (repl : text)
         (i : nat) (s : text) (skip : nat) : text :=
  match skip with
  | S n =>
      match s with
      | [] => []
      | _ :: s' => sub_from ic r repl (S i) s' n
      end
  | O =>
      match match_at ic r false i s with
      | Some m =>
          if m_end m =? i then
            (* empty match: replaced, then one more attempt here *)
            repl ++
            match match_at ic r true i s with
            | Some m2 =>
                repl ++
                match s with
                | [] => []
                | _ :: s' => sub_from ic r repl (S i) s' (m_end m2 - i - 1)
                end
            | None =>
                match s with
                | [] => []
                | c :: s' => c :: sub_from ic r repl (S i) s' 0
                end
            end
          else
            repl ++
            match s with
            | [] => []
            | _ :: s' => sub_from ic r repl (S i) s' (m_end m - i - 1)
            end
      | None =>
          match s with
          | [] => []
          | c :: s' => c :: sub_from ic r repl (S i) s' 0
          end
      end
  end.

Definition re_sub (ic : bool) (r : regex) (repl : text) (s : text) : text :=
  sub_from ic r repl 0 s 0.

Declare Scope regex_scope.
Delimit Scope regex_scope with re.
Infix ";;" := RSeq (at level 61, right associativity) : regex_scope.

(** The class [[\s\S]]: every character. *)
Definition any_char (c : ascii) : bool := is_space c || negb (is_space c).

(** The class [[^}]]. *)
Definition not_rbrace (c : ascii) : bool := negb (ascii_eqb c "}").

(** The patterns of [app.py], in the order of the file. *)

(** [r'Please retry in\s*(\d+(?:\.\d+)?)s'], used with IGNORECASE. *)
Definition pat_please_retry : regex :=
  (RWord (T "Please retry in") ;; RStar is_space ;;
   RGroup (RPlus is_digit ;; ROpt (RLit "." ;; RPlus is_digit)) ;;
   RLit "s")%re.

(** [r'retry_delay\s*\{[^}]*seconds:\s*(\d+)'] *)
Definition pat_retry_delay : regex :=
  (RWord (T "retry_delay") ;; RStar is_space ;; RLit "{" ;;
   RStar not_rbrace ;; RWord (T "seconds:") ;; RStar is_space ;;
   RGroup (RPlus is_digit))%re.

(** [r"^```(?:json)?\s*"], used with IGNORECASE. *)
Definition pat_fence_open : regex :=
  (RBol ;; RWord (T "```") ;; ROpt (RWord (T "json")) ;; RStar is_space)%re.

(** [r"\s*```$"] *)
Definition pat_fence_close : regex :=
  (RStar is_space ;; RWord (T "```") ;; REol)%re.

(** [r"\{[\s\S]*\}"] *)
Definition pat_braces : regex :=
  (RLit "{" ;; RStar any_char ;; RLit "}")%re.

(** ** [float] and [math.ceil]

    A Python [float] is an IEEE 754 binary64 number.  The values that
    [float] returns on an unsigned decimal numeral are modelled exactly:
    [FFinite m e] is the number [m * 2^e] with [0 <= m < 2^53] and
    [-1074 <= e <= 971], and [FInf] is positive infinity. *)

Inductive py_float : Type :=
| FFinite (m e : Z)
| FInf.

Open Scope Z_scope.

(** The quotient [n / d] rounded to the nearest integer, ties to even. *)
Definition round_half_even (n d : Z) : Z :=
  let q := n / d in
  let r := n mod d in
  if 2 * r <? d then q
  else if d <? 2 * r then q + 1
  else if Z.even q then q else q + 1.

(** [n / d] scaled by [2^-e], as a fraction of two integers. *)
Definition scaled (n d e : Z) : Z * Z :=
  (n * 2 ^ Z.max 0 (- e), d * 2 ^ Z.max 0 e).

(** The binary64 number nearest to [n / d] (ties to even), for [0 <= n]
    and [0 < d]: the exponent is chosen so that the significand has 53
    bits, or is the least exponent -1074 in the subnormal range; a
    significand rounded up to [2^53] moves to the next exponent; past the
    largest exponent the result is infinity. *)
Definition binary64_of_ratio (n d : Z) : py_float :=
  if n =? 0 then FFinite 0 0
  else
    let e1 := Z.log2 n - Z.log2 d - 52 in
    let e2 := if fst (scaled n d e1) / snd (scaled n d e1) <? 2 ^ 52
              then e1 - 1 else e1 in
    let e := Z.max e2 (-1074) in
    let m := round_half_even (fst (scaled n d e)) (snd (scaled n d e)) in
    let m' := if m =? 2 ^ 53 then 2 ^ 52 else m in
    let e' := if m =? 2 ^ 53 then e + 1 else e in
    if 971 <? e' then FInf else FFinite m' e'.

Definition digit_val (c : ascii) : Z := Z.of_nat (code c) - 48.

(** The number that a string of decimal digits denotes. *)
Definition digits_val (s : text) : Z :=
  fold_left (fun acc c => 10 * acc + digit_val c) s 0.

(** The text before the first ".", and the text after it when there is
    one. *)
Fixpoint split_dot (s : text) : text * option text :=
  match s with
  | [] => ([], None)
  | c :: s' =>
      if ascii_eqb c "." then ([], Some s')
      else let '(a, b) := split_dot s' in (c :: a, b)
  end.

Definition all_digits (s : text) : bool :=
  negb (Nat.eqb (List.length s) 0) && forallb is_digit s.

(** [float(s)] for a numeral [s] of the form digits or digits.digits,
    the forms that group 1 of the two retry patterns can take; [None]
    for any other text (never reached from [app.py]). *)
Definition py_float_of_text (s : text) : option py_float :=
  match split_dot s with
  | (ip, None) =>
      if all_digits ip then Some (binary64_of_ratio (digits_val ip) 1)
      else None
  | (ip, Some fp) =>
      if all_digits ip && all_digits fp
      then Some (binary64_of_ratio (digits_val (ip ++ fp))
                                   (10 ^ Z.of_nat (List.length fp)))
      else None
  end.

(** [int(math.ceil(x))]: the least integer not below [x]; [None] stands
    for the OverflowError that [math.ceil] raises on infinity. *)
Definition py_ceil (x : py_float) : option Z :=
  match x with
  | FFinite m e =>
      if 0 <=? e then Some (m * 2 ^ e)
      else Some (- ((- m) / 2 ^ (- e)))
  | FInf => None
  end.

Close Scope Z_scope.

(** ** Python values

    The values that [json.loads] produces, which are also the values
    that the handler passes to [jsonify]. *)

Inductive json_float : Type :=
| JF (negative : bool) (x : py_float)
| JNaN.

#[local] Unset Elimination Schemes.
Inductive json : Type :=
| JNull
| JBool (b : bool)
| JInt (n : Z)
| JFloat (x : json_float)
| JStr (s : text)
| JList (l : list json)
| JDict (d : list (text * json)).
#[local] Set Elimination Schemes.

(** [a == b] for two strings. *)
Fixpoint text_eqb (a b : text) : bool :=
  match a, b with
  | [], [] => true
  | x :: a', y :: b' => ascii_eqb x y && text_eqb a' b'
  | _, _ => false
  end.

(** [d.get(key, default)] on the items of a dict. *)
Fixpoint dict_get (key : text) (d : list (text * json)) (default : json)
  : json :=
  match d with
  | [] => default
  | (k, v) :: d' => if text_eqb key k then v else dict_get key d' default
  end.

(** [key in d] on the items of a dict. *)
Definition dict_mem (key : text) (d : list (text * json)) : bool :=
  existsb (fun kv => text_eqb key (fst kv)) d.

(** An exception object: its class name and what [str] gives for it.
    Instances of [Exception] only: these are what a call raises and what
    [except Exception] catches. *)
Record exn : Type := MkExn { exn_class : text; exn_str : text }.

(** The outcome of an expression that may raise. *)
Inductive res (A : Type) : Type :=
| Ret (a : A)
| Raise (e : exn).
Arguments Ret {A} a.
Arguments Raise {A} e.

Definition TypeError (msg : string) : exn := MkExn (T "TypeError") (T msg).
Definition AttributeError (msg : string) : exn :=
  MkExn (T "AttributeError") (T msg).

(** [key in v], the left operand being a [str]. *)
Definition py_in (key : text) (v : json) : res bool :=
  match v with
  | JDict d => Ret (dict_mem key d)
  | JList l =>
      Ret (existsb (fun x => match x with
                             | JStr s => text_eqb key s
                             | _ => false
                             end) l)
  | JStr s => Ret (contains key s)
  | _ => Raise (TypeError "argument is not iterable")
  end.

(** [v.get(key, default)]: only a dict has the method. *)
Definition py_get (v : json) (key : text) (default : json) : res json :=
  match v with
  | JDict d => Ret (dict_get key d default)
  | _ => Raise (AttributeError "object has no attribute 'get'")
  end.

(** The truth value of an object, as [not v] tests it. *)
Definition truthy (v : json) : bool :=
  match v with
  | JNull => false
  | JBool b => b
  | JInt n => negb (Z.eqb n 0)
  | JFloat (JF _ (FFinite m _)) => negb (Z.eqb m 0)
  | JFloat _ => true
  | JStr s => negb (Nat.eqb (List.length s) 0)
  | JList l => negb (Nat.eqb (List.length l) 0)
  | JDict d => negb (Nat.eqb (List.length d) 0)
  end.

(** [str(n)] for an [int]. *)
Definition str_of_int (n : Z) : text := T (NilZero.string_of_int (Z.to_int n)).

(** ** The rate-limit classifier (app.py, lines 78 to 88) *)

(** ['quota' in err_msg.lower() or '429' in err_msg] *)
Definition is_rate_limited (err_msg : text) : bool :=
  contains (T "quota") (lower err_msg) || contains (T "429") err_msg.

(** [m.group(1)] of a match of one of the two retry patterns. *)
Definition group1 (m : rematch) : text :=
  match m_group1 m with
  | Some g => g
  | None => []
  end.

(** [int(math.ceil(float(g)))] inside [try], with
    [except Exception: retry_after = None]; [g] is [m.group(1)]. *)
Definition seconds_of_text (g : text) : option Z :=
  match py_float_of_text g with
  | Some x => py_ceil x
  | None => None
  end.

Definition seconds_of_match (m : rematch) : option Z :=
  seconds_of_text (group1 m).

(** The value of [retry_after] at line 90. *)
Definition retry_after_of (err_msg : text) : option Z :=
  let m := re_search true pat_please_retry err_msg in
  let m := match m with
           | Some _ => m
           | None => re_search false pat_retry_delay err_msg
           end in
  match m with
  | Some m' => seconds_of_match m'
  | None => None
  end.

(** The classifier of the specification: whether the message is a
    rate-limit message and, only then, the retry delay found in it. *)
Definition classify (err_msg : text) : bool * option Z :=
  if is_rate_limited err_msg then (true, retry_after_of err_msg)
  else (false, None).

(** ** [generate_plan] and [create_plan_endpoint] *)

(** The double quote character, and a word between double quotes. *)
Definition dq : text := [ascii_of_nat 34].
Definition Q (s : string) : text := dq ++ T s ++ dq.

(** The prompt of [generate_plan] before and after the goal. *)
Definition prompt_head : text :=
  T "
    Break down the following goal into a detailed plan.
    The goal is: "
  ++ dq.

Definition prompt_tail : text :=
  dq
  ++ T "

    Provide a valid JSON object as output. Do not include any text or markdown formatting before or after the JSON.
    The object must have a key "
  ++ Q "project_name"
  ++ T " with a creative name for the project, and a key "
  ++ Q "tasks"
  ++ T " which is a list of task objects.
    Each task object must have these keys: "
  ++ Q "task_id"
  ++ T ", "
  ++ Q "task_name"
  ++ T ", "
  ++ Q "description"
  ++ T ", "
  ++ Q "timeline_days"
  ++ T ", and "
  ++ Q "dependencies"
  ++ T ".
    "
  ++ Q "dependencies"
  ++ T " must be a list of "
  ++ Q "task_id"
  ++ T "s. If there are no dependencies, it must be an empty list [].
    ".

(** [str(v)].  Written out for the simple values; the repr of a float,
    of a list and of a dict is left to the parameter [py_repr]. *)
Definition py_str (py_repr : json -> text) (v : json) : text :=
  match v with
  | JStr s => s
  | JInt n => str_of_int n
  | JNull => T "None"
  | JBool true => T "True"
  | JBool false => T "False"
  | _ => py_repr v
  end.

(** What [getattr(response, 'text', None)] meets: a string, [None], no
    such attribute, or a property that raises. *)
Inductive text_attr : Type :=
| TextIs (s : text)
| TextNone
| TextMissing
| TextRaises (e : exn).

(** [getattr(response, 'text', None)] *)
Definition getattr_text (response : text_attr) : res (option text) :=
  match response with
  | TextIs s => Ret (Some s)
  | TextNone | TextMissing => Ret None
  | TextRaises e => Raise e
  end.

(** The outcome of [json.loads] on a string. *)
Inductive loads_result : Type :=
| Loaded (v : json)
| JSONDecodeError (e : exn)
| LoadsRaises (e : exn).

(** [raw_text or ''] *)
Definition text_or_empty (raw_text : option text) : text :=
  match raw_text with
  | Some s => s
  | None => []
  end.

(** Lines 164 to 172: the reply without surrounding white space, code
    fences and a leading "json". *)
Definition clean_reply (raw_text : option text) : text :=
  let json_response_text := strip (text_or_empty raw_text) in
  let json_response_text :=
    re_sub true pat_fence_open [] json_response_text in
  let json_response_text :=
    re_sub false pat_fence_close [] json_response_text in
  if startswith (lower json_response_text) (T "json")
  then strip (skipn 4 json_response_text)
  else json_response_text.

(** Lines 175 to 179: the text handed to [json.loads]. *)
Definition json_candidate (json_response_text : text) : text :=
  match re_search false pat_braces json_response_text with
  | Some json_match => strip (group0 json_response_text json_match)
  | None => json_response_text
  end.

Definition invalid_json_message : text :=
  T "AI returned invalid JSON. See server logs or last_raw_model_response.txt for details.".

(** [{"error": msg}] *)
Definition error_dict (msg : text) : json := JDict [(T "error", JStr msg)].

(** The HTTP response that a view returns; of the headers only those
    that the view sets itself. *)
Record response : Type := MkResponse {
  status : nat;
  headers : list (text * text);
  body : json
}.

(** What the request handler ends with: a response, or an exception
    that leaves the view function. *)
Inductive outcome : Type :=
| Responds (r : response)
| Unhandled (e : exn).

(** The request as the view reads it: [request.is_json] and the result
    of [request.get_json()]. *)
Record request : Type := MkRequest {
  is_json : bool;
  get_json : res json
}.

Section Service.
(** The collaborators of the two functions. *)
Variable py_repr : json -> text.                  (* repr, see [py_str] *)
Variable json_loads : text -> loads_result.       (* json.loads *)
Variable json_dumps : json -> text.               (* json.dumps *)
Variable generate_content : text -> res text_attr. (* the model call *)
Variable files : Type.                            (* the file system *)
Variable write_file : files -> text -> text -> res files.
Variable store : Type.                            (* plans.db *)
Variable db_insert : store -> json -> text -> res store.

(** The part of the machine that the two functions read and change:
    the variable DISABLE_AI (the empty string when unset), the files
    and the table of plans. *)
Record world : Type := MkWorld {
  env_disable_ai : text;
  w_files : files;
  w_store : store
}.

Definition set_files (w : world) (f : files) : world :=
  MkWorld (env_disable_ai w) f (w_store w).

Definition set_store (w : world) (s : store) : world :=
  MkWorld (env_disable_ai w) (w_files w) s.

(** Lines 187 to 191: the raw text goes to the debug file; a failure
    to write is passed over. *)
Definition save_raw_text (w : world) (raw_text : option text) : world :=
  match write_file (w_files w) (T "last_raw_model_response.txt")
                   (text_or_empty raw_text) with
  | Ret f => set_files w f
  | Raise _ => w
  end.

(** Lines 160 to 192, from the response of the model on. *)
Definition normalize (w : world) (raw_text : option text) : json * world :=
  match json_loads (json_candidate (clean_reply raw_text)) with
  | Loaded plan => (plan, w)
  | JSONDecodeError _ =>
      (error_dict invalid_json_message, save_raw_text w raw_text)
  | LoadsRaises e => (error_dict (exn_str e), w)
  end.

Definition local_test_plan (goal : json) : json :=
  JDict [(T "project_name", JStr (T "Local Test Plan"));
         (T "tasks",
          JList [JDict [(T "task_id", JInt 1);
                        (T "task_name", JStr (T "Test task"));
                        (T "description", goal);
                        (T "timeline_days", JInt 1);
                        (T "dependencies", JList [])]])].

(** The f-string of lines 137 to 145. *)
Definition prompt_for (goal : json) : text :=
  prompt_head ++ py_str py_repr goal ++ prompt_tail.

(** [os.environ.get('DISABLE_AI', '').lower() in ('1', 'true', 'yes')] *)
Definition ai_disabled (w : world) : bool :=
  let flag := lower (env_disable_ai w) in
  text_eqb flag (T "1") || text_eqb flag (T "true")
  || text_eqb flag (T "yes").

Definition generate_plan (w : world) (goal : json) : json * world :=
  let prompt := prompt_for goal in
  if ai_disabled w
  then (local_test_plan goal, w)
  else
    match generate_content prompt with
    | Raise e => (error_dict (exn_str e), w)
    | Ret response =>
        match getattr_text response with
        | Raise e => (error_dict (exn_str e), w)
        | Ret raw_text => normalize w raw_text
        end
    end.

(** Lines 90 to 98: the answer to a rate-limit error. *)
Definition rate_limit_response (err_msg : text) (retry_after : option Z)
  : response :=
  match retry_after with
  | Some n =>
      MkResponse 429 [(T "Retry-After", str_of_int n)]
                 (JDict [(T "error", JStr err_msg);
                         (T "retry_after", JInt n)])
  | None => MkResponse 429 [] (error_dict err_msg)
  end.

(** Lines 77 to 100: the answer when the plan has an "error". *)
Definition error_response (err_msg : text) : response :=
  if is_rate_limited err_msg
  then rate_limit_response err_msg (retry_after_of err_msg)
  else MkResponse 500 [] (error_dict err_msg).

(** Lines 103 to 116: the plan is saved; whatever is raised on the
    way is passed over. *)
Definition save_plan (w : world) (plan : json) : world :=
  let plan_json_string := json_dumps plan in
  match py_get plan (T "project_name") (JStr (T "Untitled Plan")) with
  | Raise _ => w
  | Ret name =>
      match db_insert (w_store w) name plan_json_string with
      | Ret s => set_store w s
      | Raise _ => w
      end
  end.

Definition create_plan_endpoint (w : world) (req : request)
  : outcome * world :=
  if negb (is_json req)
  then (Responds (MkResponse 400 []
                    (error_dict (T "Missing JSON in request"))), w)
  else
    match get_json req with
    | Raise e => (Unhandled e, w)
    | Ret data =>
        match py_get data (T "goal") JNull with
        | Raise e => (Unhandled e, w)
        | Ret goal =>
            if negb (truthy goal)
            then (Responds (MkResponse 400 []
                    (error_dict (T "The 'goal' field is required."))), w)
            else
              let '(plan, w1) := generate_plan w goal in
              match py_in (T "error") plan with
              | Raise e => (Unhandled e, w1)
              | Ret true =>
                  match py_get plan (T "error") (JStr []) with
                  | Raise e => (Unhandled e, w1)
                  | Ret v =>
                      (Responds (error_response (py_str py_repr v)), w1)
                  end
              | Ret false =>
                  let w2 := save_plan w1 plan in
                  (Responds (MkResponse 200 [] plan), w2)
              end
        end
    end.
End Service.

(** ** Collaborators for the examples

    A reader of JSON texts that stands for [json.loads] when the two
    functions are run on examples.  It follows the grammar that
    [json.loads] accepts (objects, arrays, strings with their escapes,
    numbers, the three literals, NaN and the infinities, white space
    between tokens; a later value of a repeated key replaces the earlier
    one).  Two limits of CPython are left out, the recursion limit and
    the limit on the digits of an int, and an escape \uXXXX above 0xFF,
    which has no character in this model of text, is reported as a
    decode error.  The message of a decode error is not modelled. *)

Definition is_json_space (c : ascii) : bool :=
  let n := code c in (n =? 32) || (n =? 9) || (n =? 10) || (n =? 13).

Fixpoint skip_space (s : text) : text :=
  match s with
  | c :: s' => if is_json_space c then skip_space s' else s
  | [] => []
  end.

(** The longest run of digits at the head of a text, and the rest. *)
Fixpoint span_digits (s : text) : text * text :=
  match s with
  | c :: s' =>
      if is_digit c
      then let '(d, r) := span_digits s' in (c :: d, r)
      else ([], s)
  | [] => ([], [])
  end.

Definition hex_val (c : ascii) : option nat :=
  let n := code c in
  if (48 <=? n) && (n <=? 57) then Some (n - 48)
  else if (97 <=? n) && (n <=? 102) then Some (n - 87)
  else if (65 <=? n) && (n <=? 70) then Some (n - 55)
  else None.

Definition hex4 (a b c d : ascii) : option nat :=
  match hex_val a, hex_val b, hex_val c, hex_val d with
  | Some x, Some y, Some z, Some t => Some (((x * 16 + y) * 16 + z) * 16 + t)
  | _, _, _, _ => None
  end.

(** The character that a one-letter escape stands for. *)
Definition unescape (e : ascii) : option ascii :=
  if ascii_eqb e (ascii_of_nat 34) then Some (ascii_of_nat 34)
  else if ascii_eqb e "\" then Some "\"%char
  else if ascii_eqb e "/" then Some "/"%char
  else if ascii_eqb e "b" then Some (ascii_of_nat 8)
  else if ascii_eqb e "f" then Some (ascii_of_nat 12)
  else if ascii_eqb e "n" then Some (ascii_of_nat 10)
  else if ascii_eqb e "r" then Some (ascii_of_nat 13)
  else if ascii_eqb e "t" then Some (ascii_of_nat 9)
  else None.

Definition cons_fst (c : ascii) (r : option (text * text))
  : option (text * text) :=
  match r with
  | Some (a, b) => Some (c :: a, b)
  | None => None
  end.

(** The content of a string from after its opening quote, and the text
    after its closing quote. *)
Fixpoint read_string (s : text) : option (text * text) :=
  match s with
  | [] => None
  | c :: s' =>
      if ascii_eqb c (ascii_of_nat 34) then Some ([], s')
      else if ascii_eqb c "\" then
        match s' with
        | [] => None
        | e :: s'' =>
            if ascii_eqb e "u" then
              match s'' with
              | h1 :: h2 :: h3 :: h4 :: s3 =>
                  match hex4 h1 h2 h3 h4 with
                  | Some n =>
                      if n <? 256
                      then cons_fst (ascii_of_nat n) (read_string s3)
                      else None
                  | None => None
                  end
              | _ => None
              end
            else
              match unescape e with
              | Some x => cons_fst x (read_string s'')
              | None => None
              end
        end
      else if code c <? 32 then None
      else cons_fst c (read_string s')
  end.

(** The fraction of a number: a "." and at least one digit. *)
Definition read_fraction (s : text) : text * text :=
  match s with
  | c :: r =>
      if ascii_eqb c "." then
        match span_digits r with
        | ([], _) => ([], s)
        | (d, r') => (d, r')
        end
      else ([], s)
  | [] => ([], s)
  end.

(** The exponent of a number: "e" or "E", a sign or none, and at least
    one digit. *)
Definition read_exponent (s : text) : option Z * text :=
  match s with
  | c :: r =>
      if ascii_eqb c "e" || ascii_eqb c "E" then
        let '(negative, r1) :=
          match r with
          | x :: r' =>
              if ascii_eqb x "+" then (false, r')
              else if ascii_eqb x "-" then (true, r')
              else (false, r)
          | [] => (false, r)
          end in
        match span_digits r1 with
        | ([], _) => (None, s)
        | (d, r2) =>
            (Some (if negative then (- digits_val d)%Z else digits_val d), r2)
        end
      else (None, s)
  | [] => (None, s)
  end.

(** A number: an int when it has neither fraction nor exponent, a float
    otherwise. *)
Definition read_number (s : text) : option (json * text) :=
  let '(negative, s1) :=
    match s with
    | c :: r => if ascii_eqb c "-" then (true, r) else (false, s)
    | [] => (false, s)
    end in
  let '(ip, s2) :=
    match s1 with
    | c :: r =>
        if ascii_eqb c "0" then ([c], r) else span_digits s1
    | [] => ([], s1)
    end in
  match ip with
  | [] => None
  | _ :: _ =>
      let '(fp, s3) := read_fraction s2 in
      let '(ex, s4) := read_exponent s3 in
      match fp, ex with
      | [], None =>
          Some (JInt (if negative then (- digits_val ip)%Z
                      else digits_val ip), s2)
      | _, _ =>
          let x := ((match ex with Some e => e | None => 0 end)
                    - Z.of_nat (List.length fp))%Z in
          let n := digits_val (ip ++ fp) in
          Some (JFloat (JF negative
                           (binary64_of_ratio
                              (n * 10 ^ Z.max 0 x)%Z
                              (10 ^ Z.max 0 (- x))%Z)), s4)
      end
  end.

(** [d[key] = v] on the items of a dict. *)
Fixpoint dict_set (key : text) (v : json) (d : list (text * json))
  : list (text * json) :=
  match d with
  | [] => [(key, v)]
  | (k, v0) :: d' =>
      if text_eqb key k then (k, v) :: d' else (k, v0) :: dict_set key v d'
  end.

Definition literal (word : string) (v : json) (s : text)
  : option (json * text) :=
  if startswith s (T word)
  then Some (v, skipn (List.length (T word)) s) else None.

Fixpoint read_value (fuel : nat) (s : text) {struct fuel}
  : option (json * text) :=
  match fuel with
  | O => None
  | S fuel' =>
      match s with
      | [] => None
      | c :: r =>
          if ascii_eqb c (ascii_of_nat 34) then
            match read_string r with
            | Some (str, r') => Some (JStr str, r')
            | None => None
            end
          else if ascii_eqb c "{" then
            match skip_space r with
            | x :: r2 =>
                if ascii_eqb x "}" then Some (JDict [], r2)
                else read_members fuel' (x :: r2) []
            | [] => None
            end
          else if ascii_eqb c "[" then
            match skip_space r with
            | x :: r2 =>
                if ascii_eqb x "]" then Some (JList [], r2)
                else read_items fuel' (x :: r2) []
            | [] => None
            end
          else if ascii_eqb c "n" then literal "null" JNull s
          else if ascii_eqb c "t" then literal "true" (JBool true) s
          else if ascii_eqb c "f" then literal "false" (JBool false) s
          else if ascii_eqb c "N" then literal "NaN" (JFloat JNaN) s
          else if ascii_eqb c "I"
               then literal "Infinity" (JFloat (JF false FInf)) s
          else if startswith s (T "-Infinity")
               then literal "-Infinity" (JFloat (JF true FInf)) s
          else read_number s
      end
  end

with read_members (fuel : nat) (s : text) (acc : list (text * json))
     {struct fuel} : option (json * text) :=
  match fuel with
  | O => None
  | S fuel' =>
      match s with
      | [] => None
      | q :: r =>
          if ascii_eqb q (ascii_of_nat 34) then
            match read_string r with
            | None => None
            | Some (key, r1) =>
                match skip_space r1 with
                | colon :: r2 =>
                    if ascii_eqb colon ":" then
                      match read_value fuel' (skip_space r2) with
                      | None => None
                      | Some (v, r3) =>
                          let acc' := dict_set key v acc in
                          match skip_space r3 with
                          | x :: r4 =>
                              if ascii_eqb x "}" then Some (JDict acc', r4)
                              else if ascii_eqb x ","
                              then read_members fuel' (skip_space r4) acc'
                              else None
                          | [] => None
                          end
                      end
                    else None
                | [] => None
                end
            end
          else None
      end
  end

with read_items (fuel : nat) (s : text) (acc : list json)
     {struct fuel} : option (json * text) :=
  match fuel with
  | O => None
  | S fuel' =>
      match read_value fuel' s with
      | None => None
      | Some (v, r1) =>
          let acc' := acc ++ [v] in
          match skip_space r1 with
          | x :: r2 =>
              if ascii_eqb x "]" then Some (JList acc', r2)
              else if ascii_eqb x ","
              then read_items fuel' (skip_space r2) acc'
              else None
          | [] => None
          end
      end
  end.

Definition decode_error : exn :=
  MkExn (T "JSONDecodeError") (T "invalid JSON").

(** One unit of fuel is spent per value and per member or item, and
    each of them takes at least one character. *)
Definition json_loads_ref (s : text) : loads_result :=
  match read_value (2 * List.length s + 2) (skip_space s) with
  | Some (v, r) =>
      match skip_space r with
      | [] => Loaded v
      | _ :: _ => JSONDecodeError decode_error
      end
  | None => JSONDecodeError decode_error
  end.

(** Stand-ins for the other collaborators: a model with a fixed reply
    or a fixed failure, files kept as a list of names with their content,
    and a table of plans that refuses a project name that SQLite would
    refuse (NULL, or a value that is not a scalar).  [example_repr] and
    [example_dumps] give fixed texts: the examples only apply [str] to
    strings and never read the stored text. *)

Definition example_repr (v : json) : text := T "<object>".
Definition example_dumps (v : json) : text := T "<json>".

Definition model_replies (reply : text) : text -> res text_attr :=
  fun _ => Ret (TextIs reply).

Definition model_raises (e : exn) : text -> res text_attr :=
  fun _ => Raise e.

Definition example_files : Type := list (text * text).

Definition example_write (f : example_files) (name content : text)
  : res example_files :=
  Ret ((name, content) :: f).

Definition example_store : Type := list (json * text).

Definition example_insert (rows : example_store) (name : json) (data : text)
  : res example_store :=
  match name with
  | JNull =>
      Raise (MkExn (T "IntegrityError")
                   (T "NOT NULL constraint failed: plans.project_name"))
  | JList _ | JDict _ =>
      Raise (MkExn (T "ProgrammingError")
                   (T "Error binding parameter 1: type is not supported"))
  | _ => Ret (rows ++ [(name, data)])
  end.

(** A machine with DISABLE_AI unset, no files and an empty table. *)
Definition example_world : world example_files example_store :=
  MkWorld [] [] [].

(** A request with the JSON body [{"goal": goal}]. *)
Definition request_for (goal : text) : request :=
  MkRequest true (Ret (JDict [(T "goal", JStr goal)])).

(** The object of the specification's example, bare and in a fence
    with white space around. *)
Definition plan_x_text : text :=
  T "{" ++ Q "project_name" ++ T ":" ++ Q "X" ++ T "," ++ Q "tasks"
    ++ T ":[]}".

Definition plan_x_fenced : text :=
  T "  ```json" ++ newline :: plan_x_text ++ newline :: T "```  ".

(** Replies and failures of the model used in the examples. *)
Definition quota_message : text :=
  T "429 You exceeded your current quota. Please retry in 12.4s".

Definition quota_failure : exn := MkExn (T "ResourceExhausted") quota_message.

(** [{"error": "quota exceeded"}] *)
Definition error_reply : text :=
  T "{" ++ Q "error" ++ T ": " ++ Q "quota exceeded" ++ T "}".

(** [{"project_name": null, "tasks": []}] *)
Definition null_name_reply : text :=
  T "{" ++ Q "project_name" ++ T ": null, " ++ Q "tasks" ++ T ": []}".

(** ** What a pattern matches

    [lang ic r i s1 s2 g g']: the pattern [r] can match the text [s1]
    at index [i] when [s2] follows, taking group 1 from [g] to [g'].
    This says which matches exist; the matcher above says which of them
    is found first. *)

Fixpoint lang (ic : bool) (r : regex) (i : nat) (s1 s2 : text)
         (g g' : option text) : Prop :=
  match r with
  | RLit c => exists x, s1 = [x] /\ lit_match ic c x = true /\ g' = g
  | RSet p => exists x, s1 = [x] /\ p x = true /\ g' = g
  | RSeq r1 r2 =>
      exists a b gm, s1 = a ++ b /\ lang ic r1 i a (b ++ s2) g gm
                     /\ lang ic r2 (i + List.length a) b s2 gm g'
  | ROpt r1 => (s1 = [] /\ g' = g) \/ lang ic r1 i s1 s2 g g'
  | RStar p => forallb p s1 = true /\ g' = g
  | RPlus p => s1 <> [] /\ forallb p s1 = true /\ g' = g
  | RGroup r1 => exists gm, lang ic r1 i s1 s2 g gm /\ g' = Some s1
  | RBol => s1 = [] /\ i = 0 /\ g' = g
  | REol => s1 = [] /\ (s2 = [] \/ s2 = [newline]) /\ g' = g
  end.

(** ** Reading a text without regard to case

    [ci_char x y]: the character [x] is [y], or [y] is a lower-case
    letter and [x] its upper-case form; [ci_equal a b]: the text [a] is
    the text [b] up to the case of its letters. *)

(** A lower-case letter a..z. *)
Definition is_lower_letter (c : ascii) : bool :=
  (97 <=? code c) && (code c <=? 122).

(** A character of ASCII that is not a letter, or a symbol between
    DEL and the letters of the Latin-1 supplement. *)
Definition is_caseless (c : ascii) : bool :=
  (code c <? 65) || ((91 <=? code c) && (code c <? 97))
  || ((123 <=? code c) && (code c <? 192)).

Definition ci_char (x y : ascii) : Prop :=
  x = y \/ (is_lower_letter y = true /\ code x + 32 = code y).

Definition ci_equal (a b : text) : Prop := Forall2 ci_char a b.

(** The characters of a word in lower case. *)
Definition lower_word (w : text) : bool :=
  forallb (fun y => is_lower_letter y || is_caseless y) w.

(** A request that passes the two checks of lines 63 to 70 and carries
    the goal [goal]. *)
Definition request_with_goal (req : request) (goal : json) : Prop :=
  is_json req = true
  /\ exists data, get_json req = Ret data
                  /\ py_get data (T "goal") JNull = Ret goal
                  /\ truthy goal = true.

(** Characters that the properties name. *)
Definition lbrace : ascii := "{".
Definition rbrace : ascii := "}".
Definition backtick : ascii := "`".

(** The head of a text is not white space (or the text is empty). *)
Definition starts_nonspace (s : text) : bool :=
  match s with
  | [] => true
  | c :: _ => negb (is_space c)
  end.

(** The head of a text is not a digit (or the text is empty). *)
Definition starts_nondigit (s : text) : bool :=
  match s with
  | [] => true
  | c :: _ => negb (is_digit c)
  end.

(** ** The two retry patterns, stated on the text

    A numeral is a run of digits, or two runs of digits with a "."
    between them. *)
Definition is_numeral (num : text) : Prop :=
  all_digits num = true
  \/ exists ip fp, num = ip ++ "."%char :: fp
                   /\ all_digits ip = true /\ all_digits fp = true.

(** "Please retry in", white space or none, the numeral [num] and an
    "s", in any case, at the head of [s]. *)
Definition please_retry_here (s : text) (num : text) : Prop :=
  exists head ws c rest,
    s = head ++ ws ++ num ++ c :: rest
    /\ ci_equal head (T "please retry in")
    /\ forallb is_space ws = true
    /\ is_numeral num
    /\ ci_char c "s".

(** "retry_delay", white space or none, a "{", any text without "}",
    "seconds:", white space or none and the digits [num], all of them (no
    digit follows), at the head of [s]. *)
Definition retry_delay_here (s : text) (num : text) : Prop :=
  exists ws run ws' rest,
    s = T "retry_delay" ++ ws ++ lbrace :: run
          ++ T "seconds:" ++ ws' ++ num ++ rest
    /\ forallb is_space ws = true
    /\ forallb not_rbrace run = true
    /\ forallb is_space ws' = true
    /\ all_digits num = true
    /\ starts_nondigit rest = true.

(** An occurrence at index [n] of [msg]. *)
Definition occurs_at (here : text -> text -> Prop)
           (msg : text) (n : nat) (num : text) : Prop :=
  exists pre s, msg = pre ++ s /\ List.length pre = n /\ here s num.

Definition please_retry_at := occurs_at please_retry_here.
Definition retry_delay_at := occurs_at retry_delay_here.

(** The first occurrence in [msg] is at index [n], with [num]. *)
Definition first_at (here : text -> text -> Prop)
           (msg : text) (n : nat) (num : text) : Prop :=
  occurs_at here msg n num
  /\ forall n' num', n' < n -> ~ occurs_at here msg n' num'.

(** There is no occurrence in [msg]. *)
Definition absent (here : text -> text -> Prop) (msg : text) : Prop :=
  forall n num, ~ occurs_at here msg n num.

(** The number part of the first retry pattern. *)
Definition pat_number : regex :=
  (RPlus is_digit ;; ROpt (RLit "." ;; RPlus is_digit))%re.

(** The word [w] of a pattern matches the text [s] character by
    character. *)
Definition lit_matches (ic : bool) (w s : text) : Prop :=
  Forall2 (fun c x => lit_match ic c x = true) w s.

(** A pattern without "^". *)
Fixpoint no_bol (r : regex) : bool :=
  match r with
  | RSeq r1 r2 => no_bol r1 && no_bol r2
  | ROpt r1 | RGroup r1 => no_bol r1
  | RBol => false
  | _ => true
  end.

(** A match object moved by [d] characters. *)
Definition shift (d : nat) (m : rematch) : rematch :=
  MkMatch (d + m_start m) (d + m_end m) (m_group1 m).

(** The integers [n] and [d] with [n / d] the number that a numeral
    denotes. *)
Definition numeral_ratio (num : text) : Z * Z :=
  match split_dot num with
  | (ip, None) => (digits_val ip, 1%Z)
  | (ip, Some fp) =>
      (digits_val (ip ++ fp), (10 ^ Z.of_nat (List.length fp))%Z)
  end.

(** [c] is the least integer that is not below [m * 2^e]. *)
Definition is_ceiling (m e c : Z) : Prop :=
  if (0 <=? e)%Z then c = (m * 2 ^ e)%Z
  else ((c - 1) * 2 ^ (- e) < m <= c * 2 ^ (- e))%Z.

(** The messages of the specification's examples, and messages that
    carry a rate-limit marker. *)
Definition rate_limit_message : text := T "Rate limit: Please retry in 12.4s".

Definition retry_delay_message : text :=
  T "... retry_delay { seconds: 7 } ...".

Definition both_patterns_message : text :=
  T "429 Please retry in 3s; retry_delay { seconds: 7 }".

(** A delay of 310 digits, which is beyond the binary64 numbers. *)
Definition huge_delay_message : text :=
  T "429 Please retry in " ++ repeat "9"%char 310 ++ T "s".

Open Scope Z_scope.
(** The number that the digits of a [Decimal.uint] denote after the
    digits already read, which denote [acc]. *)
Fixpoint uint_val (d : Decimal.uint) (acc : Z) : Z :=
  match d with
  | Decimal.Nil => acc
  | Decimal.D0 l => uint_val l (10 * acc)
  | Decimal.D1 l => uint_val l (10 * acc + 1)
  | Decimal.D2 l => uint_val l (10 * acc + 2)
  | Decimal.D3 l => uint_val l (10 * acc + 3)
  | Decimal.D4 l => uint_val l (10 * acc + 4)
  | Decimal.D5 l => uint_val l (10 * acc + 5)
  | Decimal.D6 l => uint_val l (10 * acc + 6)
  | Decimal.D7 l => uint_val l (10 * acc + 7)
  | Decimal.D8 l => uint_val l (10 * acc + 8)
  | Decimal.D9 l => uint_val l (10 * acc + 9)
  end.
Close Scope Z_scope.

Open Scope Z_scope.
(** The two scale factors of [scaled]. *)
Definition scale_up (e : Z) : Z := 2 ^ Z.max 0 (- e).
Definition scale_down (e : Z) : Z := 2 ^ Z.max 0 e.

(** [x] is a binary64 number in normal form within half a unit in the
    last place of [n / d], the even one of the two when [n / d] is half
    way; or [x] is infinity and [n / d] is [(2^54 - 1) * 2^970] or
    more. *)
Definition near_binary64 (n d : Z) (x : py_float) : Prop :=
  match x with
  | FFinite m e =>
      0 <= m < 2 ^ 53 /\ -1074 <= e <= 971
      /\ (m = 0 \/ 2 ^ 52 <= m \/ e = -1074)
      /\ - (d * scale_down e)
         <= 2 * (n * scale_up e) - 2 * m * (d * scale_down e)
         <= d * scale_down e
      /\ (2 * (n * scale_up e) - 2 * m * (d * scale_down e)
          = d * scale_down e
          \/ 2 * (n * scale_up e) - 2 * m * (d * scale_down e)
             = - (d * scale_down e) ->
          Z.even m = true)
  | FInf => (2 ^ 54 - 1) * 2 ^ 970 * d <= n
  end.
Close Scope Z_scope.

(** ** The table of plans (app.py, lines 17 to 32)

    [plans.db] as the statements of [app.py] and [inspect_db.py] read
    and change it: the rows of the table [plans] in the order of their
    insertion, and the counter that AUTOINCREMENT keeps for the table
    (the largest id given so far).  Every statement of the two files is
    run on a connection of its own and committed at once, so a statement
    is modelled as a function on the state of the file.  Opening the
    file is taken to work. *)

(** A value as [sqlite3] passes it to SQLite. *)
Inductive sql_value : Type :=
| SqlNull
| SqlInteger (n : Z)
| SqlReal (negative : bool) (x : py_float)
| SqlText (s : text).

(** A row of [plans]; the two TEXT NOT NULL columns hold text. *)
Record plan_row : Type := MkRow {
  row_id : Z;
  row_project_name : text;
  row_plan_data : text;
  row_created_at : text
}.

Record plans_table : Type := MkTable {
  t_rows : list plan_row;
  t_seq : Z
}.

(** The database file: [None] as long as the table has not been
    created. *)
Definition database : Type := option plans_table.

(** The exceptions of [sqlite3] that the statements can meet.  The class
    and the message raised for a parameter of an unsupported type differ
    between versions of Python; no property depends on them. *)
Definition no_such_table : exn :=
  MkExn (T "OperationalError") (T "no such table: plans").
Definition int_too_large : exn :=
  MkExn (T "OverflowError")
        (T "Python int too large to convert to SQLite INTEGER").
Definition unsupported_type : exn :=
  MkExn (T "ProgrammingError")
        (T "Error binding parameter: type is not supported").
Definition not_null_failed : exn :=
  MkExn (T "IntegrityError")
        (T "NOT NULL constraint failed: plans.project_name").
Definition database_full : exn :=
  MkExn (T "OperationalError") (T "database or disk is full").

(** A Python [int] that fits the 64-bit INTEGER of SQLite. *)
Definition fits_int64 (n : Z) : bool :=
  ((- 2 ^ 63 <=? n) && (n <? 2 ^ 63))%Z.

(** A parameter of a statement: None, int (bool included), float and
    str are passed on, a NaN as NULL; a list or a dict is refused. *)
Definition sqlite_bind (v : json) : res sql_value :=
  match v with
  | JNull => Ret SqlNull
  | JBool b => Ret (SqlInteger (if b then 1 else 0))
  | JInt n => if fits_int64 n then Ret (SqlInteger n) else Raise int_too_large
  | JFloat JNaN => Ret SqlNull
  | JFloat (JF negative x) => Ret (SqlReal negative x)
  | JStr s => Ret (SqlText s)
  | JList _ | JDict _ => Raise unsupported_type
  end.

(** [init_db]: CREATE TABLE IF NOT EXISTS. *)
Definition init_db (db : database) : database :=
  match db with
  | Some t => Some t
  | None => Some (MkTable [] 0)
  end.

(** The largest id that the table holds or has given. *)
Definition largest_id (t : plans_table) : Z :=
  fold_right Z.max (t_seq t) (map row_id (t_rows t)).

Section PlanStore.
(** CURRENT_TIMESTAMP at the time of the insert, and the text that
    SQLite writes for a REAL kept in a TEXT column. *)
Variable now : text.
Variable real_text : bool -> py_float -> text.

(** What the column [project_name TEXT NOT NULL] keeps of a value. *)
Definition column_text (v : sql_value) : res text :=
  match v with
  | SqlNull => Raise not_null_failed
  | SqlInteger n => Ret (str_of_int n)
  | SqlReal negative x => Ret (real_text negative x)
  | SqlText s => Ret s
  end.

(** What the column keeps of a Python value. *)
Definition stored_name (v : json) : res text :=
  match sqlite_bind v with
  | Ret x => column_text x
  | Raise e => Raise e
  end.

(** [INSERT INTO plans (project_name, plan_data) VALUES (?, ?)] with
    its commit.  The id of the new row is one more than the largest id
    so far. *)
Definition insert_plan (db : database) (project_name : json)
           (plan_data : text) : res database :=
  match db with
  | None => Raise no_such_table
  | Some t =>
      match sqlite_bind project_name with
      | Raise e => Raise e
      | Ret v =>
          let id := (largest_id t + 1)%Z in
          if (id <? 2 ^ 63)%Z then
            match column_text v with
            | Raise e => Raise e
            | Ret name =>
                Ret (Some (MkTable (t_rows t ++ [MkRow id name plan_data now])
                                   id))
            end
          else Raise database_full
      end
  end.
End PlanStore.

(** [SELECT plan_data FROM plans WHERE id = ?] and [fetchone]. *)
Definition select_plan_data (t : plans_table) (plan_id : Z) : option text :=
  match find (fun r => Z.eqb (row_id r) plan_id) (t_rows t) with
  | Some r => Some (row_plan_data r)
  | None => None
  end.

Definition plan_not_found : response :=
  MkResponse 404 [] (error_dict (T "Plan not found")).

(** [get_plan] (app.py, lines 123 to 134); [plan_id] is the int of the
    route. *)
Definition get_plan (json_loads : text -> loads_result) (db : database)
           (plan_id : Z) : outcome :=
  match db with
  | None => Unhandled no_such_table
  | Some t =>
      if fits_int64 plan_id then
        match select_plan_data t plan_id with
        | Some data =>
            match json_loads data with
            | Loaded plan_data => Responds (MkResponse 200 [] plan_data)
            | JSONDecodeError e => Unhandled e
            | LoadsRaises e => Unhandled e
            end
        | None => Responds plan_not_found
        end
      else Unhandled int_too_large
  end.

(** ** [inspect_db.py] *)

(** The docstring of the module, which is the usage text. *)
Definition usage_text : text :=
  T "
Simple helper to inspect plans.db

Usage:
    python scripts\inspect_db.py list
    python scripts\inspect_db.py show <id>

Prints a list of saved plans or JSON data for a single plan id.
".

(** The format [:>4] on [str] of an int: spaces on the left up to four
    characters. *)
Definition rjust (width : nat) (s : text) : text :=
  repeat " "%char (width - List.length s) ++ s.

(** The line of [list_plans] for a row. *)
Definition format_row (r : plan_row) : text :=
  rjust 4 (str_of_int (row_id r)) ++ T " | " ++ row_created_at r
    ++ T " | " ++ row_project_name r.

(** [LIMIT n]: a negative [n] is no limit. *)
Definition sql_limit (n : Z) (rows : list plan_row) : list plan_row :=
  if (n <? 0)%Z then rows else firstn (Z.to_nat n) rows.

Section InspectDb.
(** [str(DB_PATH)]; [json.loads]; [json.dumps(plan, indent=2,
    ensure_ascii=False)]; the rows in the order of ORDER BY created_at
    DESC; the integer that SQLite reads in a text compared with the
    column [id], if it reads one. *)
Variable db_path : text.
Variable json_loads : text -> loads_result.
Variable json_dumps_indent : json -> text.
Variable newest_first : list plan_row -> list plan_row.
Variable integer_of_text : text -> option Z.

Definition no_database : list text := [T "No database found at " ++ db_path].

(** [list_plans]: what it prints, one text per call of [print].
    [file] is [None] when there is no file at [DB_PATH]. *)
Definition list_plans (file : option database) (limit : Z)
  : res (list text) :=
  match file with
  | None => Ret no_database
  | Some None => Raise no_such_table
  | Some (Some t) =>
      match sqlite_bind (JInt limit) with
      | Raise e => Raise e
      | Ret _ =>
          match sql_limit limit (newest_first (t_rows t)) with
          | [] => Ret [T "No plans saved yet."]
          | rows => Ret (map format_row rows)
          end
      end
  end.

(** [show_plan]; [plan_id] is the text of the command line. *)
Definition show_plan (file : option database) (plan_id : text)
  : res (list text) :=
  match file with
  | None => Ret no_database
  | Some None => Raise no_such_table
  | Some (Some t) =>
      match match integer_of_text plan_id with
            | Some id => select_plan_data t id
            | None => None
            end with
      | None => Ret [T "Plan with id " ++ plan_id ++ T " not found."]
      | Some data =>
          match json_loads data with
          | Loaded plan => Ret [json_dumps_indent plan]
          | JSONDecodeError e | LoadsRaises e =>
              Ret [T "Failed to parse plan JSON: " ++ exn_str e;
                   T "Raw data:" ++ [newline];
                   data]
          end
      end
  end.

(** The script: what it prints and its exit status. *)
Definition exits (status : nat) (out : res (list text))
  : res (list text * nat) :=
  match out with
  | Ret lines => Ret (lines, status)
  | Raise e => Raise e
  end.

Definition main (file : option database) (argv : list text)
  : res (list text * nat) :=
  if List.length argv <? 2 then Ret ([usage_text], 1)
  else
    let cmd := lower (nth 1 argv []) in
    if text_eqb cmd (T "list") then exits 0 (list_plans file 50)
    else if text_eqb cmd (T "show") && (List.length argv =? 3)
    then exits 0 (show_plan file (nth 2 argv []))
    else Ret ([usage_text], 1).
End InspectDb.

(** ** The paths through [create_plan_endpoint]

    One case for each way through the function, with the conditions
    that the function tests on the way.  The properties of the handler
    are proved by going through these cases. *)

Definition missing_json : response :=
  MkResponse 400 [] (error_dict (T "Missing JSON in request")).
Definition goal_required : response :=
  MkResponse 400 [] (error_dict (T "The 'goal' field is required.")).

Section ServicePaths.
Variable py_repr : json -> text.
Variable json_loads : text -> loads_result.
Variable json_dumps : json -> text.
Variable generate_content : text -> res text_attr.
Variable files : Type.
Variable write_file : files -> text -> text -> res files.
Variable store : Type.
Variable db_insert : store -> json -> text -> res store.

Local Abbreviation world := (world files store).
Local Abbreviation generate_plan :=
  (generate_plan py_repr json_loads generate_content write_file).
Local Abbreviation save_plan := (save_plan json_dumps db_insert).
Local Abbreviation py_str := (py_str py_repr).

Inductive handled (w : world) (req : request) : outcome * world -> Prop :=
| H_not_json :
    is_json req = false -> handled w req (Responds missing_json, w)
| H_body_raises e :
    is_json req = true -> get_json req = Raise e ->
    handled w req (Unhandled e, w)
| H_body_not_dict data e :
    is_json req = true -> get_json req = Ret data ->
    py_get data (T "goal") JNull = Raise e ->
    handled w req (Unhandled e, w)
| H_no_goal data goal :
    is_json req = true -> get_json req = Ret data ->
    py_get data (T "goal") JNull = Ret goal -> truthy goal = false ->
    handled w req (Responds goal_required, w)
| H_plan_in_raises goal plan w1 e :
    request_with_goal req goal -> generate_plan w goal = (plan, w1) ->
    py_in (T "error") plan = Raise e ->
    handled w req (Unhandled e, w1)
| H_plan_get_raises goal plan w1 e :
    request_with_goal req goal -> generate_plan w goal = (plan, w1) ->
    py_in (T "error") plan = Ret true ->
    py_get plan (T "error") (JStr []) = Raise e ->
    handled w req (Unhandled e, w1)
| H_plan_error goal plan w1 v :
    request_with_goal req goal -> generate_plan w goal = (plan, w1) ->
    py_in (T "error") plan = Ret true ->
    py_get plan (T "error") (JStr []) = Ret v ->
    handled w req (Responds (error_response (py_str v)), w1)
| H_plan_ok goal plan w1 :
    request_with_goal req goal -> generate_plan w goal = (plan, w1) ->
    py_in (T "error") plan = Ret false ->
    handled w req (Responds (MkResponse 200 [] plan), save_plan w1 plan).

End ServicePaths.

(** ** Collaborators for the examples of the table

    A clock and a rendering of REAL values with fixed answers, a
    [json.dumps] that writes the object of the plan X whatever it is
    given (the examples dump no other value), the reading of an id on
    the command line as a decimal number, and rows listed in the
    reverse order of their insertion. *)

Definition example_now : text := T "2024-05-01 12:00:00".
Definition example_real_text (negative : bool) (x : py_float) : text :=
  T "<real>".
Definition dumps_plan_x (v : json) : text := plan_x_text.
Definition plan_x : list (text * json) :=
  [(T "project_name", JStr (T "X")); (T "tasks", JList [])].
Definition plan_x_body : text :=
  Q "project_name" ++ T ":" ++ Q "X" ++ T "," ++ Q "tasks" ++ T ":[]".
Definition example_integer_of_text (s : text) : option Z :=
  if all_digits s then Some (digits_val s) else None.
Definition example_newest_first (rows : list plan_row) : list plan_row :=
  rev rows.

(** A machine whose database file is [db]. *)
Definition table_world (db : database) : world example_files database :=
  MkWorld [] [] db.

(** A reply with prose and a fence around the object of the plan X. *)
Definition chatty_reply : text :=
  T "Sure, here is the plan:" ++ newline :: T "```json" ++ newline ::
    plan_x_text ++ newline :: T "``` I hope it helps.".

(** The table after the plan X was saved into the empty table. *)
Definition table_x : plans_table :=
  MkTable [MkRow 1 (T "X") plan_x_text example_now] 1.

(** A table whose second row does not hold JSON. *)
Definition table_broken : plans_table :=
  MkTable [MkRow 1 (T "X") plan_x_text example_now;
           MkRow 2 (T "Y") (T "{broken") example_now] 2.

(** * Properties *)

(** ** The matcher finds only matches of the pattern, and finds one
       whenever there is one *)

Section MatcherFacts.
Variable A : Type.
Implicit Types (k : cont A) (s : text) (g : option text).

Lemma star_sound p : forall s i g k a,
    star p i s g k = Some a ->
    exists s1 s2, s = s1 ++ s2 /\ forallb p s1 = true
                  /\ k (i + List.length s1) s2 g = Some a.
Proof.
  induction s as [|c s IH]; intros i g k a H; simpl in H.
  - exists [], []. simpl. rewrite Nat.add_0_r. auto.
  - destruct (p c) eqn:Hp.
    + destruct (star p (S i) s g k) eqn:Hs.
      * inversion H; subst. apply IH in Hs.
        destruct Hs as (s1 & s2 & -> & Hall & Hk).
        exists (c :: s1), s2. simpl. rewrite Hp, Hall.
        rewrite Nat.add_succ_r. auto.
      * exists [], (c :: s). simpl. rewrite Nat.add_0_r. auto.
    + exists [], (c :: s). simpl. rewrite Nat.add_0_r. auto.
Qed.

Lemma star_complete p : forall s1 s2 i g k,
    forallb p s1 = true ->
    k (i + List.length s1) s2 g <> None ->
    star p i (s1 ++ s2) g k <> None.
Proof.
  induction s1 as [|c s1 IH]; intros s2 i g k Hall Hk; simpl in *.
  - rewrite Nat.add_0_r in Hk.
    destruct s2 as [|c s2]; simpl; auto.
    destruct (p c); auto.
    destruct (star p (S i) s2 g k); [discriminate|auto].
  - apply andb_prop in Hall. destruct Hall as [Hc Hall]. rewrite Hc.
    rewrite Nat.add_succ_r in Hk.
    specialize (IH s2 (S i) g k Hall Hk).
    destruct (star p (S i) (s1 ++ s2) g k); [discriminate|auto].
Qed.

Lemma rmatch_sound ic : forall r i s g k a,
    rmatch ic r i s g k = Some a ->
    exists s1 s2 g', s = s1 ++ s2 /\ lang ic r i s1 s2 g g'
                     /\ k (i + List.length s1) s2 g' = Some a.
Proof.
  induction r as [c|p|r1 IH1 r2 IH2|r1 IH1|p|p|r1 IH1| |];
    intros i s g k a H; simpl in H.
  - destruct s as [|x s]; [discriminate|].
    destruct (lit_match ic c x) eqn:E; [|discriminate].
    exists [x], s, g. simpl. rewrite Nat.add_1_r. eauto 6.
  - destruct s as [|x s]; [discriminate|].
    destruct (p x) eqn:E; [|discriminate].
    exists [x], s, g. simpl. rewrite Nat.add_1_r. eauto 6.
  - apply IH1 in H. destruct H as (a1 & s' & gm & -> & L1 & H).
    apply IH2 in H. destruct H as (b1 & s2 & g' & -> & L2 & H).
    exists (a1 ++ b1), s2, g'. rewrite <- app_assoc. split; [reflexivity|].
    split.
    + simpl. exists a1, b1, gm. auto.
    + rewrite length_app, Nat.add_assoc. exact H.
  - destruct (rmatch ic r1 i s g k) eqn:E.
    + inversion H; subst. apply IH1 in E.
      destruct E as (s1 & s2 & g' & -> & L & Hk).
      exists s1, s2, g'. simpl. auto.
    + exists [], s, g. simpl. rewrite Nat.add_0_r. auto.
  - apply star_sound in H. destruct H as (s1 & s2 & -> & Hall & Hk).
    exists s1, s2, g. simpl. auto.
  - destruct s as [|x s]; [discriminate|].
    destruct (p x) eqn:E; [|discriminate].
    apply star_sound in H. destruct H as (s1 & s2 & -> & Hall & Hk).
    exists (x :: s1), s2, g. simpl. rewrite E, Hall.
    rewrite Nat.add_succ_r. repeat split; [discriminate|auto].
  - apply IH1 in H. destruct H as (s1 & s2 & gm & -> & L & Hk).
    exists s1, s2, (Some s1). split; [reflexivity|]. split.
    + simpl. exists gm. auto.
    + replace (i + List.length s1 - i) with (List.length s1) in Hk by lia.
      rewrite firstn_app, Nat.sub_diag, firstn_all in Hk. simpl in Hk.
      rewrite app_nil_r in Hk. exact Hk.
  - destruct (i =? 0) eqn:E; [|discriminate].
    apply Nat.eqb_eq in E. exists [], s, g. simpl.
    rewrite Nat.add_0_r. auto.
  - exists [], s, g. simpl. rewrite Nat.add_0_r.
    destruct s as [|c [|c' s]]; [auto 6| |discriminate].
    destruct (ascii_eqb c newline) eqn:E; [|discriminate].
    apply Ascii.eqb_eq in E. subst. auto 6.
Qed.

Lemma rmatch_complete ic : forall r i s1 s2 g g' k,
    lang ic r i s1 s2 g g' ->
    k (i + List.length s1) s2 g' <> None ->
    rmatch ic r i (s1 ++ s2) g k <> None.
Proof.
  induction r as [c|p|r1 IH1 r2 IH2|r1 IH1|p|p|r1 IH1| |];
    intros i s1 s2 g g' k L Hk; simpl in L |- *.
  - destruct L as (x & -> & E & ->). simpl. rewrite E.
    rewrite Nat.add_1_r in Hk. exact Hk.
  - destruct L as (x & -> & E & ->). simpl. rewrite E.
    rewrite Nat.add_1_r in Hk. exact Hk.
  - destruct L as (a & b & gm & -> & L1 & L2).
    rewrite <- app_assoc. eapply IH1; [exact L1|].
    eapply IH2; [exact L2|].
    rewrite length_app, Nat.add_assoc in Hk. exact Hk.
  - destruct L as [[-> ->]|L].
    + simpl in *. rewrite Nat.add_0_r in Hk.
      destruct (rmatch ic r1 i s2 g k); [discriminate|auto].
    + specialize (IH1 _ _ _ _ _ _ L Hk).
      destruct (rmatch ic r1 i (s1 ++ s2) g k); [discriminate|auto].
  - destruct L as [Hall ->]. apply star_complete; auto.
  - destruct L as (Hne & Hall & ->).
    destruct s1 as [|x s1]; [congruence|]. simpl in *.
    apply andb_prop in Hall. destruct Hall as [Hx Hall]. rewrite Hx.
    apply star_complete; auto. rewrite Nat.add_succ_r in Hk. exact Hk.
  - destruct L as (gm & L & ->).
    eapply IH1; [exact L|].
    replace (i + List.length s1 - i) with (List.length s1) by lia.
    rewrite firstn_app, Nat.sub_diag, firstn_all. simpl.
    rewrite app_nil_r. exact Hk.
  - destruct L as (-> & -> & ->). simpl in *. exact Hk.
  - destruct L as (-> & Hs & ->). simpl in *. rewrite Nat.add_0_r in Hk.
    destruct Hs as [->| ->]; simpl; auto.
Qed.
End MatcherFacts.

(** ** Text facts *)

Lemma ascii_eqb_eq a b : ascii_eqb a b = true <-> a = b.
Proof. apply Ascii.eqb_eq. Qed.

Lemma ascii_eqb_refl a : ascii_eqb a a = true.
Proof. apply Ascii.eqb_refl. Qed.

Lemma ascii_eqb_neq a b : ascii_eqb a b = false <-> a <> b.
Proof. apply Ascii.eqb_neq. Qed.

Lemma text_eqb_eq : forall a b, text_eqb a b = true <-> a = b.
Proof.
  induction a as [|x a IH]; destruct b as [|y b]; simpl;
    try (split; (discriminate || reflexivity)).
  rewrite andb_true_iff, ascii_eqb_eq, IH.
  split; [intros [-> ->]; reflexivity | intros H; inversion H; auto].
Qed.

Lemma startswith_iff : forall p s,
    startswith s p = true <-> exists rest, s = p ++ rest.
Proof.
  induction p as [|a p IH]; intros s; simpl.
  - split; [exists s; reflexivity | reflexivity].
  - destruct s as [|b s].
    + split; [discriminate | intros [r H]; discriminate].
    + rewrite andb_true_iff, ascii_eqb_eq, IH. split.
      * intros [-> [r ->]]. exists r. reflexivity.
      * intros [r H]. inversion H; subst. eauto.
Qed.

(** [contains] is the substring relation. *)
Lemma contains_iff sub : forall s,
    contains sub s = true <-> exists pre post, s = pre ++ sub ++ post.
Proof.
  induction s as [|c s IH]; simpl.
  - rewrite orb_false_r, startswith_iff. split.
    + intros [r H]. exists [], r. exact H.
    + intros (pre & post & H). destruct pre; simpl in H.
      * exists post. exact H.
      * discriminate.
  - rewrite orb_true_iff, startswith_iff, IH. split.
    + intros [[r H]|(pre & post & H)].
      * exists [], r. exact H.
      * exists (c :: pre), post. simpl. congruence.
    + intros (pre & post & H). destruct pre as [|x pre]; simpl in H.
      * left. exists post. exact H.
      * right. inversion H; subst. eauto.
Qed.

Lemma forallb_rev (p : ascii -> bool) (s : text) :
  forallb p (rev s) = forallb p s.
Proof.
  induction s as [|c s IH]; simpl; [reflexivity|].
  rewrite forallb_app, IH. simpl. rewrite andb_true_r. apply andb_comm.
Qed.

Lemma lstrip_spaces : forall ws s,
    forallb is_space ws = true -> lstrip (ws ++ s) = lstrip s.
Proof.
  induction ws as [|c ws IH]; intros s H; simpl in *; [reflexivity|].
  apply andb_prop in H. destruct H as [Hc H]. rewrite Hc. auto.
Qed.

Lemma lstrip_nonspace c s : is_space c = false -> lstrip (c :: s) = c :: s.
Proof. intros H. simpl. rewrite H. reflexivity. Qed.

Lemma rstrip_spaces s c ws :
  is_space c = false -> forallb is_space ws = true ->
  rstrip (s ++ c :: ws) = s ++ [c].
Proof.
  intros Hc Hws. unfold rstrip.
  rewrite rev_app_distr. simpl. rewrite <- app_assoc.
  rewrite lstrip_spaces by (rewrite forallb_rev; exact Hws).
  change ([c] ++ rev s) with (c :: rev s).
  rewrite lstrip_nonspace by exact Hc.
  simpl. rewrite rev_involutive. reflexivity.
Qed.

(** Stripping leaves exactly the part between the first and the last
    character that is not white space. *)
Lemma strip_between pre x mid y post :
  forallb is_space pre = true -> forallb is_space post = true ->
  is_space x = false -> is_space y = false ->
  strip (pre ++ x :: mid ++ y :: post) = x :: mid ++ [y].
Proof.
  intros Hpre Hpost Hx Hy. unfold strip.
  rewrite lstrip_spaces, lstrip_nonspace by assumption.
  change (x :: mid ++ y :: post) with ((x :: mid) ++ y :: post).
  rewrite rstrip_spaces by assumption. reflexivity.
Qed.

Lemma firstn_skipn_mid (a m c : text) :
  firstn (List.length m) (skipn (List.length a) (a ++ m ++ c)) = m.
Proof.
  rewrite skipn_app, skipn_all, Nat.sub_diag. simpl.
  rewrite firstn_app, Nat.sub_diag, firstn_all. simpl.
  apply app_nil_r.
Qed.

Lemma strip_spaces ws : forallb is_space ws = true -> strip ws = [].
Proof.
  intros H. unfold strip.
  rewrite <- (app_nil_r ws), lstrip_spaces by exact H. reflexivity.
Qed.

(** ** Search *)

Lemma search_from_sound ic r : forall s i m,
    search_from ic r i s = Some m ->
    exists pre s', s = pre ++ s'
                   /\ match_at ic r false (i + List.length pre) s' = Some m.
Proof.
  induction s as [|c s IH]; intros i m H; simpl in H.
  - destruct (match_at ic r false i []) eqn:E; [|discriminate].
    inversion H; subst. exists [], []. simpl. rewrite Nat.add_0_r. auto.
  - destruct (match_at ic r false i (c :: s)) eqn:E.
    + inversion H; subst. exists [], (c :: s). simpl.
      rewrite Nat.add_0_r. auto.
    + apply IH in H. destruct H as (pre & s' & -> & H).
      exists (c :: pre), s'. simpl. rewrite Nat.add_succ_r. auto.
Qed.

(** The search returns the attempt at the first index where one
    succeeds. *)
Lemma search_from_first ic r : forall pre s i m,
    (forall p1 p2, pre = p1 ++ p2 -> p2 <> [] ->
                   match_at ic r false (i + List.length p1) (p2 ++ s) = None) ->
    match_at ic r false (i + List.length pre) s = Some m ->
    search_from ic r i (pre ++ s) = Some m.
Proof.
  induction pre as [|c pre IH]; intros s i m Hno Hm.
  - simpl in *. rewrite Nat.add_0_r in Hm.
    destruct s; simpl; rewrite Hm; reflexivity.
  - change ((c :: pre) ++ s) with (c :: (pre ++ s)).
    cbn [search_from].
    rewrite <- (Nat.add_0_r i) at 1.
    change 0 with (List.length (@nil ascii)).
    change (c :: pre ++ s) with ((c :: pre) ++ s) at 1.
    rewrite (Hno [] (c :: pre)) by (reflexivity || discriminate).
    apply IH.
    + intros p1 p2 -> Hne.
      specialize (Hno (c :: p1) p2 eq_refl Hne). simpl in Hno.
      rewrite Nat.add_succ_r in Hno. exact Hno.
    + simpl in Hm. rewrite Nat.add_succ_r in Hm. exact Hm.
Qed.

Lemma search_from_none ic r : forall s i,
    (forall p1 p2, s = p1 ++ p2 ->
                   match_at ic r false (i + List.length p1) p2 = None) ->
    search_from ic r i s = None.
Proof.
  induction s as [|c s IH]; intros i Hno.
  - simpl. specialize (Hno [] [] eq_refl). simpl in Hno.
    rewrite Nat.add_0_r in Hno. rewrite Hno. reflexivity.
  - cbn [search_from].
    pose proof (Hno [] (c :: s) eq_refl) as H0. simpl in H0.
    rewrite Nat.add_0_r in H0. rewrite H0.
    apply IH. intros p1 p2 ->.
    specialize (Hno (c :: p1) p2 eq_refl). simpl in Hno.
    rewrite Nat.add_succ_r in Hno. exact Hno.
Qed.

Lemma star_app_some A p (k : cont A) : forall s1 s2 i g a,
    forallb p s1 = true ->
    star p (i + List.length s1) s2 g k = Some a ->
    star p i (s1 ++ s2) g k = Some a.
Proof.
  induction s1 as [|c s1 IH]; intros s2 i g a Hall H; simpl in *.
  - rewrite Nat.add_0_r in H. exact H.
  - apply andb_prop in Hall. destruct Hall as [Hc Hall]. rewrite Hc.
    rewrite Nat.add_succ_r in H. rewrite (IH s2 (S i) g a Hall H).
    reflexivity.
Qed.

(** When the class stops at the head of the text, the repetition takes
    nothing. *)
Lemma star_stop A p (k : cont A) i s g :
  match s with [] => true | c :: _ => negb (p c) end = true ->
  star p i s g k = k i s g.
Proof.
  destruct s as [|c s]; simpl; [reflexivity|].
  intros H. apply negb_true_iff in H. rewrite H. reflexivity.
Qed.

Lemma any_char_true c : any_char c = true.
Proof. unfold any_char. apply orb_negb_r. Qed.

Lemma forallb_any_char s : forallb any_char s = true.
Proof. induction s; simpl; [|rewrite any_char_true]; auto. Qed.

(** ** The brace span (C5) *)

Lemma braces_at_span i b c :
  ~ In rbrace c ->
  match_at false pat_braces false i (lbrace :: b ++ rbrace :: c)
  = Some (MkMatch i (i + 2 + List.length b) None).
Proof.
  intros Hc. unfold match_at, pat_braces. cbn [rmatch].
  change (lit_match false "{" lbrace) with true. cbv iota.
  erewrite star_app_some; [reflexivity|apply forallb_any_char|].
  cbn [star]. rewrite any_char_true.
  match goal with
  | |- match ?X with _ => _ end = _ => destruct X eqn:E
  end.
  - apply star_sound in E. destruct E as (s1 & s2 & Hs & _ & E).
    cbn [rmatch] in E. destruct s2 as [|x s2]; [discriminate|].
    destruct (lit_match false "}" x) eqn:Ex; [|discriminate].
    unfold lit_match in Ex. apply ascii_eqb_eq in Ex. subst x.
    exfalso. apply Hc. rewrite Hs. apply in_or_app. right. left. reflexivity.
  - cbn [rmatch]. change (lit_match false "}" rbrace) with true. cbv iota.
    cbn [andb]. f_equal. f_equal. lia.
Qed.

Lemma braces_not_at i x s :
  x <> lbrace -> match_at false pat_braces false i (x :: s) = None.
Proof.
  intros Hx. unfold match_at, pat_braces. cbn [rmatch].
  replace (lit_match false "{" x) with false; [reflexivity|].
  symmetry. unfold lit_match. apply ascii_eqb_neq.
  intros E. apply Hx. symmetry. exact E.
Qed.

Lemma braces_at_nil i : match_at false pat_braces false i [] = None.
Proof. reflexivity. Qed.

Lemma braces_search a b c i :
  ~ In lbrace a -> ~ In rbrace c ->
  search_from false pat_braces i (a ++ lbrace :: b ++ rbrace :: c)
  = Some (MkMatch (i + List.length a) (i + List.length a + 2 + List.length b)
                  None).
Proof.
  intros Ha Hc. apply search_from_first.
  - intros p1 [|x p2] -> Hne; [congruence|].
    apply braces_not_at. intros ->. apply Ha.
    apply in_or_app. right. left. reflexivity.
  - apply braces_at_span. exact Hc.
Qed.

(** A match of the brace pattern is a span from a "{" to a "}". *)
Lemma braces_match_shape i s m :
  match_at false pat_braces false i s = Some m ->
  exists b c, s = lbrace :: b ++ rbrace :: c.
Proof.
  unfold match_at. intros H. apply rmatch_sound in H.
  destruct H as (s1 & s2 & g' & -> & L & _).
  cbn [pat_braces lang] in L.
  destruct L as (x & y & gx & -> & (x0 & -> & Hx & _) & L).
  destruct L as (b & z & gb & -> & _ & (z0 & -> & Hz & _)).
  unfold lit_match in Hx, Hz. apply ascii_eqb_eq in Hx, Hz. subst.
  exists b, s2. simpl. rewrite <- app_assoc. reflexivity.
Qed.

Lemma split_first (x : ascii) : forall t,
    ~ In x t \/ exists a r, t = a ++ x :: r /\ ~ In x a.
Proof.
  induction t as [|c t IH].
  - left. intros [].
  - destruct (ascii_dec c x) as [->|Hne].
    + right. exists [], t. split; [reflexivity|intros []].
    + destruct IH as [Hno|(a & r & -> & Ha)].
      * left. intros [H|H]; auto.
      * right. exists (c :: a), r. split; [reflexivity|].
        intros [H|H]; auto.
Qed.

Lemma split_last (x : ascii) : forall t,
    ~ In x t \/ exists r c, t = r ++ x :: c /\ ~ In x c.
Proof.
  intros t. destruct (split_first x (rev t)) as [Hno|(a & r & E & Ha)].
  - left. intros H. apply Hno. apply in_rev in H. exact H.
  - right. exists (rev r), (rev a). split.
    + rewrite <- (rev_involutive t), E, rev_app_distr. simpl.
      rewrite <- app_assoc. reflexivity.
    + intros H. apply Ha. apply in_rev. exact H.
Qed.

(** Every text either has a first "{" with a last "}" after it, or has
    no "{" followed by a "}" at all. *)
Lemma brace_span_cases t :
  (exists a b c, t = a ++ lbrace :: b ++ rbrace :: c
                 /\ ~ In lbrace a /\ ~ In rbrace c)
  \/ (forall a b c, t <> a ++ lbrace :: b ++ rbrace :: c).
Proof.
  destruct (split_first lbrace t) as [Hno|(a & r & -> & Ha)].
  - right. intros a b c ->. apply Hno.
    apply in_or_app. right. left. reflexivity.
  - destruct (split_last rbrace r) as [Hno|(b & c & -> & Hc)].
    + right. intros a' b' c' E. apply Hno.
      assert (Hin : In rbrace (b' ++ rbrace :: c'))
        by (apply in_or_app; right; left; reflexivity).
      apply app_eq_app in E. destruct E as (l & [[-> E]|[-> E]]).
      * destruct l as [|x l]; simpl in E; inversion E; subst.
        -- exact Hin.
        -- exfalso. apply Ha. apply in_or_app. right. left. reflexivity.
      * destruct l as [|x l]; simpl in E; inversion E; subst.
        -- exact Hin.
        -- apply in_or_app. right. right. exact Hin.
    + left. exists a, b, c. auto.
Qed.

Lemma json_candidate_span a b c :
  ~ In lbrace a -> ~ In rbrace c ->
  json_candidate (a ++ lbrace :: b ++ rbrace :: c) = lbrace :: b ++ [rbrace].
Proof.
  intros Ha Hc. unfold json_candidate, re_search.
  rewrite braces_search by assumption.
  unfold group0. cbn [m_start m_end]. simpl (0 + _).
  replace (List.length a + 2 + List.length b - List.length a)
    with (List.length (lbrace :: b ++ [rbrace]))
    by (simpl; rewrite length_app; simpl; lia).
  replace (a ++ lbrace :: b ++ rbrace :: c)
    with (a ++ (lbrace :: b ++ [rbrace]) ++ c)
    by (simpl; rewrite <- app_assoc; reflexivity).
  rewrite firstn_skipn_mid.
  apply (strip_between [] lbrace b rbrace []); reflexivity.
Qed.

Lemma json_candidate_no_span t :
  (forall a b c, t <> a ++ lbrace :: b ++ rbrace :: c) ->
  json_candidate t = t.
Proof.
  intros Hno. unfold json_candidate, re_search.
  destruct (search_from false pat_braces 0 t) eqn:E; [|reflexivity].
  apply search_from_sound in E. destruct E as (pre & s' & -> & E).
  apply braces_match_shape in E. destruct E as (b & c & ->).
  exfalso. exact (Hno pre b c eq_refl).
Qed.

(** C5.  The text handed to the JSON parser is the span from the first
    "{" of the cleaned text to its last "}" when there is such a span,
    and the whole cleaned text when there is none; one of the two cases
    always applies. *)
Theorem C5_json_candidate_is_brace_span :
  (forall a b c,
      ~ In lbrace a -> ~ In rbrace c ->
      json_candidate (a ++ lbrace :: b ++ rbrace :: c)
      = lbrace :: b ++ [rbrace])
  /\ (forall t,
         (forall a b c, t <> a ++ lbrace :: b ++ rbrace :: c) ->
         json_candidate t = t)
  /\ (forall t,
         (exists a b c, t = a ++ lbrace :: b ++ rbrace :: c
                        /\ ~ In lbrace a /\ ~ In rbrace c)
         \/ (forall a b c, t <> a ++ lbrace :: b ++ rbrace :: c)).
Proof.
  split; [exact json_candidate_span|].
  split; [exact json_candidate_no_span|exact brace_span_cases].
Qed.

(** C5 at a reply with prose around the object and a brace in the
    prose that follows. *)
Lemma C5_json_candidate_witness :
  json_candidate (T "Here it is: {a: {b: 1}} and } more")
  = T "{a: {b: 1}} and }"
  /\ json_candidate (T "no braces } here { at all") =
     T "no braces } here { at all".
Proof.
  split.
  - apply (proj1 C5_json_candidate_is_brace_span
                 (T "Here it is: ") (T "a: {b: 1}} and ") (T " more")).
    + vm_compute. intuition discriminate.
    + vm_compute. intuition discriminate.
  - apply (proj1 (proj2 C5_json_candidate_is_brace_span)).
    intros a b c E.
    assert (H : re_search false pat_braces
                          (a ++ lbrace :: b ++ rbrace :: c) = None)
      by (rewrite <- E; vm_compute; reflexivity).
    assert (H' : re_search false pat_braces
                          (a ++ lbrace :: b ++ rbrace :: c) <> None).
    { unfold re_search. intros Hn.
      destruct (brace_span_cases (a ++ lbrace :: b ++ rbrace :: c))
        as [(a' & b' & c' & E' & Ha & Hc)|Hno].
      - rewrite E', braces_search in Hn by assumption. discriminate.
      - exact (Hno a b c eq_refl). }
    exact (H' H).
Defined.

(** ** Case (C6) *)

Lemma code_inj x y : code x = code y -> x = y.
Proof.
  unfold code. intros H.
  rewrite <- (ascii_nat_embedding x), <- (ascii_nat_embedding y), H.
  reflexivity.
Qed.

Lemma code_lt x : code x < 256.
Proof. apply nat_ascii_bounded. Qed.

Lemma code_of_nat n : n < 256 -> code (ascii_of_nat n) = n.
Proof. apply nat_ascii_embedding. Qed.

(** The characters that [str.lower] sends to a lower-case letter are
    the letter and its upper-case form; the only character that it
    sends to a caseless character is that character. *)
Lemma lower_char_ci x y :
  is_lower_letter y || is_caseless y = true ->
  (lower_char x = y <-> ci_char x y).
Proof.
  unfold is_lower_letter, is_caseless, ci_char, lower_char. intros Hy.
  pose proof (code_lt x) as Hx. pose proof (code_lt y) as Hy'.
  assert (Hcase : (97 <= code y <= 122)
                  \/ (code y < 65 \/ 91 <= code y < 97
                      \/ 123 <= code y < 192)).
  { apply orb_prop in Hy. destruct Hy as [H|H].
    - apply andb_prop in H. destruct H as [H1 H2].
      apply Nat.leb_le in H1, H2. lia.
    - right. apply orb_prop in H. destruct H as [H|H].
      + apply orb_prop in H. destruct H as [H|H].
        * apply Nat.ltb_lt in H. lia.
        * apply andb_prop in H. destruct H as [H1 H2].
          apply Nat.leb_le in H1. apply Nat.ltb_lt in H2. lia.
      + apply andb_prop in H. destruct H as [H1 H2].
        apply Nat.leb_le in H1. apply Nat.ltb_lt in H2. lia. }
  assert (Hlet : (97 <=? code y) && (code y <=? 122) = true
                 <-> 97 <= code y <= 122).
  { rewrite andb_true_iff, !Nat.leb_le. reflexivity. }
  clear Hy.
  destruct ((65 <=? code x) && (code x <=? 90)) eqn:Eu; cbn [orb].
  - apply andb_prop in Eu. destruct Eu as [E1 E2].
    apply Nat.leb_le in E1, E2. split.
    + intros E.
      assert (Hc : code y = code x + 32)
        by (rewrite <- E; apply code_of_nat; lia).
      right. rewrite Hlet. lia.
    + intros [->|[_ H]]; [lia|]. apply code_inj. rewrite code_of_nat; lia.
  - apply andb_false_iff in Eu.
    destruct ((192 <=? code x) && (code x <=? 222) && negb (code x =? 215))
             eqn:El.
    + apply andb_prop in El. destruct El as [El _].
      apply andb_prop in El. destruct El as [E1 E2].
      apply Nat.leb_le in E1, E2. split.
      * intros E. exfalso.
        assert (Hc : code y = code x + 32)
          by (rewrite <- E; apply code_of_nat; lia).
        lia.
      * intros [->|[_ H]]; lia.
    + split; [auto|]. intros [H|[Hl H]]; [exact H|].
      apply Hlet in Hl.
      destruct Eu as [E|E]; apply Nat.leb_gt in E; lia.
Qed.

Lemma lower_ci_equal : forall a b,
    lower_word b = true -> (lower a = b <-> ci_equal a b).
Proof.
  unfold ci_equal, lower_word.
  induction a as [|x a IH]; intros [|y b] Hb; simpl in *.
  - split; auto.
  - split; [discriminate|]. intros H. inversion H.
  - split; [discriminate|]. intros H. inversion H.
  - apply andb_prop in Hb. destruct Hb as [Hy Hb]. split.
    + intros H. inversion H; subst. constructor.
      * apply lower_char_ci; auto.
      * apply IH; auto.
    + intros H. inversion H; subst. f_equal.
      * apply lower_char_ci; auto.
      * apply IH; auto.
Qed.

(** A text occurs in the lowered message exactly when the message has
    it up to case. *)
Lemma contains_lower_iff w s :
  lower_word w = true ->
  (contains w (lower s) = true
   <-> exists pre mid post, s = pre ++ mid ++ post /\ ci_equal mid w).
Proof.
  intros Hw. rewrite contains_iff. unfold lower. split.
  - intros (pre & post & H).
    apply map_eq_app in H. destruct H as (a & r & -> & <- & H).
    apply map_eq_app in H. destruct H as (m & c & -> & Hm & <-).
    exists a, m, c. split; [reflexivity|].
    apply lower_ci_equal; assumption.
  - intros (pre & mid & post & -> & H).
    apply lower_ci_equal in H; [|exact Hw].
    exists (map lower_char pre), (map lower_char post).
    rewrite !map_app. unfold lower in H. rewrite H. reflexivity.
Qed.

(** C6.  The classifier reports a rate limit exactly for the messages
    that contain "quota" in any mix of upper and lower case or contain
    "429"; for "Internal server fault" it reports none, and no delay. *)
Theorem C6_rate_limited_iff_quota_or_429 :
  (forall err_msg,
      fst (classify err_msg) = true
      <-> (exists pre mid post,
              err_msg = pre ++ mid ++ post /\ ci_equal mid (T "quota"))
          \/ (exists pre post, err_msg = pre ++ T "429" ++ post))
  /\ classify (T "Internal server fault") = (false, None).
Proof.
  split; [|reflexivity].
  intros err_msg.
  assert (E : fst (classify err_msg) = is_rate_limited err_msg).
  { unfold classify. destruct (is_rate_limited err_msg); reflexivity. }
  rewrite E. unfold is_rate_limited.
  rewrite orb_true_iff, contains_lower_iff by reflexivity.
  rewrite contains_iff. reflexivity.
Qed.

(** ** Substitution *)

Lemma sub_from_skip ic r repl : forall a s i,
    sub_from ic r repl i (a ++ s) (List.length a)
    = sub_from ic r repl (i + List.length a) s 0.
Proof.
  induction a as [|x a IH]; intros s i.
  - simpl. rewrite Nat.add_0_r. reflexivity.
  - simpl. rewrite IH, Nat.add_succ_r. reflexivity.
Qed.

(** A text in which no attempt succeeds is left as it is. *)
Lemma sub_from_nomatch ic r repl : forall s i,
    (forall p1 p2, s = p1 ++ p2 ->
                   match_at ic r false (i + List.length p1) p2 = None) ->
    sub_from ic r repl i s 0 = s.
Proof.
  induction s as [|c s IH]; intros i Hno.
  - pose proof (Hno [] [] eq_refl) as H0. simpl in H0.
    rewrite Nat.add_0_r in H0. simpl. rewrite H0. reflexivity.
  - pose proof (Hno [] (c :: s) eq_refl) as H0. simpl in H0.
    rewrite Nat.add_0_r in H0. cbn [sub_from]. rewrite H0.
    f_equal. apply IH. intros p1 p2 ->.
    specialize (Hno (c :: p1) p2 eq_refl). simpl in Hno.
    rewrite Nat.add_succ_r in Hno. exact Hno.
Qed.

(** A prefix in which no attempt succeeds is copied. *)
Lemma sub_from_copy ic r repl : forall pre s i,
    (forall p1 p2, pre = p1 ++ p2 -> p2 <> [] ->
                   match_at ic r false (i + List.length p1) (p2 ++ s) = None) ->
    sub_from ic r repl i (pre ++ s) 0
    = pre ++ sub_from ic r repl (i + List.length pre) s 0.
Proof.
  induction pre as [|c pre IH]; intros s i Hno.
  - simpl. rewrite Nat.add_0_r. reflexivity.
  - assert (H0 : match_at ic r false i ((c :: pre) ++ s) = None).
    { rewrite <- (Nat.add_0_r i) at 1.
      apply (Hno [] (c :: pre)); [reflexivity|discriminate]. }
    change ((c :: pre) ++ s) with (c :: (pre ++ s)) in *.
    cbn [sub_from]. rewrite H0. cbn [app List.length].
    rewrite Nat.add_succ_r. f_equal. apply IH.
    intros p1 p2 -> Hne.
    specialize (Hno (c :: p1) p2 eq_refl Hne). simpl in Hno.
    rewrite Nat.add_succ_r in Hno. exact Hno.
Qed.

(** A match that is not empty is replaced, and the work goes on after
    it. *)
Lemma sub_from_match ic r repl a s i m :
  match_at ic r false i (a ++ s) = Some m ->
  m_end m = i + List.length a -> a <> [] ->
  sub_from ic r repl i (a ++ s) 0
  = repl ++ sub_from ic r repl (i + List.length a) s 0.
Proof.
  intros Hm He Ha. destruct a as [|x a]; [congruence|].
  change ((x :: a) ++ s) with (x :: (a ++ s)) in *.
  cbn [sub_from]. rewrite Hm, He.
  replace (i + List.length (x :: a) =? i) with false
    by (symmetry; apply Nat.eqb_neq; simpl; lia).
  f_equal.
  replace (i + List.length (x :: a) - i - 1) with (List.length a)
    by (simpl; lia).
  rewrite sub_from_skip. simpl. rewrite Nat.add_succ_r. reflexivity.
Qed.

(** ** The code fences (C3) *)

Lemma fence_open_later ma i s :
  i <> 0 -> match_at true pat_fence_open ma i s = None.
Proof. destruct i; [congruence|reflexivity]. Qed.

Lemma fence_open_json ws rest :
  forallb is_space ws = true -> starts_nonspace rest = true ->
  match_at true pat_fence_open false 0 (T "```json" ++ ws ++ rest)
  = Some (MkMatch 0 (7 + List.length ws) None).
Proof.
  intros Hws Hrest. unfold match_at, pat_fence_open.
  cbn [rmatch RWord T list_ascii_of_string app Nat.eqb].
  change (lit_match true "`" "`") with true.
  change (lit_match true "j" "j") with true.
  change (lit_match true "s" "s") with true.
  change (lit_match true "o" "o") with true.
  change (lit_match true "n" "n") with true.
  cbv iota.
  erewrite star_app_some; [reflexivity|exact Hws|].
  rewrite star_stop by exact Hrest. reflexivity.
Qed.

Lemma sub_fence_open_later : forall s i,
    i <> 0 -> sub_from true pat_fence_open [] i s 0 = s.
Proof.
  intros s i Hi. apply sub_from_nomatch. intros p1 p2 _.
  apply fence_open_later. lia.
Qed.

(** The opening fence with its tag and the white space after it goes. *)
Lemma sub_fence_open_json ws rest :
  forallb is_space ws = true -> starts_nonspace rest = true ->
  re_sub true pat_fence_open [] (T "```json" ++ ws ++ rest) = rest.
Proof.
  intros Hws Hrest. unfold re_sub. rewrite app_assoc.
  erewrite sub_from_match.
  - simpl app. apply sub_fence_open_later. simpl. lia.
  - rewrite <- app_assoc. apply fence_open_json; assumption.
  - cbn [m_end]. rewrite length_app. reflexivity.
  - discriminate.
Qed.

(** A text that starts with "{" has no opening fence. *)
Lemma sub_fence_open_lbrace s :
  re_sub true pat_fence_open [] (lbrace :: s) = lbrace :: s.
Proof.
  unfold re_sub. apply sub_from_nomatch. intros [|x p1] p2 E.
  - simpl in E. subst p2. reflexivity.
  - apply fence_open_later. simpl. lia.
Qed.

(** A match of the closing fence is white space, three backticks and
    the end of the text, or a last newline before it. *)
Lemma fence_close_shape ma i s m :
  match_at false pat_fence_close ma i s = Some m ->
  exists ws tail, s = ws ++ T "```" ++ tail
                  /\ forallb is_space ws = true
                  /\ (tail = [] \/ tail = [newline]).
Proof.
  unfold match_at. intros H. apply rmatch_sound in H.
  destruct H as (s1 & s2 & g' & -> & L & _).
  cbn [pat_fence_close lang RWord T list_ascii_of_string] in L.
  destruct L as (ws & r1 & g1 & -> & (Hws & _) & L).
  destruct L as (bt & e & g2 & -> & L & (-> & He & _)).
  destruct L as (b1 & r2 & g3 & -> & (x1 & -> & H1 & _) & L).
  destruct L as (b2 & b3 & g4 & -> & (x2 & -> & H2 & _) & (x3 & -> & H3 & _)).
  unfold lit_match in H1, H2, H3. apply ascii_eqb_eq in H1, H2, H3. subst.
  exists ws, s2. rewrite app_nil_r. rewrite <- app_assoc. auto.
Qed.

Lemma fence_close_no_rbrace ma i s :
  In rbrace s -> match_at false pat_fence_close ma i s = None.
Proof.
  intros Hin.
  destruct (match_at false pat_fence_close ma i s) eqn:E; [|reflexivity].
  exfalso. apply fence_close_shape in E.
  destruct E as (ws & tail & -> & Hws & Ht).
  apply in_app_or in Hin. destruct Hin as [Hin|Hin].
  - rewrite forallb_forall in Hws. apply Hws in Hin. discriminate.
  - cbn in Hin. destruct Hin as [H|[H|[H|H]]]; try discriminate.
    destruct Ht as [->| ->]; cbn in H; [exact H|].
    destruct H as [H|[]]. discriminate.
Qed.

Lemma fence_close_at ws i :
  forallb is_space ws = true ->
  match_at false pat_fence_close false i (ws ++ T "```")
  = Some (MkMatch i (i + List.length (ws ++ T "```")) None).
Proof.
  intros Hws. unfold match_at, pat_fence_close. cbn [rmatch].
  erewrite star_app_some; [reflexivity|exact Hws|].
  rewrite star_stop by reflexivity.
  cbn. rewrite length_app. cbn. do 2 f_equal. lia.
Qed.

Lemma fence_close_at_nil i : match_at false pat_fence_close false i [] = None.
Proof. reflexivity. Qed.

Lemma sub_fence_close_tail ws i :
  forallb is_space ws = true ->
  sub_from false pat_fence_close [] i (ws ++ T "```") 0 = [].
Proof.
  intros Hws. rewrite <- (app_nil_r (ws ++ T "```")).
  erewrite sub_from_match.
  - reflexivity.
  - rewrite app_nil_r. apply fence_close_at. exact Hws.
  - reflexivity.
  - destruct ws; discriminate.
Qed.

(** The closing fence and the white space before it go. *)
Lemma sub_fence_close_end body ws :
  forallb is_space ws = true ->
  re_sub false pat_fence_close [] (body ++ rbrace :: ws ++ T "```")
  = body ++ [rbrace].
Proof.
  intros Hws. unfold re_sub.
  change (body ++ rbrace :: ws ++ T "```")
    with (body ++ [rbrace] ++ (ws ++ T "```")).
  rewrite app_assoc, sub_from_copy.
  - rewrite sub_fence_close_tail by exact Hws. apply app_nil_r.
  - intros p1 p2 E Hne. apply fence_close_no_rbrace.
    apply in_or_app. left.
    destruct (exists_last Hne) as (q & y & ->).
    rewrite app_assoc in E. apply app_inj_tail in E. destruct E as [_ <-].
    apply in_or_app. right. left. reflexivity.
Qed.

(** A text that ends with "}" has no closing fence. *)
Lemma sub_fence_close_rbrace body :
  re_sub false pat_fence_close [] (body ++ [rbrace]) = body ++ [rbrace].
Proof.
  unfold re_sub. apply sub_from_nomatch. intros p1 p2 E.
  destruct p2 as [|x p2] using rev_ind.
  - apply fence_close_at_nil.
  - clear IHp2. apply fence_close_no_rbrace.
    rewrite app_assoc in E. apply app_inj_tail in E. destruct E as [_ <-].
    apply in_or_app. right. left. reflexivity.
Qed.

(** What is left of a reply that is an object between braces, once in a
    fence and once bare. *)
Lemma clean_reply_fenced pre w1 body w2 post :
  forallb is_space pre = true -> forallb is_space post = true ->
  forallb is_space w1 = true -> forallb is_space w2 = true ->
  clean_reply
    (Some (pre ++ T "```json" ++ newline ::
               (w1 ++ lbrace :: body ++ rbrace :: w2)
               ++ newline :: T "```" ++ post))
  = lbrace :: body ++ [rbrace].
Proof.
  intros Hpre Hpost H1 H2. unfold clean_reply, text_or_empty.
  assert (E : strip (pre ++ T "```json" ++ newline ::
                         (w1 ++ lbrace :: body ++ rbrace :: w2)
                         ++ newline :: T "```" ++ post)
              = T "```json" ++ (newline :: w1)
                  ++ lbrace :: body ++ rbrace :: (w2 ++ [newline]) ++ T "```").
  { replace (pre ++ T "```json" ++ newline ::
                 (w1 ++ lbrace :: body ++ rbrace :: w2)
                 ++ newline :: T "```" ++ post)
      with (pre ++ backtick ::
                (T "``json" ++ newline ::
                   (w1 ++ lbrace :: body ++ rbrace :: w2)
                   ++ newline :: T "``") ++ backtick :: post).
    - rewrite strip_between by (assumption || reflexivity).
      cbn [T list_ascii_of_string app]. unfold backtick.
      repeat (rewrite <- ?app_assoc; cbn [app]). reflexivity.
    - cbn [T list_ascii_of_string app]. unfold backtick.
      repeat (rewrite <- ?app_assoc; cbn [app]). reflexivity. }
  rewrite E.
  rewrite sub_fence_open_json;
    [|cbn; rewrite H1; reflexivity|reflexivity].
  change (lbrace :: body ++ rbrace :: (w2 ++ [newline]) ++ T "```")
    with ((lbrace :: body) ++ rbrace :: (w2 ++ [newline]) ++ T "```").
  rewrite sub_fence_close_end
    by (rewrite forallb_app, H2; reflexivity).
  reflexivity.
Qed.

Lemma clean_reply_bare w1 body w2 :
  forallb is_space w1 = true -> forallb is_space w2 = true ->
  clean_reply (Some (w1 ++ lbrace :: body ++ rbrace :: w2))
  = lbrace :: body ++ [rbrace].
Proof.
  intros H1 H2. unfold clean_reply, text_or_empty.
  rewrite strip_between by (assumption || reflexivity).
  rewrite sub_fence_open_lbrace.
  change (lbrace :: body ++ [rbrace]) with ((lbrace :: body) ++ [rbrace]).
  rewrite sub_fence_close_rbrace. reflexivity.
Qed.

(** ** Words and numerals in a pattern *)

Lemma rmatch_word A ic (k : cont A) : forall w,
    w <> [] ->
    forall s1 s2 i g,
      lit_matches ic w s1 ->
      rmatch ic (RWord w) i (s1 ++ s2) g k = k (i + List.length s1) s2 g.
Proof.
  induction w as [|c w IH]; intros Hne s1 s2 i g H; [congruence|].
  inversion H as [|c' x w' s1' Hc Hw]; subst.
  destruct w as [|c2 w].
  - inversion Hw; subst. simpl. rewrite Hc, Nat.add_1_r. reflexivity.
  - change (RWord (c :: c2 :: w)) with (RSeq (RLit c) (RWord (c2 :: w))).
    cbn [rmatch app]. rewrite Hc.
    rewrite IH by (discriminate || exact Hw).
    simpl. rewrite Nat.add_succ_r. reflexivity.
Qed.

Lemma lang_word ic : forall w,
    w <> [] ->
    forall i s1 s2 g g',
      lang ic (RWord w) i s1 s2 g g' <-> lit_matches ic w s1 /\ g' = g.
Proof.
  unfold lit_matches.
  induction w as [|c w IH]; intros Hne i s1 s2 g g'; [congruence|].
  destruct w as [|c2 w].
  - simpl. split.
    + intros (x & -> & Hx & ->). split; [|reflexivity].
      constructor; [exact Hx|constructor].
    + intros [H ->]. inversion H as [|? x ? l Hx Hl]; subst.
      inversion Hl; subst. eauto.
  - change (RWord (c :: c2 :: w)) with (RSeq (RLit c) (RWord (c2 :: w))).
    cbn [lang]. split.
    + intros (a & b & gm & -> & (x & -> & Hx & ->) & L).
      apply IH in L; [|discriminate]. destruct L as [L ->].
      split; [|reflexivity]. constructor; assumption.
    + intros [H ->]. inversion H as [|? x ? l Hx Hl]; subst.
      exists [x], l, g. split; [reflexivity|]. split; [eauto|].
      apply IH; [discriminate|]. auto.
Qed.

Lemma lit_matches_exact : forall w s, lit_matches false w s <-> s = w.
Proof.
  unfold lit_matches.
  induction w as [|c w IH]; intros s; split; intros H.
  - inversion H. reflexivity.
  - subst. constructor.
  - inversion H as [|? x ? l Hx Hl]; subst.
    unfold lit_match in Hx. apply ascii_eqb_eq in Hx. subst.
    f_equal. apply IH. exact Hl.
  - subst. constructor.
    + unfold lit_match. apply ascii_eqb_refl.
    + apply IH. reflexivity.
Qed.

Lemma lit_matches_lower : forall w s,
    lit_matches true w s <-> lower s = lower w.
Proof.
  unfold lit_matches.
  induction w as [|c w IH]; intros s; split; intros H.
  - inversion H. reflexivity.
  - destruct s; [constructor|discriminate].
  - inversion H as [|? x ? l Hx Hl]; subst.
    unfold lit_match in Hx. apply ascii_eqb_eq in Hx. simpl.
    f_equal; [symmetry; exact Hx|]. apply IH. exact Hl.
  - destruct s as [|x s]; [discriminate|]. simpl in H. inversion H.
    constructor.
    + unfold lit_match. apply ascii_eqb_eq. congruence.
    + apply IH. assumption.
Qed.

(** Under IGNORECASE a word of the pattern matches the texts that are
    its lower-case form up to case. *)
Lemma lit_matches_ci w s :
  lower_word (lower w) = true ->
  (lit_matches true w s <-> ci_equal s (lower w)).
Proof.
  intros Hw. rewrite lit_matches_lower. apply lower_ci_equal. exact Hw.
Qed.

Lemma lit_match_ci c x :
  is_lower_letter (lower_char c) || is_caseless (lower_char c) = true ->
  (lit_match true c x = true <-> ci_char x (lower_char c)).
Proof.
  intros Hc. unfold lit_match. rewrite ascii_eqb_eq.
  rewrite <- (@lower_char_ci x _ Hc). split; congruence.
Qed.

Lemma all_digits_cons s :
  all_digits s = true <->
  exists d ds, s = d :: ds /\ is_digit d = true /\ forallb is_digit ds = true.
Proof.
  unfold all_digits. destruct s as [|d ds]; simpl.
  - split; [discriminate|]. intros (d & ds & H & _). discriminate.
  - split.
    + intros H. apply andb_prop in H. eauto.
    + intros (d' & ds' & E & Hd & Hds). inversion E; subst.
      rewrite Hd, Hds. reflexivity.
Qed.

Lemma all_digits_iff s :
  all_digits s = true <-> s <> [] /\ forallb is_digit s = true.
Proof.
  unfold all_digits. destruct s; simpl.
  - split; [discriminate|]. intros [H _]. congruence.
  - split; [intros H; split; [discriminate|exact H]|intros [_ H]; exact H].
Qed.

(** The number part of the first pattern matches the numerals. *)
Lemma lang_number i s1 s2 g g' :
  lang true pat_number i s1 s2 g g' <-> is_numeral s1 /\ g' = g.
Proof.
  unfold pat_number, is_numeral. cbn [lang]. split.
  - intros (a & b & gm & -> & (Ha & Hda & ->) & [[-> ->]|L]).
    + rewrite app_nil_r. split; [|reflexivity]. left.
      apply all_digits_iff. auto.
    + destruct L as (x & fp & gx & -> & (x0 & -> & Hx & ->) & Hf & Hdf & ->).
      split; [|reflexivity]. right.
      apply lit_match_ci in Hx; [|reflexivity].
      destruct Hx as [->|[Hl _]]; [|discriminate].
      exists a, fp. split; [reflexivity|].
      split; apply all_digits_iff; auto.
  - intros [[H|(ip & fp & -> & Hi & Hf)] ->].
    + apply all_digits_iff in H. destruct H as [Hne Hd].
      exists s1, [], g. rewrite app_nil_r. auto 8.
    + apply all_digits_iff in Hi, Hf.
      destruct Hi as [Hin Hid], Hf as [Hfn Hfd].
      exists ip, ("."%char :: fp), g. split; [reflexivity|].
      split; [auto|]. right.
      exists ["."%char], fp, g. split; [reflexivity|].
      split; [exists "."%char; auto|auto].
Qed.

(** On a numeral followed by a character that is neither a digit nor
    a ".", the number part takes the whole numeral. *)
Lemma rmatch_number A (k : cont A) num c rest i g a :
  is_numeral num -> is_digit c = false -> c <> "."%char ->
  k (i + List.length num) (c :: rest) g = Some a ->
  rmatch true pat_number i (num ++ c :: rest) g k = Some a.
Proof.
  intros Hnum Hc Hdot Hk. unfold pat_number. cbn [rmatch].
  assert (Hnodot : lit_match true "." c = false).
  { destruct (lit_match true "." c) eqn:E; [|reflexivity].
    apply lit_match_ci in E; [|reflexivity].
    destruct E as [E|[Hl _]]; [|discriminate].
    exfalso. apply Hdot. exact E. }
  destruct Hnum as [H|(ip & fp & -> & Hi & Hf)].
  - apply all_digits_cons in H. destruct H as (d & ds & -> & Hd & Hds).
    cbn [app]. rewrite Hd.
    apply star_app_some; [exact Hds|].
    rewrite star_stop by (simpl; rewrite Hc; reflexivity).
    cbn [rmatch]. rewrite Hnodot.
    simpl in Hk. rewrite Nat.add_succ_r in Hk. exact Hk.
  - apply all_digits_cons in Hi, Hf.
    destruct Hi as (d & ds & -> & Hd & Hds).
    destruct Hf as (f & fs & -> & Hfd & Hfs).
    cbn [app]. rewrite Hd. rewrite <- app_assoc.
    apply star_app_some; [exact Hds|].
    rewrite star_stop by reflexivity.
    cbn [rmatch app].
    change (lit_match true "." ".") with true. cbv iota.
    rewrite Hfd.
    erewrite star_app_some; [reflexivity|exact Hfs|].
    rewrite star_stop by (simpl; rewrite Hc; reflexivity).
    rewrite <- Hk. f_equal. simpl. rewrite !length_app. simpl. lia.
Qed.

(** ** The two retry patterns (C1, C2) *)

Lemma digit_not_space d : is_digit d = true -> is_space d = false.
Proof.
  unfold is_digit, is_space. intros H. apply andb_prop in H.
  destruct H as [H1 H2]. apply Nat.leb_le in H1, H2.
  repeat (apply orb_false_iff; split);
    try (apply andb_false_iff; right; apply Nat.leb_gt; lia);
    try (apply Nat.eqb_neq; lia).
Qed.

Lemma ci_s_facts c :
  ci_char c "s" ->
  is_digit c = false /\ c <> "."%char /\ lit_match true "s" c = true.
Proof.
  intros H.
  assert (Hm : lit_match true "s" c = true)
    by (apply lit_match_ci; [reflexivity|exact H]).
  destruct H as [->|[_ H]].
  - repeat split; [discriminate].
  - assert (Hc : code c = 83) by (change (code "s") with 115 in H; lia).
    repeat split; [|intros ->; discriminate|exact Hm].
    unfold is_digit. rewrite Hc. reflexivity.
Qed.

(** At an occurrence of "Please retry in <number>s" the first pattern
    matches, and group 1 is the numeral. *)
Lemma please_retry_match s num i :
  please_retry_here s num ->
  exists e, match_at true pat_please_retry false i s
            = Some (MkMatch i e (Some num)).
Proof.
  intros (head & ws & c & rest & -> & Hh & Hws & Hnum & Hc).
  exists (i + List.length (head ++ ws ++ num) + 1).
  destruct (@ci_s_facts c Hc) as (Hcd & Hcdot & Hcs).
  unfold match_at, pat_please_retry.
  change (RPlus is_digit ;; ROpt (RLit "." ;; RPlus is_digit))%re
    with pat_number.
  cbn [rmatch].
  rewrite rmatch_word;
    [|discriminate|apply lit_matches_ci; [reflexivity|exact Hh]].
  apply star_app_some; [exact Hws|].
  assert (Hns : starts_nonspace (num ++ c :: rest) = true).
  { destruct Hnum as [H|(ip & fp & -> & H & _)];
      apply all_digits_cons in H; destruct H as (d & ds & -> & Hd & _);
      simpl; rewrite (@digit_not_space d Hd); reflexivity. }
  rewrite star_stop by exact Hns.
  apply rmatch_number; try assumption.
  rewrite Hcs. cbn [andb].
  replace (i + List.length head + List.length ws
           + List.length num - (i + List.length head + List.length ws))
    with (List.length num) by lia.
  rewrite firstn_app, Nat.sub_diag, firstn_all. simpl firstn.
  rewrite app_nil_r. do 2 f_equal. rewrite !length_app. lia.
Qed.

(** A match of the first pattern is an occurrence of "Please retry in
    <number>s", and group 1 is its numeral. *)
Lemma please_retry_match_inv i s m :
  match_at true pat_please_retry false i s = Some m ->
  exists num, please_retry_here s num /\ m_group1 m = Some num.
Proof.
  intros H.
  assert (Hs : exists num, please_retry_here s num).
  { unfold match_at in H. apply rmatch_sound in H.
    destruct H as (s1 & s2 & g' & -> & L & _).
    unfold pat_please_retry in L.
    change (RPlus is_digit ;; ROpt (RLit "." ;; RPlus is_digit))%re
      with pat_number in L.
    cbn [lang] in L.
    destruct L as (head & r1 & g1 & -> & Lw & L).
    destruct L as (ws & r2 & g2 & -> & (Hws & _) & L).
    destruct L as (num & r3 & g3 & -> & (g4 & Ln & _) & (c & -> & Hc & _)).
    apply lang_word in Lw; [|discriminate]. destruct Lw as [Lw _].
    apply lit_matches_ci in Lw; [|reflexivity].
    apply lang_number in Ln. destruct Ln as [Ln _].
    apply lit_match_ci in Hc; [|reflexivity].
    exists num, head, ws, c, s2. rewrite <- !app_assoc. auto 6. }
  destruct Hs as (num & Hs). exists num. split; [exact Hs|].
  destruct (please_retry_match i Hs) as (e & E).
  rewrite E in H. inversion H. reflexivity.
Qed.

(** A text is its leading digits followed by a text that starts with no
    digit. *)
Lemma digit_run_split : forall t : text,
    exists t1 t2, t = t1 ++ t2 /\ forallb is_digit t1 = true
                  /\ starts_nondigit t2 = true.
Proof.
  induction t as [|c t (t1 & t2 & E & H1 & H2)].
  - exists [], []. auto.
  - destruct (is_digit c) eqn:Hc.
    + exists (c :: t1), t2. simpl. rewrite E, Hc, H1. auto.
    + exists [], (c :: t). simpl. rewrite Hc. auto.
Qed.

Lemma firstn_length_app (a b : text) : firstn (List.length a) (a ++ b) = a.
Proof. induction a; simpl; congruence. Qed.

Lemma rmatch_seq_sound A ic r1 r2 i s g (k : cont A) a :
  rmatch ic (RSeq r1 r2) i s g k = Some a ->
  exists s1 s2 g', s = s1 ++ s2 /\ lang ic r1 i s1 s2 g g'
                   /\ rmatch ic r2 (i + List.length s1) s2 g' k = Some a.
Proof. simpl. intros H. apply rmatch_sound in H. exact H. Qed.

(** Before a continuation that never fails, the group [(\d+)] takes the
    whole run of digits at the head of the text. *)
Lemma digits_group_match A (k : cont A) j s g a :
  (forall i' s' g', k i' s' g' <> None) ->
  rmatch false (RGroup (RPlus is_digit)) j s g k = Some a ->
  exists num rest,
    s = num ++ rest /\ all_digits num = true
    /\ starts_nondigit rest = true
    /\ k (j + List.length num) rest (Some num) = Some a.
Proof.
  intros Htot H. cbn [rmatch] in H.
  destruct s as [|x t]; [discriminate|].
  destruct (is_digit x) eqn:Hx; [|discriminate].
  destruct (digit_run_split t) as (t1 & t2 & -> & H1 & H2).
  exists (x :: t1), t2. split; [reflexivity|].
  split; [apply all_digits_iff; split; [discriminate|simpl; rewrite Hx; exact H1]|].
  split; [exact H2|].
  destruct (k (j + List.length (x :: t1)) t2 (Some (x :: t1))) as [a'|] eqn:Ek;
    [|exfalso; exact (Htot _ _ _ Ek)].
  rewrite <- H. symmetry.
  apply star_app_some; [exact H1|].
  rewrite star_stop by exact H2.
  replace (S j + List.length t1 - j) with (List.length (x :: t1))
    by (cbn [List.length]; lia).
  change (x :: t1 ++ t2) with ((x :: t1) ++ t2).
  rewrite firstn_length_app.
  replace (S j + List.length t1) with (j + List.length (x :: t1))
    by (cbn [List.length]; lia).
  exact Ek.
Qed.

(** Where the second pattern matches there is an occurrence of
    "retry_delay { ... seconds: <digits>", and group 1 is its digits, up
    to the last one. *)
Lemma retry_delay_match_inv i s m :
  match_at false pat_retry_delay false i s = Some m ->
  exists num, retry_delay_here s num /\ m_group1 m = Some num.
Proof.
  unfold match_at, pat_retry_delay. intros H.
  apply rmatch_seq_sound in H. destruct H as (w1 & r1 & g1 & -> & Lw1 & H).
  apply rmatch_seq_sound in H.
  destruct H as (ws & r2 & g2 & -> & (Hws & _) & H).
  apply rmatch_seq_sound in H.
  destruct H as (b & r3 & g3 & -> & (x & -> & Hx & _) & H).
  apply rmatch_seq_sound in H.
  destruct H as (run & r4 & g4 & -> & (Hrun & _) & H).
  apply rmatch_seq_sound in H. destruct H as (w2 & r5 & g5 & -> & Lw2 & H).
  apply rmatch_seq_sound in H.
  destruct H as (ws' & r6 & g6 & -> & (Hws' & _) & H).
  apply digits_group_match in H; [|intros; simpl; discriminate].
  destruct H as (num & rest & -> & Hnum & Hrest & Hk).
  inversion Hk; subst m; clear Hk. cbn [m_group1].
  apply lang_word in Lw1, Lw2; try discriminate.
  destruct Lw1 as [Lw1 _], Lw2 as [Lw2 _].
  apply lit_matches_exact in Lw1, Lw2. subst w1 w2.
  unfold lit_match in Hx. apply ascii_eqb_eq in Hx. subst x.
  exists num. split; [|reflexivity].
  exists ws, run, ws', rest.
  repeat split; assumption.
Qed.

(** At an occurrence of "retry_delay { ... seconds: <digits>" the second
    pattern matches. *)
Lemma retry_delay_match s num i :
  retry_delay_here s num ->
  match_at false pat_retry_delay false i s <> None.
Proof.
  intros (ws & run & ws' & rest & -> & Hws & Hrun & Hws' & Hnum & _).
  apply all_digits_iff in Hnum. destruct Hnum as [Hne Hd].
  unfold match_at.
  replace (T "retry_delay" ++ ws ++ lbrace :: run
             ++ T "seconds:" ++ ws' ++ num ++ rest)
    with ((T "retry_delay" ++ ws ++ [lbrace] ++ run
             ++ T "seconds:" ++ ws' ++ num) ++ rest)
    by (repeat (rewrite <- ?app_assoc; cbn [app]); reflexivity).
  eapply rmatch_complete with (g' := Some num); [|discriminate].
  unfold pat_retry_delay. cbn [lang].
  exists (T "retry_delay"), (ws ++ [lbrace] ++ run ++ T "seconds:" ++ ws' ++ num), None.
  split; [reflexivity|]. split.
  { apply lang_word; [discriminate|]. split; [|reflexivity].
    apply lit_matches_exact. reflexivity. }
  exists ws, ([lbrace] ++ run ++ T "seconds:" ++ ws' ++ num), None.
  split; [reflexivity|]. split; [auto|].
  exists [lbrace], (run ++ T "seconds:" ++ ws' ++ num), None.
  split; [reflexivity|]. split; [exists lbrace; auto|].
  exists run, (T "seconds:" ++ ws' ++ num), None.
  split; [reflexivity|]. split; [auto|].
  exists (T "seconds:"), (ws' ++ num), None.
  split; [reflexivity|]. split.
  { apply lang_word; [discriminate|]. split; [|reflexivity].
    apply lit_matches_exact. reflexivity. }
  exists ws', num, None.
  split; [reflexivity|]. split; [auto|].
  exists None. auto.
Qed.

(** ** First occurrences *)

Lemma app_same_length (a a' b b' : text) :
  a ++ b = a' ++ b' -> List.length a = List.length a' -> a = a' /\ b = b'.
Proof.
  revert a'. induction a as [|x a IH]; intros [|y a'] E L;
    simpl in *; try discriminate; [auto|].
  inversion E; subst. destruct (IH a' H1) as [-> ->]; [lia|auto].
Qed.

Section Occurrences.
Variable ic : bool.
Variable r : regex.
Variable here : text -> text -> Prop.
Hypothesis match_here :
  forall i s m, match_at ic r false i s = Some m ->
                exists num, here s num /\ m_group1 m = Some num.
Hypothesis here_match :
  forall i s num, here s num -> match_at ic r false i s <> None.

Lemma search_absent msg : absent here msg -> re_search ic r msg = None.
Proof.
  intros Habs. apply search_from_none. intros p1 p2 ->.
  destruct (match_at ic r false (0 + List.length p1) p2) eqn:E;
    [|reflexivity].
  exfalso. apply match_here in E. destruct E as (num & H & _).
  apply (Habs (List.length p1) num). exists p1, p2. auto.
Qed.

Lemma search_first msg n :
  (exists num, occurs_at here msg n num) ->
  (forall n' num', n' < n -> ~ occurs_at here msg n' num') ->
  exists m num, re_search ic r msg = Some m
                /\ m_group1 m = Some num /\ occurs_at here msg n num.
Proof.
  intros (num0 & pre & s & -> & Hn & H0) Hfirst.
  destruct (match_at ic r false (0 + List.length pre) s) as [m|] eqn:E;
    [|exfalso; exact (here_match _ H0 E)].
  destruct (match_here _ _ E) as (num & Hnum & Hg).
  exists m, num. split; [|split; [exact Hg|exists pre, s; auto]].
  apply search_from_first; [|exact E].
  intros p1 p2 -> Hne.
  destruct (match_at ic r false (0 + List.length p1) (p2 ++ s)) eqn:E';
    [|reflexivity].
  exfalso. apply match_here in E'. destruct E' as (num' & H' & _).
  apply (Hfirst (List.length p1) num').
  - rewrite <- Hn, length_app. destruct p2; [congruence|simpl; lia].
  - exists p1, (p2 ++ s). rewrite app_assoc. auto.
Qed.
End Occurrences.

Lemma please_retry_unique s num num' :
  please_retry_here s num -> please_retry_here s num' -> num = num'.
Proof.
  intros H H'.
  destruct (please_retry_match 0 H) as (e & E).
  destruct (please_retry_match 0 H') as (e' & E').
  rewrite E in E'. inversion E'. reflexivity.
Qed.

Lemma please_retry_match_some i s num :
  please_retry_here s num ->
  match_at true pat_please_retry false i s <> None.
Proof.
  intros H. destruct (please_retry_match i H) as (e & E).
  rewrite E. discriminate.
Qed.

Lemma retry_delay_match_some i s num :
  retry_delay_here s num ->
  match_at false pat_retry_delay false i s <> None.
Proof. intros H. exact (retry_delay_match i H). Qed.

(** The first pattern wins wherever it occurs: the delay comes from the
    numeral of its first occurrence. *)
Lemma retry_after_first_pattern msg n num :
  first_at please_retry_here msg n num ->
  retry_after_of msg = seconds_of_text num.
Proof.
  intros [Hocc Hfirst].
  destruct (@search_first true pat_please_retry please_retry_here
              please_retry_match_inv please_retry_match_some
              msg n (ex_intro _ num Hocc) Hfirst)
    as (m & num' & Es & Hg & Hocc').
  assert (num' = num).
  { destruct Hocc as (pre & s & E & L & H).
    destruct Hocc' as (pre' & s' & E' & L' & H').
    rewrite E in E'.
    destruct (app_same_length _ _ _ _ E') as [-> ->]; [congruence|].
    exact (please_retry_unique H' H). }
  subst num'. unfold retry_after_of. rewrite Es.
  unfold seconds_of_match, group1. rewrite Hg. reflexivity.
Qed.

(** Without the first pattern, the delay comes from the digits of an
    occurrence of the second one at the first index where it occurs. *)
Lemma retry_after_second_pattern msg n :
  absent please_retry_here msg ->
  (exists num, retry_delay_at msg n num) ->
  (forall n' num', n' < n -> ~ retry_delay_at msg n' num') ->
  exists num, retry_delay_at msg n num
              /\ retry_after_of msg = seconds_of_text num.
Proof.
  intros Habs Hocc Hfirst.
  destruct (@search_first false pat_retry_delay retry_delay_here
              retry_delay_match_inv retry_delay_match_some
              msg n Hocc Hfirst)
    as (m & num & Es & Hg & Hocc').
  exists num. split; [exact Hocc'|].
  unfold retry_after_of.
  rewrite (@search_absent true pat_please_retry please_retry_here
             please_retry_match_inv msg Habs), Es.
  unfold seconds_of_match, group1. rewrite Hg. reflexivity.
Qed.

Lemma retry_after_no_pattern msg :
  absent please_retry_here msg -> absent retry_delay_here msg ->
  retry_after_of msg = None.
Proof.
  intros H1 H2. unfold retry_after_of.
  rewrite (@search_absent true pat_please_retry please_retry_here
             please_retry_match_inv msg H1).
  rewrite (@search_absent false pat_retry_delay retry_delay_here
             retry_delay_match_inv msg H2). reflexivity.
Qed.

Lemma search_from_none_inv ic r : forall s i,
    search_from ic r i s = None ->
    forall p1 p2, s = p1 ++ p2 ->
                  match_at ic r false (i + List.length p1) p2 = None.
Proof.
  induction s as [|c s IH]; intros i H p1 p2 E; simpl in H.
  - destruct p1; [|discriminate]. simpl in E. subst p2.
    simpl. rewrite Nat.add_0_r.
    destruct (match_at ic r false i []); [discriminate|reflexivity].
  - destruct (match_at ic r false i (c :: s)) eqn:E0; [discriminate|].
    destruct p1 as [|x p1]; simpl in E.
    + subst p2. simpl. rewrite Nat.add_0_r. exact E0.
    + inversion E; subst. simpl. rewrite Nat.add_succ_r.
      apply (IH (S i) H p1 p2 eq_refl).
Qed.

(** The search for a pattern fails only when the pattern is absent. *)
Lemma search_none_absent ic r (here : text -> text -> Prop) msg :
  (forall i s num, here s num -> match_at ic r false i s <> None) ->
  re_search ic r msg = None -> absent here msg.
Proof.
  intros Hm Hs n num (pre & s & -> & Hn & H).
  apply (Hm (0 + List.length pre) s num H).
  apply (search_from_none_inv _ _ _ Hs pre s eq_refl).
Qed.

(** Apart from "^", a pattern matches in the same way at every index:
    the match found at index [d + i] is the one found at index [i],
    moved by [d]. *)
Lemma star_shift A B (f : A -> B) p d (k : cont B) (k' : cont A) :
  (forall i s g, k (d + i) s g = option_map f (k' i s g)) ->
  forall s i g, star p (d + i) s g k = option_map f (star p i s g k').
Proof.
  intros Hk. induction s as [|c s IH]; intros i g; simpl; [apply Hk|].
  destruct (p c); [|apply Hk].
  rewrite <- Nat.add_succ_r, IH.
  destruct (star p (S i) s g k'); [reflexivity|apply Hk].
Qed.

Lemma rmatch_shift A B (f : A -> B) ic d : forall r,
    no_bol r = true ->
    forall (k : cont B) (k' : cont A),
      (forall i s g, k (d + i) s g = option_map f (k' i s g)) ->
      forall s i g,
        rmatch ic r (d + i) s g k = option_map f (rmatch ic r i s g k').
Proof.
  induction r as [c|p|r1 IH1 r2 IH2|r1 IH1|p|p|r1 IH1| |];
    intros Hr k k' Hk s i g; simpl in *; try discriminate.
  - destruct s as [|x s]; [reflexivity|].
    destruct (lit_match ic c x); [|reflexivity].
    rewrite <- Nat.add_succ_r. apply Hk.
  - destruct s as [|x s]; [reflexivity|].
    destruct (p x); [|reflexivity].
    rewrite <- Nat.add_succ_r. apply Hk.
  - apply andb_prop in Hr. destruct Hr as [H1 H2].
    apply IH1; [exact H1|]. intros i' s' g'. apply IH2; assumption.
  - rewrite (IH1 Hr k k' Hk).
    destruct (rmatch ic r1 i s g k'); [reflexivity|apply Hk].
  - apply star_shift. exact Hk.
  - destruct s as [|x s]; [reflexivity|].
    destruct (p x); [|reflexivity].
    rewrite <- Nat.add_succ_r. apply star_shift. exact Hk.
  - apply IH1; [exact Hr|]. intros i' s' g'.
    replace (d + i' - (d + i)) with (i' - i) by lia. apply Hk.
  - destruct s as [|c [|c' s]]; [apply Hk| |reflexivity].
    destruct (ascii_eqb c newline); [apply Hk|reflexivity].
Qed.

Lemma match_at_shift ic r d i s :
  no_bol r = true ->
  match_at ic r false (d + i) s
  = option_map (shift d) (match_at ic r false i s).
Proof.
  intros Hr. unfold match_at. apply rmatch_shift; [exact Hr|].
  intros. reflexivity.
Qed.

Lemma retry_delay_seven_match i post :
  match_at false pat_retry_delay false i
           (T "retry_delay { seconds: 7 }" ++ post)
  = Some (MkMatch i (i + 24) (Some (T "7"))).
Proof.
  rewrite <- (Nat.add_0_r i) at 1.
  rewrite match_at_shift by reflexivity.
  change (match_at false pat_retry_delay false 0
            (T "retry_delay { seconds: 7 }" ++ post))
    with (Some (MkMatch 0 24 (Some (T "7")))).
  unfold shift. simpl. rewrite Nat.add_0_r. reflexivity.
Qed.

(** A text that starts with a word after a prefix that is not empty
    has the word inside the prefix followed by the word less its last
    character. *)
Lemma word_before (w : text) c p2 x y :
  p2 <> [] ->
  p2 ++ (w ++ [c]) ++ x = (w ++ [c]) ++ y ->
  contains (w ++ [c]) (p2 ++ w) = true.
Proof.
  intros Hne E.
  assert (L : List.length (w ++ [c]) <= List.length (p2 ++ w)).
  { rewrite !length_app. destruct p2; [congruence|simpl; lia]. }
  assert (E1 : firstn (List.length (w ++ [c])) (p2 ++ (w ++ [c]) ++ x)
               = w ++ [c]).
  { rewrite E, firstn_app, Nat.sub_diag, firstn_all. simpl.
    apply app_nil_r. }
  assert (E2 : p2 ++ (w ++ [c]) ++ x = (p2 ++ w) ++ ([c] ++ x))
    by (rewrite <- !app_assoc; reflexivity).
  rewrite E2, firstn_app in E1.
  replace (List.length (w ++ [c]) - List.length (p2 ++ w)) with 0 in E1
    by lia.
  simpl firstn in E1. rewrite app_nil_r in E1.
  apply contains_iff. exists [], (skipn (List.length (w ++ [c])) (p2 ++ w)).
  simpl. rewrite <- (firstn_skipn (List.length (w ++ [c])) (p2 ++ w)) at 1.
  rewrite E1. reflexivity.
Qed.

(** In a message without the first pattern whose first "retry_delay" is
    the one of "retry_delay { seconds: 7 }", the delay is 7. *)
Lemma retry_after_seven pre post :
  absent please_retry_here (pre ++ T "retry_delay { seconds: 7 }" ++ post) ->
  contains (T "retry_delay") (pre ++ T "retry_dela") = false ->
  retry_after_of (pre ++ T "retry_delay { seconds: 7 }" ++ post) = Some 7%Z.
Proof.
  intros Habs Hfirst. unfold retry_after_of.
  rewrite (@search_absent true pat_please_retry please_retry_here
             please_retry_match_inv _ Habs).
  unfold re_search.
  rewrite (@search_from_first false pat_retry_delay pre _ 0
             (MkMatch (0 + List.length pre) (0 + List.length pre + 24)
                      (Some (T "7")))).
  - reflexivity.
  - intros p1 p2 -> Hne.
    destruct (match_at false pat_retry_delay false (0 + List.length p1)
                (p2 ++ T "retry_delay { seconds: 7 }" ++ post)) eqn:E;
      [|reflexivity].
    exfalso. apply retry_delay_match_inv in E.
    destruct E as (num & (ws & run & ws' & rest & E & _) & _).
    assert (C : contains (T "retry_delay") (p2 ++ T "retry_dela") = true).
    { apply (@word_before (T "retry_dela") "y" p2
               (T " { seconds: 7 }" ++ post)
               (ws ++ lbrace :: run ++ T "seconds:" ++ ws' ++ num ++ rest)
               Hne).
      exact E. }
    rewrite <- app_assoc in Hfirst.
    apply contains_iff in C. destruct C as (a & b & C).
    rewrite C in Hfirst.
    assert (C' : contains (T "retry_delay")
                          (p1 ++ a ++ T "retry_delay" ++ b) = true).
    { apply contains_iff. exists (p1 ++ a), b.
      rewrite <- app_assoc. reflexivity. }
    congruence.
  - apply retry_delay_seven_match.
Qed.

(** ** Numerals, [float] and [math.ceil] (C1, C2) *)

Lemma digit_not_dot d : is_digit d = true -> ascii_eqb d "." = false.
Proof.
  intros H. apply ascii_eqb_neq. intros ->. discriminate.
Qed.

Lemma split_dot_digits s :
  forallb is_digit s = true -> split_dot s = (s, None).
Proof.
  induction s as [|c s IH]; intros H; simpl in *; [reflexivity|].
  apply andb_prop in H. destruct H as [Hc Hs].
  rewrite (@digit_not_dot c Hc), (IH Hs). reflexivity.
Qed.

Lemma split_dot_fraction ip fp :
  forallb is_digit ip = true -> split_dot (ip ++ "."%char :: fp) = (ip, Some fp).
Proof.
  induction ip as [|c ip IH]; intros H; simpl in *; [reflexivity|].
  apply andb_prop in H. destruct H as [Hc Hs].
  rewrite (@digit_not_dot c Hc), (IH Hs). reflexivity.
Qed.

(** On a numeral [float] gives the binary64 number nearest to the
    number that the numeral denotes. *)
Lemma py_float_of_numeral num :
  is_numeral num ->
  py_float_of_text num
  = Some (binary64_of_ratio (fst (numeral_ratio num))
                            (snd (numeral_ratio num))).
Proof.
  unfold py_float_of_text, numeral_ratio.
  intros [H|(ip & fp & -> & Hi & Hf)].
  - pose proof H as H'. apply all_digits_iff in H'. destruct H' as [_ Hd].
    rewrite (split_dot_digits _ Hd), H. reflexivity.
  - pose proof Hi as Hi'. apply all_digits_iff in Hi'.
    destruct Hi' as [_ Hd].
    rewrite (split_dot_fraction _ fp Hd), Hi, Hf. reflexivity.
Qed.

Open Scope Z_scope.

Lemma py_ceil_finite m e :
  exists c, py_ceil (FFinite m e) = Some c /\ is_ceiling m e c.
Proof.
  unfold py_ceil, is_ceiling. destruct (0 <=? e) eqn:E.
  - eexists. split; reflexivity.
  - apply Z.leb_gt in E. eexists. split; [reflexivity|].
    assert (Hp : 0 < 2 ^ (- e)) by (apply Z.pow_pos_nonneg; lia).
    pose proof (Z.div_mod (- m) (2 ^ (- e)) ltac:(lia)) as Hdm.
    pose proof (Z.mod_pos_bound (- m) (2 ^ (- e)) Hp) as Hb.
    nia.
Qed.

Lemma ceiling_unique m P c :
  0 < P -> (c - 1) * P < m <= c * P -> - ((- m) / P) = c.
Proof.
  intros HP [H1 H2].
  pose proof (Z.div_mod (- m) P ltac:(lia)) as Hdm.
  pose proof (Z.mod_pos_bound (- m) P HP) as Hb.
  nia.
Qed.

(** Rounding to nearest moves a quotient by at most one half. *)
Lemma round_half_even_error a b :
  0 < b ->
  2 * a - b <= 2 * round_half_even a b * b <= 2 * a + b.
Proof.
  intros Hb. unfold round_half_even.
  pose proof (Z.div_mod a b ltac:(lia)) as Hdm.
  pose proof (Z.mod_pos_bound a b Hb) as Hr.
  destruct (2 * (a mod b) <? b) eqn:E1.
  - apply Z.ltb_lt in E1. nia.
  - apply Z.ltb_ge in E1. destruct (b <? 2 * (a mod b)) eqn:E2.
    + apply Z.ltb_lt in E2. nia.
    + apply Z.ltb_ge in E2. destruct (Z.even (a / b)); nia.
Qed.

(** For a quotient [n / d] with [n] below [2^53] (and [d] below
    [2^1075]), the ceiling of the nearest binary64 number is the ceiling
    of the quotient itself. *)
Lemma ceil_of_short_ratio n d :
  0 <= n < 2 ^ 53 -> 0 < d < 2 ^ 1075 ->
  py_ceil (binary64_of_ratio n d) = Some (- ((- n) / d)).
Proof.
  intros Hn Hd. unfold binary64_of_ratio.
  destruct (n =? 0) eqn:En.
  - apply Z.eqb_eq in En. subst n. simpl. reflexivity.
  - apply Z.eqb_neq in En. assert (Hn0 : 0 < n) by lia.
    set (e1 := Z.log2 n - Z.log2 d - 52).
    set (e2 := if fst (scaled n d e1) / snd (scaled n d e1) <? 2 ^ 52
               then e1 - 1 else e1).
    set (e := Z.max e2 (-1074)).
    pose proof (Z.log2_spec n Hn0) as [Ln1 Ln2].
    pose proof (Z.log2_spec d ltac:(lia)) as [Ld1 Ld2].
    pose proof (Z.log2_nonneg d) as Ld0.
    assert (Ln : Z.log2 n < 53) by (apply Z.log2_lt_pow2; lia).
    assert (He2 : e2 <= e1) by (unfold e2; destruct (_ <? _); lia).
    assert (He1 : e1 <= - Z.log2 d) by (unfold e1; lia).
    assert (He : e <= 0) by (unfold e; lia).
    (* the ceiling of the quotient *)
    set (c := - ((- n) / d)).
    assert (Hc : (c - 1) * d < n <= c * d).
    { unfold c.
      pose proof (Z.div_mod (- n) d ltac:(lia)) as Hdm.
      pose proof (Z.mod_pos_bound (- n) d ltac:(lia)) as Hb. nia. }
    destruct (Z.eq_dec e 0) as [E0|E0].
    + (* the quotient is an integer of 53 bits *)
      assert (Ld : Z.log2 d = 0).
      { clear - E0 He2 He1 Ld0. subst e.
        destruct (Z.max_spec e2 (-1074)) as [[? H]|[? H]];
          rewrite H in E0; lia. }
      assert (d = 1)
        by (rewrite Ld in Ld2; change (2 ^ Z.succ 0) with 2 in Ld2; lia).
      subst d.
      rewrite E0. unfold scaled. simpl fst. simpl snd.
      change (2 ^ Z.max 0 (- 0)) with 1. change (2 ^ Z.max 0 0) with 1.
      assert (Hr : round_half_even (n * 1) 1 = n).
      { unfold round_half_even.
        rewrite !Z.mul_1_r, Z.mod_1_r, Z.div_1_r. reflexivity. }
      rewrite Hr.
      replace (n =? 2 ^ 53) with false by (symmetry; apply Z.eqb_neq; lia).
      change (971 <? 0) with false. cbv iota. unfold py_ceil.
      change (0 <=? 0) with true. cbv iota. f_equal.
      unfold c. rewrite Z.div_1_r. change (2 ^ 0) with 1. lia.
    + assert (Hneg : e < 0) by lia.
      set (E := 2 ^ (- e)).
      assert (HE : 0 < E) by (apply Z.pow_pos_nonneg; lia).
      assert (Hsc : scaled n d e = (n * E, d)).
      { unfold scaled. rewrite Z.max_r by lia. rewrite Z.max_l by lia.
        simpl (2 ^ 0). rewrite Z.mul_1_r. reflexivity. }
      rewrite Hsc. simpl fst. simpl snd.
      set (m := round_half_even (n * E) d).
      assert (Hd0 : 0 < d) by lia.
      pose proof (@round_half_even_error (n * E) d Hd0) as Hm.
      fold m in Hm.
      assert (H2E : d < 2 * E).
      { unfold E, e. destruct (Z.max_spec e2 (-1074)) as [[_ ->]|[H' ->]].
        - change (- -1074) with 1074.
          change (2 * 2 ^ 1074) with (2 ^ 1075). lia.
        - assert (Z.log2 d <= - e2) by lia.
          assert (2 ^ Z.log2 d <= 2 ^ (- e2))
            by (apply Z.pow_le_mono_r; lia).
          rewrite Z.pow_succ_r in Ld2 by lia. lia. }
      assert (Hlow : (c - 1) * E < m) by nia.
      assert (Hhigh : m <= c * E) by nia.
      destruct (m =? 2 ^ 53) eqn:Em.
      * apply Z.eqb_eq in Em.
        replace (971 <? e + 1) with false by (symmetry; apply Z.ltb_ge; lia).
        unfold py_ceil. destruct (0 <=? e + 1) eqn:Ee.
        -- apply Z.leb_le in Ee. assert (e = -1) by lia.
           assert (E = 2) by (unfold E; replace (- e) with 1 by lia;
                              reflexivity).
           replace (e + 1) with 0 by lia. simpl (2 ^ 0).
           f_equal. fold c. lia.
        -- apply Z.leb_gt in Ee. f_equal. fold c.
           apply ceiling_unique; [apply Z.pow_pos_nonneg; lia|].
           assert (HE2 : E = 2 * 2 ^ (- (e + 1))).
           { unfold E. replace (- e) with (Z.succ (- (e + 1))) by lia.
             rewrite Z.pow_succ_r by lia. reflexivity. }
           rewrite HE2 in Hlow, Hhigh. rewrite Em in Hlow, Hhigh.
           change (2 ^ 53) with (2 * 2 ^ 52) in Hlow, Hhigh. lia.
      * replace (971 <? e) with false by (symmetry; apply Z.ltb_ge; lia).
        unfold py_ceil.
        replace (0 <=? e) with false by (symmetry; apply Z.leb_gt; lia).
        f_equal. fold c. apply ceiling_unique; [exact HE|]. fold E. lia.
Qed.

Lemma digit_val_bounds c : is_digit c = true -> 0 <= digit_val c <= 9.
Proof.
  unfold is_digit, digit_val. intros H. apply andb_prop in H.
  destruct H as [H1 H2]. apply Nat.leb_le in H1, H2. lia.
Qed.

Lemma fold_digits_acc : forall s acc,
    fold_left (fun a c => 10 * a + digit_val c) s acc
    = acc * 10 ^ Z.of_nat (List.length s) + digits_val s.
Proof.
  unfold digits_val.
  induction s as [|c s IH]; intros acc.
  - simpl. lia.
  - cbn [fold_left]. rewrite IH, (IH (10 * 0 + digit_val c)).
    cbn [List.length]. rewrite Nat2Z.inj_succ, Z.pow_succ_r by lia. lia.
Qed.

Lemma digits_val_app a b :
  digits_val (a ++ b)
  = digits_val a * 10 ^ Z.of_nat (List.length b) + digits_val b.
Proof.
  unfold digits_val at 1. rewrite fold_left_app.
  fold (digits_val a). apply fold_digits_acc.
Qed.

Lemma digits_val_bounds : forall s,
    forallb is_digit s = true ->
    0 <= digits_val s < 10 ^ Z.of_nat (List.length s).
Proof.
  induction s as [|c s IH] using rev_ind; intros H.
  - simpl. unfold digits_val. simpl. lia.
  - rewrite forallb_app in H. apply andb_prop in H. destruct H as [Hs Hc].
    simpl in Hc. rewrite andb_true_r in Hc.
    pose proof (digit_val_bounds _ Hc) as Hb. specialize (IH Hs).
    rewrite digits_val_app, length_app. cbn [List.length].
    replace (digits_val [c]) with (digit_val c)
      by (unfold digits_val; simpl; lia).
    replace (Z.of_nat (List.length s + 1)) with (Z.succ (Z.of_nat (List.length s)))
      by lia.
    rewrite Z.pow_succ_r by lia. change (10 ^ Z.of_nat 1) with 10. lia.
Qed.

(** The number of a numeral of at most 15 characters is a quotient
    within the reach of [ceil_of_short_ratio]. *)
Lemma short_numeral_ratio num :
  is_numeral num -> (List.length num <= 15)%nat ->
  0 <= fst (numeral_ratio num) < 2 ^ 53
  /\ 0 < snd (numeral_ratio num) < 2 ^ 1075.
Proof.
  intros Hnum Hlen.
  assert (P15 : forall k, (k <= 15)%nat -> 0 < 10 ^ Z.of_nat k <= 10 ^ 15).
  { intros k Hk. split; [apply Z.pow_pos_nonneg; lia|].
    apply Z.pow_le_mono_r; lia. }
  assert (B53 : 10 ^ 15 < 2 ^ 53) by reflexivity.
  assert (B1075 : 10 ^ 15 < 2 ^ 1075) by reflexivity.
  unfold numeral_ratio.
  destruct Hnum as [H|(ip & fp & -> & Hi & Hf)].
  - apply all_digits_iff in H. destruct H as [_ Hd].
    rewrite (split_dot_digits _ Hd). cbn [fst snd].
    pose proof (digits_val_bounds _ Hd) as Hb.
    pose proof (P15 _ Hlen). lia.
  - apply all_digits_iff in Hi, Hf.
    destruct Hi as [_ Hi], Hf as [_ Hf].
    rewrite (split_dot_fraction _ fp Hi). cbn [fst snd].
    rewrite length_app in Hlen. cbn [List.length] in Hlen.
    assert (Hd : forallb is_digit (ip ++ fp) = true)
      by (rewrite forallb_app, Hi, Hf; reflexivity).
    pose proof (digits_val_bounds _ Hd) as Hb.
    assert (Hl : (List.length (ip ++ fp) <= 15)%nat)
      by (rewrite length_app; lia).
    pose proof (P15 _ Hl).
    assert (Hl' : (List.length fp <= 15)%nat) by lia.
    pose proof (P15 _ Hl'). lia.
Qed.

(** What line 86 makes of a numeral: the ceiling of the binary64 number
    that [float] gives, or nothing when that is infinity; for a numeral
    of at most 15 characters, the ceiling of the number that the
    numeral denotes. *)
Lemma seconds_of_numeral num :
  is_numeral num ->
  (exists x, py_float_of_text num = Some x
             /\ seconds_of_text num = py_ceil x
             /\ match x with
                | FFinite m e =>
                    exists c, py_ceil x = Some c /\ is_ceiling m e c
                | FInf => py_ceil x = None
                end)
  /\ ((List.length num <= 15)%nat ->
      exists c, seconds_of_text num = Some c
                /\ (c - 1) * snd (numeral_ratio num)
                   < fst (numeral_ratio num)
                   <= c * snd (numeral_ratio num)).
Proof.
  intros Hnum. pose proof (py_float_of_numeral Hnum) as Hf.
  split.
  - eexists. split; [exact Hf|]. unfold seconds_of_text. rewrite Hf.
    split; [reflexivity|].
    destruct (binary64_of_ratio _ _) as [m e|];
      [apply py_ceil_finite|reflexivity].
  - intros Hlen.
    destruct (short_numeral_ratio Hnum Hlen) as [Hn Hd].
    unfold seconds_of_text. rewrite Hf.
    rewrite (ceil_of_short_ratio Hn Hd).
    eexists. split; [reflexivity|].
    set (n := fst (numeral_ratio num)) in *.
    set (d := snd (numeral_ratio num)) in *.
    pose proof (Z.div_mod (- n) d ltac:(lia)) as Hdm.
    pose proof (Z.mod_pos_bound (- n) d ltac:(lia)) as Hb. nia.
Qed.
Close Scope Z_scope.

(** ** The delay is not negative, and [str] writes it in decimal *)

Open Scope Z_scope.

Lemma round_half_even_nonneg a b :
  0 <= a -> 0 < b -> 0 <= round_half_even a b.
Proof.
  intros Ha Hb. unfold round_half_even.
  pose proof (Z.div_pos a b Ha Hb) as Hq.
  destruct (_ <? _); [exact Hq|].
  destruct (_ <? _); [lia|]. destruct (Z.even _); lia.
Qed.

Lemma binary64_nonneg n d :
  0 <= n -> 0 < d ->
  match binary64_of_ratio n d with
  | FFinite m _ => 0 <= m
  | FInf => True
  end.
Proof.
  intros Hn Hd. unfold binary64_of_ratio.
  destruct (n =? 0); [lia|].
  set (e := Z.max _ (-1074)).
  destruct (971 <? _); [exact I|].
  assert (Hp : forall k, 0 < 2 ^ Z.max 0 k)
    by (intros k; apply Z.pow_pos_nonneg; lia).
  assert (Hm : 0 <= round_half_even (fst (scaled n d e)) (snd (scaled n d e))).
  { unfold scaled. cbn [fst snd]. apply round_half_even_nonneg.
    - pose proof (Hp (- e)). nia.
    - pose proof (Hp e). nia. }
  destruct (_ =? 2 ^ 53); [discriminate|exact Hm].
Qed.

Lemma py_ceil_nonneg m e c :
  0 <= m -> py_ceil (FFinite m e) = Some c -> 0 <= c.
Proof.
  intros Hm H. destruct (@py_ceil_finite m e) as (c' & E & Hc).
  rewrite E in H. inversion H; subst c'. unfold is_ceiling in Hc.
  destruct (0 <=? e) eqn:Ee.
  - apply Z.leb_le in Ee. subst c.
    assert (0 < 2 ^ e) by (apply Z.pow_pos_nonneg; lia). nia.
  - apply Z.leb_gt in Ee.
    assert (0 < 2 ^ (- e)) by (apply Z.pow_pos_nonneg; lia). nia.
Qed.

Lemma seconds_of_text_nonneg g c : seconds_of_text g = Some c -> 0 <= c.
Proof.
  unfold seconds_of_text, py_float_of_text.
  destruct (split_dot g) as [ip [fp|]].
  - destruct (all_digits ip && all_digits fp) eqn:E; [|discriminate].
    apply andb_prop in E. destruct E as [Hi Hf].
    apply all_digits_iff in Hi, Hf.
    destruct Hi as [_ Hi], Hf as [_ Hf].
    assert (Hd : forallb is_digit (ip ++ fp) = true)
      by (rewrite forallb_app, Hi, Hf; reflexivity).
    pose proof (digits_val_bounds _ Hd) as [Hn _].
    assert (Hp : 0 < 10 ^ Z.of_nat (List.length fp))
      by (apply Z.pow_pos_nonneg; lia).
    pose proof (binary64_nonneg Hn Hp) as Hb.
    destruct (binary64_of_ratio _ _) as [m e|]; [|discriminate].
    apply py_ceil_nonneg. exact Hb.
  - destruct (all_digits ip) eqn:E; [|discriminate].
    apply all_digits_iff in E. destruct E as [_ Hi].
    pose proof (digits_val_bounds _ Hi) as [Hn _].
    pose proof (@binary64_nonneg (digits_val ip) 1 Hn ltac:(lia)) as Hb.
    destruct (binary64_of_ratio _ _) as [m e|]; [|discriminate].
    apply py_ceil_nonneg. exact Hb.
Qed.

(** The delay that the classifier extracts is never negative. *)
Lemma retry_after_nonneg err_msg n : retry_after_of err_msg = Some n -> 0 <= n.
Proof.
  unfold retry_after_of.
  destruct (re_search true pat_please_retry err_msg) as [m|].
  - apply seconds_of_text_nonneg.
  - destruct (re_search false pat_retry_delay err_msg) as [m|];
      [apply seconds_of_text_nonneg|discriminate].
Qed.

Lemma fold_string_of_uint : forall d acc,
    fold_left (fun a c => 10 * a + digit_val c)
              (T (NilEmpty.string_of_uint d)) acc
    = uint_val d acc.
Proof.
  induction d; intros acc; cbn [NilEmpty.string_of_uint T
                                list_ascii_of_string fold_left uint_val];
    [reflexivity|..]; fold (T (NilEmpty.string_of_uint d)); rewrite IHd;
    f_equal; unfold digit_val; simpl; lia.
Qed.

Lemma of_uint_acc_val : forall d acc,
    Z.pos (Pos.of_uint_acc d acc) = uint_val d (Z.pos acc).
Proof.
  induction d; intros acc; cbn [Pos.of_uint_acc uint_val];
    [reflexivity|..]; rewrite IHd; f_equal; lia.
Qed.

Lemma of_uint_val : forall d, Z.of_N (Pos.of_uint d) = uint_val d 0.
Proof.
  induction d; cbn [Pos.of_uint uint_val]; [reflexivity|exact IHd|..];
    cbn [Z.of_N]; rewrite of_uint_acc_val; reflexivity.
Qed.

(** [str] of an int that is not negative is a run of digits that
    denotes the int. *)
Lemma str_of_int_denotes n : 0 <= n -> digits_val (str_of_int n) = n.
Proof.
  intros Hn. destruct n as [|p|p]; [reflexivity| |lia].
  unfold str_of_int, digits_val. cbn [Z.to_int NilZero.string_of_int].
  unfold NilZero.string_of_uint.
  destruct (Pos.to_uint p) eqn:E;
    [exfalso; exact (Unsigned.to_uint_nonnil p E)|..];
    rewrite <- E, fold_string_of_uint, <- of_uint_val, Unsigned.of_to;
    reflexivity.
Qed.
Close Scope Z_scope.

(** ** The binary64 number of a quotient is the nearest one *)

Open Scope Z_scope.

Lemma scaled_eq n d e : scaled n d e = (n * scale_up e, d * scale_down e).
Proof. reflexivity. Qed.

Lemma scale_cases e :
  (0 <= e /\ scale_up e = 1 /\ scale_down e = 2 ^ e)
  \/ (e < 0 /\ scale_up e = 2 ^ (- e) /\ scale_down e = 1).
Proof.
  unfold scale_up, scale_down. destruct (Z_lt_le_dec e 0) as [H|H].
  - right. rewrite Z.max_r, Z.max_l by lia. auto.
  - left. rewrite Z.max_l, Z.max_r by lia. auto.
Qed.

Lemma scale_up_pos e : 0 < scale_up e.
Proof. unfold scale_up. apply Z.pow_pos_nonneg; lia. Qed.

Lemma scale_down_pos e : 0 < scale_down e.
Proof. unfold scale_down. apply Z.pow_pos_nonneg; lia. Qed.

(** One exponent more halves the scaled quotient. *)
Lemma scale_succ e :
  scale_up e * scale_down (e + 1) = 2 * scale_up (e + 1) * scale_down e.
Proof.
  destruct (scale_cases e) as [(H & -> & ->)|(H & -> & ->)];
    destruct (scale_cases (e + 1)) as [(H' & -> & ->)|(H' & -> & ->)];
    try lia.
  - rewrite Z.pow_add_r by lia. change (2 ^ 1) with 2. lia.
  - assert (e = -1) by lia. subst e. reflexivity.
  - replace (- e) with (Z.succ (- (e + 1))) by lia.
    rewrite Z.pow_succ_r by lia. lia.
Qed.

(** [k] exponents more divide the scaled quotient by [2^k]. *)
Lemma scale_shift e k :
  0 <= k ->
  scale_up e * scale_down (e + k)
  = 2 ^ k * scale_up (e + k) * scale_down e.
Proof.
  intros Hk. pattern k. apply natlike_ind; [| |exact Hk].
  - rewrite Z.add_0_r. change (2 ^ 0) with 1. lia.
  - intros j Hj IH. rewrite Z.pow_succ_r by lia.
    replace (e + Z.succ j) with (e + j + 1) by lia.
    pose proof (scale_succ (e + j)) as Hs.
    pose proof (scale_up_pos (e + j)). pose proof (scale_down_pos (e + j)).
    pose proof (scale_up_pos e). pose proof (scale_down_pos e).
    assert (E : (scale_up e * scale_down (e + j + 1)) * scale_up (e + j)
                = (2 * 2 ^ j * scale_up (e + j + 1) * scale_down e)
                  * scale_up (e + j)).
    { transitivity (scale_up e * (scale_up (e + j) * scale_down (e + j + 1)));
        [ring|].
      rewrite Hs.
      transitivity (2 * scale_up (e + j + 1)
                    * (scale_up e * scale_down (e + j))); [ring|].
      rewrite IH. ring. }
    apply Z.mul_reg_r in E; [exact E|lia].
Qed.

(** The first exponent tried puts the scaled quotient between [2^51]
    and [2^53]. *)
Lemma first_exponent_bracket n d :
  0 < n -> 0 < d ->
  let e1 := Z.log2 n - Z.log2 d - 52 in
  2 ^ 51 * (d * scale_down e1) < n * scale_up e1
  /\ n * scale_up e1 < 2 ^ 53 * (d * scale_down e1).
Proof.
  intros Hn Hd e1.
  pose proof (Z.log2_spec n Hn) as [Ln1 Ln2].
  pose proof (Z.log2_spec d Hd) as [Ld1 Ld2].
  pose proof (Z.log2_nonneg n) as Ln0. pose proof (Z.log2_nonneg d) as Ld0.
  rewrite Z.pow_succ_r in Ln2, Ld2 by lia.
  set (A := 2 ^ Z.log2 n) in *. set (B := 2 ^ Z.log2 d) in *.
  assert (HB : 0 < B) by (apply Z.pow_pos_nonneg; lia).
  destruct (scale_cases e1) as [(H & -> & ->)|(H & -> & ->)].
  - assert (E : A = 2 ^ e1 * (2 ^ 52 * B)).
    { unfold A, B. rewrite <- !Z.pow_add_r by lia. f_equal. unfold e1. lia. }
    assert (0 < 2 ^ e1) by (apply Z.pow_pos_nonneg; lia).
    change (2 ^ 53) with (2 * 2 ^ 52). change (2 ^ 52) with (2 * 2 ^ 51) in E.
    nia.
  - assert (E : A * 2 ^ (- e1) = 2 ^ 52 * B).
    { unfold A, B. rewrite <- !Z.pow_add_r by lia. f_equal. unfold e1. lia. }
    assert (0 < 2 ^ (- e1)) by (apply Z.pow_pos_nonneg; lia).
    change (2 ^ 53) with (2 * 2 ^ 52). change (2 ^ 52) with (2 * 2 ^ 51) in E.
    nia.
Qed.

(** The exponent chosen puts the scaled quotient between [2^52] and
    [2^53]. *)
Lemma exponent_bracket n d :
  0 < n -> 0 < d ->
  let e1 := Z.log2 n - Z.log2 d - 52 in
  let e2 := if fst (scaled n d e1) / snd (scaled n d e1) <? 2 ^ 52
            then e1 - 1 else e1 in
  2 ^ 52 * (d * scale_down e2) <= n * scale_up e2
  /\ n * scale_up e2 < 2 ^ 53 * (d * scale_down e2).
Proof.
  intros Hn Hd e1 e2.
  destruct (first_exponent_bracket Hn Hd) as [Hlo Hhi]. fold e1 in Hlo, Hhi.
  pose proof (scale_up_pos e1) as Hu1. pose proof (scale_down_pos e1) as Hd1.
  assert (Hb1 : 0 < d * scale_down e1) by nia.
  unfold e2. rewrite scaled_eq. cbn [fst snd].
  destruct (Z_lt_le_dec (n * scale_up e1) (2 ^ 52 * (d * scale_down e1)))
    as [Hlt|Hge].
  - replace (n * scale_up e1 / (d * scale_down e1) <? 2 ^ 52) with true.
    + pose proof (scale_succ (e1 - 1)) as Hs.
      replace (e1 - 1 + 1) with e1 in Hs by lia.
      pose proof (scale_up_pos (e1 - 1)). pose proof (scale_down_pos (e1 - 1)).
      set (U := scale_up e1) in *. set (D := scale_down e1) in *.
      set (U' := scale_up (e1 - 1)) in *. set (D' := scale_down (e1 - 1)) in *.
      change (2 ^ 53) with (2 * 2 ^ 52) in *.
      change (2 ^ 52) with (2 * 2 ^ 51).
      assert (Ea : n * U' * D = 2 * (n * U) * D') by nia.
      split.
      * apply Z.mul_le_mono_pos_r with (p := D); [lia|]. nia.
      * apply Z.mul_lt_mono_pos_r with (p := D); [lia|]. nia.
    + symmetry. apply Z.ltb_lt. apply Z.div_lt_upper_bound; lia.
  - replace (n * scale_up e1 / (d * scale_down e1) <? 2 ^ 52) with false.
    + split; [exact Hge|exact Hhi].
    + symmetry. apply Z.ltb_ge. apply Z.div_le_lower_bound; lia.
Qed.

(** When the quotient is half way between two integers, rounding gives
    the even one. *)
Lemma round_half_even_tie a b :
  0 < b ->
  2 * a - 2 * round_half_even a b * b = b
  \/ 2 * a - 2 * round_half_even a b * b = - b ->
  Z.even (round_half_even a b) = true.
Proof.
  intros Hb. unfold round_half_even.
  pose proof (Z.div_mod a b ltac:(lia)) as Hdm.
  pose proof (Z.mod_pos_bound a b Hb) as Hr.
  destruct (2 * (a mod b) <? b) eqn:E1.
  - apply Z.ltb_lt in E1. nia.
  - apply Z.ltb_ge in E1. destruct (b <? 2 * (a mod b)) eqn:E2.
    + apply Z.ltb_lt in E2. nia.
    + destruct (Z.even (a / b)) eqn:Ev; [intros _; exact Ev|].
      intros _. rewrite Z.even_add, Ev. reflexivity.
Qed.

Lemma pow2_le a b : 0 <= a <= b -> 2 ^ a <= 2 ^ b.
Proof. intros H. apply Z.pow_le_mono_r; lia. Qed.

Theorem binary64_of_ratio_near n d :
  0 <= n -> 0 < d -> near_binary64 n d (binary64_of_ratio n d).
Proof.
  intros Hn Hd. unfold binary64_of_ratio.
  destruct (n =? 0) eqn:En.
  - apply Z.eqb_eq in En. subst n. cbn [near_binary64].
    pose proof (scale_down_pos 0).
    repeat split; (lia || (intros _; reflexivity)).
  - apply Z.eqb_neq in En. assert (Hn0 : 0 < n) by lia.
    pose proof (exponent_bracket Hn0 Hd) as Hbr. cbv zeta in Hbr.
    set (e1 := Z.log2 n - Z.log2 d - 52) in *.
    set (e2 := if fst (scaled n d e1) / snd (scaled n d e1) <? 2 ^ 52
               then e1 - 1 else e1) in *.
    set (e := Z.max e2 (-1074)).
    destruct Hbr as [Hlo2 Hhi2].
    rewrite scaled_eq. cbn [fst snd].
    pose proof (scale_up_pos e) as HU. pose proof (scale_down_pos e) as HD.
    pose proof (scale_up_pos e2) as HU2.
    pose proof (scale_down_pos e2) as HD2.
    set (a := n * scale_up e). set (b := d * scale_down e).
    assert (Hb : 0 < b) by (unfold b; nia).
    assert (Ha : 0 <= a) by (unfold a; nia).
    (* the scaled quotient at [e] against the one at [e2] *)
    assert (Hk : 0 <= e - e2) by (unfold e; lia).
    pose proof (scale_shift e2 Hk) as Hs.
    replace (e2 + (e - e2)) with e in Hs by lia.
    assert (Hpk : 1 <= 2 ^ (e - e2))
      by (change 1 with (2 ^ 0); apply pow2_le; lia).
    assert (Hhi : a < 2 ^ 53 * b).
    { unfold a, b.
      apply Z.mul_lt_mono_pos_r with (p := scale_up e2 * scale_down e2);
        [nia|].
      set (K := 2 ^ (e - e2)) in *. set (U := scale_up e) in *.
      set (D := scale_down e) in *. set (U2 := scale_up e2) in *.
      set (D2 := scale_down e2) in *.
      assert (E : n * U * (U2 * D2) * K = (n * U2) * (U * D2 * K)) by ring.
      assert (E' : U * D2 * K = U2 * D) by lia.
      assert (H1 : n * U * (U2 * D2) * K < 2 ^ 53 * (d * D) * (U2 * D2) * 1).
      { rewrite E, E'.
        assert (n * U2 * (U2 * D) < 2 ^ 53 * (d * D2) * (U2 * D)).
        { apply Z.mul_lt_mono_pos_r; [nia|exact Hhi2]. }
        lia. }
      assert (0 <= n * U * (U2 * D2)) by nia.
      nia. }
    assert (Hlo : e = e2 -> 2 ^ 52 * b <= a).
    { intros E. unfold a, b. rewrite E. exact Hlo2. }
    set (m := round_half_even a b).
    pose proof (round_half_even_error a Hb) as Herr. fold m in Herr.
    pose proof (round_half_even_nonneg Ha Hb) as Hm0. fold m in Hm0.
    pose proof (@round_half_even_tie a b Hb) as Htie. fold m in Htie.
    assert (Hm53 : m <= 2 ^ 53) by nia.
    assert (Hm52 : e = e2 -> 2 ^ 52 <= m).
    { intros E. specialize (Hlo E).
      change (2 ^ 52) with (2 * 2 ^ 51) in *. nia. }
    destruct (m =? 2 ^ 53) eqn:Em.
    + apply Z.eqb_eq in Em.
      destruct (971 <? e + 1) eqn:Eo; cbn [near_binary64].
      * apply Z.ltb_lt in Eo.
        destruct (scale_cases e) as [(H & EU & ED)|(H & _ & _)]; [|lia].
        unfold a, b in Herr. rewrite EU, ED, Em in Herr.
        assert (2 ^ 971 <= 2 ^ e) by (apply pow2_le; lia).
        change (2 ^ 971) with (2 * 2 ^ 970) in *.
        change (2 ^ 54) with (2 * 2 ^ 53). nia.
      * apply Z.ltb_ge in Eo.
        pose proof (scale_succ e) as Hs1.
        pose proof (scale_up_pos (e + 1)) as HU1.
        pose proof (scale_down_pos (e + 1)) as HD1.
        assert (He : -1074 <= e) by (unfold e; lia).
        split; [split; [lia|reflexivity]|]. split; [lia|].
        split; [right; left; lia|].
        assert (Hq : 2 * (2 * (n * scale_up (e + 1))
                          - 2 * 2 ^ 52 * (d * scale_down (e + 1)))
                         * scale_down e
                     = (2 * a - 2 * m * b) * scale_down (e + 1)).
        { unfold a, b. rewrite Em. change (2 ^ 53) with (2 * 2 ^ 52).
          set (U := scale_up e) in *. set (D := scale_down e) in *.
          set (U1 := scale_up (e + 1)) in *.
          set (D1 := scale_down (e + 1)) in *.
          transitivity (2 * n * (2 * U1 * D) - 4 * 2 ^ 52 * d * D1 * D);
            [ring|]. rewrite <- Hs1. ring. }
        split; [|intros _; reflexivity].
        set (X := 2 * (n * scale_up (e + 1))
                  - 2 * 2 ^ 52 * (d * scale_down (e + 1))) in *.
        set (D := scale_down e) in *. set (D1 := scale_down (e + 1)) in *.
        fold b in Herr.
        assert (Hbd : b = d * D) by reflexivity.
        split.
        -- assert (- (d * D1) * (2 * D) <= X * (2 * D)) by nia. nia.
        -- assert (X * (2 * D) <= (d * D1) * (2 * D)) by nia. nia.
    + apply Z.eqb_neq in Em.
      destruct (971 <? e) eqn:Eo; cbn [near_binary64].
      * apply Z.ltb_lt in Eo.
        assert (E2 : e = e2) by (unfold e in *; lia).
        specialize (Hlo E2).
        destruct (scale_cases e) as [(H & EU & ED)|(H & _ & _)]; [|lia].
        unfold a, b in Hlo. rewrite EU, ED in Hlo.
        assert (2 ^ 972 <= 2 ^ e) by (apply pow2_le; lia).
        change (2 ^ 972) with (4 * 2 ^ 970) in *.
        change (2 ^ 54) with (4 * 2 ^ 52). nia.
      * apply Z.ltb_ge in Eo.
        assert (He : -1074 <= e) by (unfold e; lia).
        split; [lia|]. split; [lia|]. split.
        -- destruct (Z.eq_dec e e2) as [E2|E2];
             [right; left; exact (Hm52 E2)|right; right; unfold e in *; lia].
        -- fold a b. split; [lia|]. intros [H|H]; apply Htie; lia.
Qed.
Close Scope Z_scope.

(** On a numeral [float] gives a binary64 number within half a unit in
    the last place of the number that the numeral denotes. *)
Lemma numeral_float_near num :
  is_numeral num ->
  exists x, py_float_of_text num = Some x
            /\ near_binary64 (fst (numeral_ratio num))
                             (snd (numeral_ratio num)) x.
Proof.
  intros Hnum. eexists. split; [exact (py_float_of_numeral Hnum)|].
  assert (H : (0 <= fst (numeral_ratio num))%Z
              /\ (0 < snd (numeral_ratio num))%Z).
  { unfold numeral_ratio.
    destruct Hnum as [H|(ip & fp & -> & Hi & Hf)].
    - apply all_digits_iff in H. destruct H as [_ Hd].
      rewrite (split_dot_digits _ Hd). cbn [fst snd].
      pose proof (digits_val_bounds _ Hd). lia.
    - apply all_digits_iff in Hi, Hf.
      destruct Hi as [_ Hi], Hf as [_ Hf].
      rewrite (split_dot_fraction _ fp Hi). cbn [fst snd].
      assert (Hd : forallb is_digit (ip ++ fp) = true)
        by (rewrite forallb_app, Hi, Hf; reflexivity).
      pose proof (digits_val_bounds _ Hd). split; [lia|].
      apply Z.pow_pos_nonneg; lia. }
  destruct H as [Hn Hd]. apply binary64_of_ratio_near; assumption.
Qed.

(** ** The classifier (C1, C2) *)

Lemma match_at_start ic r ma i s m :
  match_at ic r ma i s = Some m -> m_start m = i.
Proof.
  unfold match_at. intros H. apply rmatch_sound in H.
  destruct H as (s1 & s2 & g' & _ & _ & H).
  destruct (ma && _); [discriminate|]. inversion H. reflexivity.
Qed.

Lemma search_from_least ic r : forall s i m,
    search_from ic r i s = Some m ->
    exists pre s',
      s = pre ++ s'
      /\ match_at ic r false (i + List.length pre) s' = Some m
      /\ forall p1 p2, pre = p1 ++ p2 -> p2 <> [] ->
                       match_at ic r false (i + List.length p1) (p2 ++ s')
                       = None.
Proof.
  induction s as [|c s IH]; intros i m H; simpl in H.
  - destruct (match_at ic r false i []) eqn:E; [|discriminate].
    inversion H; subst. exists [], []. simpl. rewrite Nat.add_0_r.
    split; [reflexivity|]. split; [exact E|].
    intros p1 p2 E' Hne. destruct p1; destruct p2; try discriminate.
    congruence.
  - destruct (match_at ic r false i (c :: s)) eqn:E.
    + inversion H; subst. exists [], (c :: s). simpl.
      rewrite Nat.add_0_r. split; [reflexivity|]. split; [exact E|].
      intros p1 p2 E' Hne. destruct p1; destruct p2; try discriminate.
      congruence.
    + apply IH in H. destruct H as (pre & s' & -> & H & Hno).
      exists (c :: pre), s'. simpl. rewrite Nat.add_succ_r.
      split; [reflexivity|]. split; [exact H|].
      intros [|x p1] p2 E' Hne; simpl in E'.
      * subst p2. simpl. rewrite Nat.add_0_r. exact E.
      * inversion E'; subst. simpl. rewrite Nat.add_succ_r.
        apply Hno; auto.
Qed.

(** A successful search is at the first occurrence. *)
Lemma search_some_first_at ic r (here : text -> text -> Prop) msg m :
  (forall i s m, match_at ic r false i s = Some m ->
                 exists num, here s num /\ m_group1 m = Some num) ->
  (forall i s num, here s num -> match_at ic r false i s <> None) ->
  re_search ic r msg = Some m ->
  exists num, m_group1 m = Some num /\ first_at here msg (m_start m) num.
Proof.
  intros Hsound Hcomplete Hs. unfold re_search in Hs.
  apply search_from_least in Hs. destruct Hs as (pre & s & -> & Hm & Hno).
  destruct (Hsound _ _ _ Hm) as (num & Hhere & Hg).
  apply match_at_start in Hm. simpl in Hm.
  exists num. split; [exact Hg|]. split.
  - exists pre, s. auto.
  - intros n' num' Hlt (pre' & s' & E & Hn' & H').
    assert (Hsplit : exists p2, pre = pre' ++ p2 /\ p2 <> [] /\ s' = p2 ++ s).
    { apply app_eq_app in E. destruct E as (l & [[-> ->]|[-> ->]]).
      - exists l. split; [reflexivity|]. split; [|reflexivity].
        intros ->. rewrite app_nil_r in Hm. lia.
      - rewrite length_app in Hn'. lia. }
    destruct Hsplit as (p2 & -> & Hne & ->).
    apply (Hcomplete (0 + List.length pre') _ _ H').
    apply Hno; auto.
Qed.

(** C1, as it holds.  In "Rate limit: Please retry in 12.4s" the first
    retry pattern occurs (at index 12, with the numeral 12.4) and the
    delay extracted from it is 13, the ceiling of 12.4; but the message
    has neither "quota" nor "429", so the classifier reports no rate
    limit and no delay, and the handler answers 500.  With a marker in
    front ("429 ") the classifier reports a rate limit with the delay
    13 and the handler answers 429 with Retry-After 13. *)
Theorem C1_please_retry_message :
  first_at please_retry_here rate_limit_message 12 (T "12.4")
  /\ retry_after_of rate_limit_message = Some 13%Z
  /\ classify rate_limit_message = (false, None)
  /\ error_response rate_limit_message
     = MkResponse 500 [] (error_dict rate_limit_message)
  /\ classify (T "429 " ++ rate_limit_message) = (true, Some 13%Z)
  /\ error_response (T "429 " ++ rate_limit_message)
     = MkResponse 429 [(T "Retry-After", T "13")]
                  (JDict [(T "error", JStr (T "429 " ++ rate_limit_message));
                          (T "retry_after", JInt 13)]).
Proof.
  split; [|repeat split; vm_compute; reflexivity].
  destruct (@search_some_first_at true pat_please_retry please_retry_here
              rate_limit_message
              (MkMatch 12 33 (Some (T "12.4")))
              please_retry_match_inv please_retry_match_some)
    as (num & Hg & Hfirst); [vm_compute; reflexivity|].
  cbn [m_group1 m_start] in Hg, Hfirst. inversion Hg. subst num.
  exact Hfirst.
Qed.

(** The claim C1 fails on the code: for its message the classifier does
    not report a rate limit with a delay of 13. *)
Lemma C1_counterexample :
  classify rate_limit_message <> (true, Some 13%Z)
  /\ status (error_response rate_limit_message) = 500.
Proof. split; [vm_compute; discriminate|reflexivity]. Qed.

(** C2, as it holds.  For a message that the classifier takes as a rate
    limit, the delay is taken from the first occurrence of "Please retry
    in <number>s" (in any case) when there is one; only without one, from
    an occurrence of "retry_delay { ... seconds: <digits>" at the first
    index where that occurs, with all the digits of that number; and
    there is no delay when neither occurs.  The delay taken from a
    numeral is the ceiling of the binary64 number that [float] gives for
    it (a number within half a unit in the last place of the one that
    the numeral denotes), and there is none when that number is
    infinity; for a numeral of at most 15 characters it is the ceiling
    of the number that the numeral denotes.  When the first pattern is
    absent and the first "retry_delay" of the message is the one of
    "retry_delay { seconds: 7 }", the delay is 7. *)
Theorem C2_retry_after_extraction (err_msg : text) :
  is_rate_limited err_msg = true ->
  fst (classify err_msg) = true
  /\ (forall n num,
         first_at please_retry_here err_msg n num ->
         snd (classify err_msg) = seconds_of_text num)
  /\ (forall n,
         absent please_retry_here err_msg ->
         (exists num, retry_delay_at err_msg n num) ->
         (forall n' num', n' < n -> ~ retry_delay_at err_msg n' num') ->
         exists num, retry_delay_at err_msg n num
                     /\ snd (classify err_msg) = seconds_of_text num)
  /\ (absent please_retry_here err_msg ->
      absent retry_delay_here err_msg ->
      snd (classify err_msg) = None)
  /\ (forall num,
         is_numeral num ->
         (exists x, py_float_of_text num = Some x
                    /\ near_binary64 (fst (numeral_ratio num))
                                     (snd (numeral_ratio num)) x
                    /\ seconds_of_text num = py_ceil x
                    /\ match x with
                       | FFinite m e =>
                           exists c, py_ceil x = Some c /\ is_ceiling m e c
                       | FInf => py_ceil x = None
                       end)
         /\ (List.length num <= 15 ->
             exists c, seconds_of_text num = Some c
                       /\ ((c - 1) * snd (numeral_ratio num)
                           < fst (numeral_ratio num)
                           <= c * snd (numeral_ratio num))%Z))
  /\ (forall pre post,
         err_msg = pre ++ T "retry_delay { seconds: 7 }" ++ post ->
         absent please_retry_here err_msg ->
         contains (T "retry_delay") (pre ++ T "retry_dela") = false ->
         classify err_msg = (true, Some 7%Z)).
Proof.
  intros Hrl. unfold classify. rewrite Hrl. cbn [fst snd].
  split; [reflexivity|].
  split; [intros n num H; exact (retry_after_first_pattern H)|].
  split; [intros n; apply retry_after_second_pattern|].
  split; [apply retry_after_no_pattern|].
  split.
  { intros num Hnum.
    destruct (seconds_of_numeral Hnum) as [(x & Hx & Hs & Hc) Hshort].
    split; [|exact Hshort].
    destruct (numeral_float_near Hnum) as (x' & Hx' & Hnear).
    rewrite Hx in Hx'. inversion Hx'; subst x'.
    exists x. auto. }
  intros pre post -> Habs Hfirst.
  rewrite retry_after_seven by assumption. reflexivity.
Qed.

(** C2 on messages with a marker: the delay of "retry_delay { seconds:
    7 }" alone, and the delay of the first pattern. *)
Lemma C2_retry_after_witness :
  classify (T "quota: retry_delay { seconds: 7 } ...") = (true, Some 7%Z)
  /\ snd (classify quota_message) = seconds_of_text (T "12.4").
Proof.
  split.
  - refine (proj2 (proj2 (proj2 (proj2 (proj2
              (@C2_retry_after_extraction
                 (T "quota: retry_delay { seconds: 7 } ...") _)))))
              (T "quota: ") (T " ...") _ _ _).
    + reflexivity.
    + reflexivity.
    + apply (@search_none_absent true pat_please_retry);
        [exact please_retry_match_some|vm_compute; reflexivity].
    + reflexivity.
  - refine (proj1 (proj2 (@C2_retry_after_extraction quota_message _))
              37 (T "12.4") _).
    + reflexivity.
    + destruct (@search_some_first_at true pat_please_retry
                  please_retry_here quota_message
                  (MkMatch 37 58 (Some (T "12.4")))
                  please_retry_match_inv please_retry_match_some)
        as (num & Hg & Hfirst); [vm_compute; reflexivity|].
      cbn [m_group1 m_start] in Hg, Hfirst. inversion Hg. subst num.
  exact Hfirst.
Defined.

(** The claim C2 fails on the code: its example message, taken as it is
    written, is not a rate-limit message and gets no delay; a rate-limit
    message with "retry_delay { seconds: 7 }" gets the delay of the
    first pattern when that one occurs too; and a match of the first
    pattern gives no delay at all when its numeral is beyond the
    binary64 numbers. *)
Lemma C2_counterexample :
  classify retry_delay_message = (false, None)
  /\ classify both_patterns_message = (true, Some 3%Z)
  /\ (is_rate_limited huge_delay_message = true
      /\ re_search true pat_please_retry huge_delay_message
         = Some (MkMatch 4 331 (Some (repeat "9"%char 310)))
      /\ classify huge_delay_message = (true, None)).
Proof. repeat split; vm_compute; reflexivity. Qed.

(** ** The request handler (C7, C8, C9, C10) *)

Section ServiceFacts.
Variable py_repr : json -> text.
Variable json_loads : text -> loads_result.
Variable json_dumps : json -> text.
Variable generate_content : text -> res text_attr.
Variable files : Type.
Variable write_file : files -> text -> text -> res files.
Variable store : Type.
Variable db_insert : store -> json -> text -> res store.

Local Abbreviation world := (world files store).
Local Abbreviation generate_plan :=
  (generate_plan py_repr json_loads generate_content write_file).
Local Abbreviation normalize := (normalize json_loads write_file).
Local Abbreviation create_plan_endpoint :=
  (create_plan_endpoint py_repr json_loads json_dumps generate_content
                        write_file db_insert).
Local Abbreviation save_plan := (save_plan json_dumps db_insert).
Local Abbreviation py_str := (py_str py_repr).
Local Abbreviation prompt_for := (prompt_for py_repr).

(** Past the checks of the request, the handler is what follows the
    call of [generate_plan]. *)
Lemma endpoint_with_goal (w : world) req goal :
  request_with_goal req goal ->
  create_plan_endpoint w req =
  let '(plan, w1) := generate_plan w goal in
  match py_in (T "error") plan with
  | Raise e => (Unhandled e, w1)
  | Ret true =>
      match py_get plan (T "error") (JStr []) with
      | Raise e => (Unhandled e, w1)
      | Ret v => (Responds (error_response (py_str v)), w1)
      end
  | Ret false =>
      (Responds (MkResponse 200 [] plan), save_plan w1 plan)
  end.
Proof.
  intros (Hj & data & Hd & Hg & Ht).
  unfold create_plan_endpoint.
  rewrite Hj, Hd, Hg, Ht. reflexivity.
Qed.

(** An error dict makes the handler answer with [error_response]. *)
Lemma endpoint_error_dict (w w1 : world) req goal d :
  request_with_goal req goal ->
  generate_plan w goal = (JDict d, w1) ->
  dict_mem (T "error") d = true ->
  create_plan_endpoint w req =
  (Responds (error_response
               (py_str (dict_get (T "error") d (JStr [])))), w1).
Proof.
  intros Hreq Hgen Hmem.
  rewrite (endpoint_with_goal w Hreq), Hgen.
  cbn [py_in py_get]. rewrite Hmem. reflexivity.
Qed.

(** C7.  When the error of the plan is a rate-limit message, the answer
    has status 429 and the message under "error"; when a delay was
    found it also has the delay under "retry_after" and, written in
    decimal, in the header Retry-After; when none was found it has
    neither. *)
Theorem C7_rate_limit_answer (w w1 : world) req goal d :
  request_with_goal req goal ->
  generate_plan w goal = (JDict d, w1) ->
  dict_mem (T "error") d = true ->
  let err_msg := py_str (dict_get (T "error") d (JStr [])) in
  is_rate_limited err_msg = true ->
  (forall n,
      retry_after_of err_msg = Some n ->
      create_plan_endpoint w req =
      (Responds (MkResponse 429 [(T "Retry-After", str_of_int n)]
                   (JDict [(T "error", JStr err_msg);
                           (T "retry_after", JInt n)])), w1)
      /\ digits_val (str_of_int n) = n)
  /\ (retry_after_of err_msg = None ->
      create_plan_endpoint w req =
      (Responds (MkResponse 429 [] (JDict [(T "error", JStr err_msg)])),
       w1)).
Proof.
  intros Hreq Hgen Hmem err_msg Hrl.
  rewrite (endpoint_error_dict w Hreq Hgen Hmem).
  fold err_msg. unfold error_response. rewrite Hrl.
  split; [intros n Hn|intros Hn]; rewrite Hn; [|reflexivity].
  split; [reflexivity|].
  apply str_of_int_denotes. exact (retry_after_nonneg _ Hn).
Qed.

(** C8.  When the call of the model raises, or reading the text of its
    response does, [generate_plan] returns the dict with the message of
    the exception under "error" and leaves the world as it was; the
    handler then answers with the response for that message. *)
Theorem C8_generation_exception_caught (w : world) goal e :
  ai_disabled w = false ->
  generate_content (prompt_for goal) = Raise e
  \/ (exists response, generate_content (prompt_for goal) = Ret response
                       /\ getattr_text response = Raise e) ->
  generate_plan w goal = (error_dict (exn_str e), w)
  /\ (forall req,
         request_with_goal req goal ->
         create_plan_endpoint w req =
         (Responds (error_response (exn_str e)), w)).
Proof.
  intros Hai Hraise.
  assert (Hgen : generate_plan w goal = (error_dict (exn_str e), w)).
  { unfold generate_plan. rewrite Hai.
    destruct Hraise as [H|(response & H & Ht)]; rewrite H;
      [|rewrite Ht]; reflexivity. }
  split; [exact Hgen|].
  intros req Hreq.
  rewrite (endpoint_error_dict w Hreq Hgen); reflexivity.
Qed.

(** C9.  For a plan without "error", the answer is 200 with the plan,
    whether the insert into the store works or raises; when it raises
    the store stays as it was. *)
Theorem C9_store_failure_swallowed (w w1 : world) req goal d :
  request_with_goal req goal ->
  generate_plan w goal = (JDict d, w1) ->
  dict_mem (T "error") d = false ->
  fst (create_plan_endpoint w req)
  = Responds (MkResponse 200 [] (JDict d))
  /\ (forall e,
         db_insert (w_store w1)
                   (dict_get (T "project_name") d
                             (JStr (T "Untitled Plan")))
                   (json_dumps (JDict d)) = Raise e ->
         create_plan_endpoint w req
         = (Responds (MkResponse 200 [] (JDict d)), w1)).
Proof.
  intros Hreq Hgen Hmem.
  rewrite (endpoint_with_goal w Hreq), Hgen.
  cbn [py_in]. rewrite Hmem. split; [reflexivity|].
  intros e He. unfold save_plan. cbn [py_get].
  rewrite He. reflexivity.
Qed.

(** C10.  When the reply of the model parses to a dict with the key
    "error", the handler answers 429 or 500 with [str] of the value of
    that key as the error message, and nothing is saved: the world is
    left as it was. *)
Theorem C10_parsed_error_key_is_failure (w : world) req goal
        response raw_text d :
  request_with_goal req goal ->
  ai_disabled w = false ->
  generate_content (prompt_for goal) = Ret response ->
  getattr_text response = Ret raw_text ->
  json_loads (json_candidate (clean_reply raw_text)) = Loaded (JDict d) ->
  dict_mem (T "error") d = true ->
  exists r,
    create_plan_endpoint w req = (Responds r, w)
    /\ (status r = 429 \/ status r = 500)
    /\ py_get (body r) (T "error") JNull
       = Ret (JStr (py_str (dict_get (T "error") d (JStr [])))).
Proof.
  intros Hreq Hai Hgc Hga Hload Hmem.
  assert (Hgen : generate_plan w goal = (JDict d, w)).
  { unfold generate_plan, normalize.
    rewrite Hai, Hgc, Hga, Hload. reflexivity. }
  rewrite (endpoint_error_dict w Hreq Hgen Hmem).
  eexists. split; [reflexivity|].
  unfold error_response, rate_limit_response.
  destruct (is_rate_limited _); [destruct (retry_after_of _)|];
    cbn; auto.
Qed.
Local Abbreviation save_raw_text := (save_raw_text write_file).

Lemma normalize_candidate (w : world) raw_text :
  fst (normalize w raw_text)
  = match json_loads (json_candidate (clean_reply raw_text)) with
    | Loaded plan => plan
    | JSONDecodeError _ => error_dict invalid_json_message
    | LoadsRaises e => error_dict (exn_str e)
    end.
Proof.
  unfold normalize. destruct (json_loads _); reflexivity.
Qed.

(** C3.  For an object between braces with white space around it, the
    text handed to the JSON parser is the same, the object itself,
    whether the reply is the bare text or the text in a json fence
    (with white space around the fence): the two replies give the same
    result, and the result is the parsed object whenever the parser
    accepts the object.  The fenced example of the specification gives
    the structure parsed from its object. *)
Theorem C3_fenced_object_same_as_bare (w : world) :
  (forall pre w1 body w2 post,
      forallb is_space pre = true -> forallb is_space post = true ->
      forallb is_space w1 = true -> forallb is_space w2 = true ->
      let J := w1 ++ lbrace :: body ++ rbrace :: w2 in
      let fenced :=
        pre ++ T "```json" ++ newline :: J ++ newline :: T "```" ++ post in
      json_candidate (clean_reply (Some fenced)) = lbrace :: body ++ [rbrace]
      /\ json_candidate (clean_reply (Some J)) = lbrace :: body ++ [rbrace]
      /\ fst (normalize w (Some fenced)) = fst (normalize w (Some J))
      /\ (forall plan,
             json_loads (lbrace :: body ++ [rbrace]) = Loaded plan ->
             normalize w (Some fenced) = (plan, w)
             /\ normalize w (Some J) = (plan, w)))
  /\ (forall plan,
         json_loads plan_x_text = Loaded plan ->
         normalize w (Some plan_x_fenced) = (plan, w)
         /\ normalize w (Some plan_x_text) = (plan, w)).
Proof.
  assert (G : forall pre w1 body w2 post,
      forallb is_space pre = true -> forallb is_space post = true ->
      forallb is_space w1 = true -> forallb is_space w2 = true ->
      let J := w1 ++ lbrace :: body ++ rbrace :: w2 in
      let fenced :=
        pre ++ T "```json" ++ newline :: J ++ newline :: T "```" ++ post in
      json_candidate (clean_reply (Some fenced)) = lbrace :: body ++ [rbrace]
      /\ json_candidate (clean_reply (Some J)) = lbrace :: body ++ [rbrace]).
  { intros pre w1 body w2 post Hpre Hpost H1 H2 J fenced.
    unfold fenced, J.
    rewrite clean_reply_fenced, clean_reply_bare by assumption.
    pose proof (@json_candidate_span [] body []) as Hc.
    simpl app in Hc. split; apply Hc; intros []. }
  split.
  - intros pre w1 body w2 post Hpre Hpost H1 H2 J fenced.
    destruct (G pre w1 body w2 post Hpre Hpost H1 H2) as [Ef Eb].
    fold J in Ef, Eb. fold fenced in Ef.
    split; [exact Ef|]. split; [exact Eb|]. split.
    + rewrite !normalize_candidate, Ef, Eb. reflexivity.
    + intros plan Hplan. unfold normalize.
      rewrite Ef, Eb, Hplan. split; reflexivity.
  - intros plan Hplan.
    assert (Ef : json_candidate (clean_reply (Some plan_x_fenced))
                 = plan_x_text) by (vm_compute; reflexivity).
    assert (Eb : json_candidate (clean_reply (Some plan_x_text))
                 = plan_x_text) by (vm_compute; reflexivity).
    unfold normalize. rewrite Ef, Eb, Hplan. split; reflexivity.
Qed.

(** C4.  When the text of the reply is None or empty, it is cleaned as
    the empty string, the empty string is what the JSON parser gets,
    and (the parser refusing the empty string) the result is the
    invalid-JSON error dict, whether or not the debug file can be
    written; the table of plans is not touched, and the handler answers
    500 with that message. *)
Theorem C4_empty_reply_is_invalid_json (w : world) (e : exn) raw_text :
  json_loads [] = JSONDecodeError e ->
  raw_text = None \/ raw_text = Some [] ->
  text_or_empty raw_text = []
  /\ json_candidate (clean_reply raw_text) = []
  /\ normalize w raw_text
     = (error_dict invalid_json_message, save_raw_text w raw_text)
  /\ w_store (save_raw_text w raw_text) = w_store w
  /\ (forall goal response,
         ai_disabled w = false ->
         generate_content (prompt_for goal) = Ret response ->
         getattr_text response = Ret raw_text ->
         fst (generate_plan w goal) = error_dict invalid_json_message
         /\ (forall req,
                request_with_goal req goal ->
                fst (create_plan_endpoint w req)
                = Responds (MkResponse 500 []
                              (error_dict invalid_json_message)))).
Proof.
  intros Hloads Hraw.
  assert (Ec : json_candidate (clean_reply raw_text) = [])
    by (destruct Hraw as [->| ->]; reflexivity).
  assert (En : normalize w raw_text
               = (error_dict invalid_json_message, save_raw_text w raw_text)).
  { unfold normalize. rewrite Ec, Hloads. reflexivity. }
  split; [destruct Hraw as [->| ->]; reflexivity|].
  split; [exact Ec|]. split; [exact En|]. split.
  - unfold save_raw_text. destruct (write_file _ _ _); reflexivity.
  - intros goal response Hai Hgc Hga.
    assert (Hgen : generate_plan w goal
                   = (error_dict invalid_json_message,
                      save_raw_text w raw_text)).
    { unfold generate_plan. rewrite Hai, Hgc, Hga. exact En. }
    split; [rewrite Hgen; reflexivity|].
    intros req Hreq.
    rewrite (endpoint_error_dict w Hreq Hgen) by reflexivity.
    reflexivity.
Qed.
End ServiceFacts.

(** ** The properties of the handler on the example collaborators *)

Lemma request_for_has_goal goal :
  goal <> [] -> request_with_goal (request_for goal) (JStr goal).
Proof.
  intros Hne. split; [reflexivity|].
  exists (JDict [(T "goal", JStr goal)]).
  split; [reflexivity|]. split; [reflexivity|].
  destruct goal; [congruence|reflexivity].
Qed.

(** C3 on the example of the specification: the fenced reply gives the
    dict with the project name X and no tasks. *)
Lemma C3_fenced_object_witness :
  normalize json_loads_ref example_write example_world (Some plan_x_fenced)
  = (JDict [(T "project_name", JStr (T "X")); (T "tasks", JList [])],
     example_world)
  /\ json_candidate
       (clean_reply (Some (T "  ```json" ++ newline ::
                             (T " {a} ") ++ newline :: T "```" ++ T " ")))
     = T "{a}".
Proof.
  split.
  - apply (proj2 (C3_fenced_object_same_as_bare
                    json_loads_ref example_write example_world)).
    vm_compute. reflexivity.
  - apply (proj1 (C3_fenced_object_same_as_bare
                    json_loads_ref example_write example_world)
                 (T "  ") (T " ") (T "a") (T " ") (T " "));
      reflexivity.
Defined.

(** C4 on the example collaborators: a response whose text is None. *)
Lemma C4_empty_reply_witness :
  fst (generate_plan example_repr json_loads_ref
                     (fun _ => Ret TextNone) example_write
                     example_world (JStr (T "Learn Rocq")))
  = error_dict invalid_json_message.
Proof.
  refine (proj1 (proj2 (proj2 (proj2 (proj2
            (C4_empty_reply_is_invalid_json
               example_repr json_loads_ref example_dumps
               (fun _ => Ret TextNone) example_write example_insert
               example_world (e := decode_error) (raw_text := None)
               _ _))))
            (JStr (T "Learn Rocq")) TextNone _ _ _)).
  - reflexivity.
  - left. reflexivity.
  - reflexivity.
  - reflexivity.
  - reflexivity.
Defined.

(** C7 on the example collaborators: the model fails with a quota
    message that names a delay of 12.4 seconds. *)
Lemma C7_rate_limit_answer_witness :
  create_plan_endpoint example_repr json_loads_ref example_dumps
                       (model_raises quota_failure)
                       example_write example_insert
                       example_world (request_for (T "Learn Rocq"))
  = (Responds
       (MkResponse 429 [(T "Retry-After", T "13")]
                   (JDict [(T "error", JStr quota_message);
                           (T "retry_after", JInt 13)])),
     example_world).
Proof.
  refine (proj1 (proj1 (C7_rate_limit_answer
                   example_repr json_loads_ref example_dumps
                   (model_raises quota_failure)
                   example_write example_insert example_world
                   (w1 := example_world)
                   (req := request_for (T "Learn Rocq"))
                   (goal := JStr (T "Learn Rocq"))
                   (d := [(T "error", JStr quota_message)])
                   _ _ _ _) 13%Z _)).
  - apply request_for_has_goal. discriminate.
  - reflexivity.
  - reflexivity.
  - vm_compute. reflexivity.
  - vm_compute. reflexivity.
Defined.

(** C8 on the example collaborators. *)
Lemma C8_generation_exception_witness :
  generate_plan example_repr json_loads_ref (model_raises quota_failure)
                example_write example_world (JStr (T "Learn Rocq"))
  = (error_dict quota_message, example_world).
Proof.
  refine (proj1 (C8_generation_exception_caught
                   example_repr json_loads_ref example_dumps
                   (model_raises quota_failure)
                   example_write example_insert example_world
                   (JStr (T "Learn Rocq")) (e := quota_failure) _ _)).
  - reflexivity.
  - left. reflexivity.
Defined.

(** C9 on the example collaborators: the plan has a null project name,
    which the table refuses. *)
Lemma C9_store_failure_witness :
  create_plan_endpoint example_repr json_loads_ref example_dumps
                       (model_replies null_name_reply)
                       example_write example_insert
                       example_world (request_for (T "Learn Rocq"))
  = (Responds
       (MkResponse 200 []
                   (JDict [(T "project_name", JNull);
                           (T "tasks", JList [])])),
     example_world).
Proof.
  refine (proj2 (C9_store_failure_swallowed
                   example_repr json_loads_ref example_dumps
                   (model_replies null_name_reply)
                   example_write example_insert example_world
                   (w1 := example_world)
                   (req := request_for (T "Learn Rocq"))
                   (goal := JStr (T "Learn Rocq"))
                   (d := [(T "project_name", JNull); (T "tasks", JList [])])
                   _ _ _)
                (MkExn (T "IntegrityError")
                   (T "NOT NULL constraint failed: plans.project_name")) _).
  - apply request_for_has_goal. discriminate.
  - vm_compute. reflexivity.
  - reflexivity.
  - reflexivity.
Defined.

(** C10 on the example collaborators: the reply is a JSON object with
    the key "error". *)
Lemma C10_parsed_error_key_witness :
  exists r,
    create_plan_endpoint example_repr json_loads_ref example_dumps
                         (model_replies error_reply)
                         example_write example_insert
                         example_world (request_for (T "Learn Rocq"))
    = (Responds r, example_world)
    /\ (status r = 429 \/ status r = 500)
    /\ py_get (body r) (T "error") JNull = Ret (JStr (T "quota exceeded")).
Proof.
  refine (C10_parsed_error_key_is_failure
            example_repr json_loads_ref example_dumps
            (model_replies error_reply)
            example_write example_insert example_world
            (req := request_for (T "Learn Rocq"))
            (goal := JStr (T "Learn Rocq"))
            (response := TextIs error_reply)
            (raw_text := Some error_reply)
            (d := [(T "error", JStr (T "quota exceeded"))])
            _ _ _ _ _ _).
  - apply request_for_has_goal. discriminate.
  - reflexivity.
  - reflexivity.
  - reflexivity.
  - vm_compute. reflexivity.
  - reflexivity.
Defined.

(** ** The object of a reply, whatever surrounds it *)

Lemma lstrip_in x : forall a, In x (lstrip a) -> In x a.
Proof.
  induction a as [|c a IH]; simpl; [auto|].
  destruct (is_space c); [auto|]. simpl. auto.
Qed.

Lemma rstrip_in x a : In x (rstrip a) -> In x a.
Proof.
  unfold rstrip. intros H. apply in_rev in H. apply lstrip_in in H.
  apply in_rev. exact H.
Qed.

Lemma lstrip_before x : forall a s,
    is_space x = false -> lstrip (a ++ x :: s) = lstrip a ++ x :: s.
Proof.
  induction a as [|c a IH]; intros s Hx; simpl.
  - rewrite Hx. reflexivity.
  - destruct (is_space c); [auto|reflexivity].
Qed.

Lemma rstrip_after x s c :
  is_space x = false -> rstrip (s ++ x :: c) = s ++ x :: rstrip c.
Proof.
  intros Hx. unfold rstrip.
  rewrite rev_app_distr. simpl. rewrite <- app_assoc. simpl.
  rewrite lstrip_before by exact Hx.
  rewrite rev_app_distr. simpl. rewrite rev_involutive, <- app_assoc.
  reflexivity.
Qed.

Lemma strip_around a b c :
  strip (a ++ lbrace :: b ++ rbrace :: c)
  = lstrip a ++ lbrace :: b ++ rbrace :: rstrip c.
Proof.
  unfold strip. rewrite lstrip_before by reflexivity.
  change (lstrip a ++ lbrace :: b ++ rbrace :: c)
    with (lstrip a ++ (lbrace :: b) ++ rbrace :: c).
  rewrite app_assoc, rstrip_after by reflexivity.
  rewrite <- app_assoc. reflexivity.
Qed.

(** A prefix without [x] of a text ends before the first [x]. *)
Lemma prefix_before (x : ascii) : forall s1 s2 a r,
    s1 ++ s2 = a ++ x :: r -> ~ In x s1 ->
    exists a', a = s1 ++ a' /\ s2 = a' ++ x :: r.
Proof.
  induction s1 as [|y s1 IH]; intros s2 a r E Hx.
  - exists a. auto.
  - destruct a as [|z a]; simpl in E; inversion E; subst.
    + exfalso. apply Hx. left. reflexivity.
    + destruct (IH s2 a r H1) as (a' & -> & ->).
      * intros H. apply Hx. right. exact H.
      * exists a'. auto.
Qed.

(** What the opening fence takes away is a prefix without "{". *)
Lemma sub_fence_open_prefix t :
  exists s1 s2, t = s1 ++ s2
                /\ re_sub true pat_fence_open [] t = s2
                /\ ~ In lbrace s1.
Proof.
  unfold re_sub.
  destruct (match_at true pat_fence_open false 0 t) as [m|] eqn:E.
  - pose proof E as E0. unfold match_at in E. apply rmatch_sound in E.
    destruct E as (s1 & s2 & g' & -> & L & Hk).
    cbn [andb] in Hk. inversion Hk; subst m; clear Hk.
    unfold pat_fence_open in L. cbn [lang] in L.
    destruct L as (e0 & r0 & g0 & -> & (-> & _ & _) & L).
    destruct L as (bt & r1 & g1 & -> & Lbt & L).
    destruct L as (js & ws & g2 & -> & Ljs & (Hws & _)).
    apply lang_word in Lbt; [|discriminate]. destruct Lbt as [Lbt _].
    assert (Hjs : js = [] \/ lit_matches true (T "json") js).
    { destruct Ljs as [[-> _]|Ljs]; [left; reflexivity|right].
      apply lang_word in Ljs; [|discriminate]. apply Ljs. }
    assert (Hno : ~ In lbrace ([] ++ bt ++ js ++ ws)).
    { simpl. intros H. apply in_app_or in H. destruct H as [H|H].
      - inversion Lbt as [|? ? ? ? H1 L1]; subst.
        inversion L1 as [|? ? ? ? H2 L2]; subst.
        inversion L2 as [|? ? ? ? H3 L3]; subst.
        inversion L3; subst.
        destruct H as [->|[->|[->|[]]]]; discriminate.
      - apply in_app_or in H. destruct H as [H|H].
        + destruct Hjs as [->|Hjs]; [exact H|].
          inversion Hjs as [|? ? ? ? H1 L1]; subst.
          inversion L1 as [|? ? ? ? H2 L2]; subst.
          inversion L2 as [|? ? ? ? H3 L3]; subst.
          inversion L3 as [|? ? ? ? H4 L4]; subst.
          inversion L4; subst.
          destruct H as [->|[->|[->|[->|[]]]]]; discriminate.
        + rewrite forallb_forall in Hws. apply Hws in H. discriminate. }
    exists ([] ++ bt ++ js ++ ws), s2.
    split; [reflexivity|]. split; [|exact Hno].
    rewrite (@sub_from_match true pat_fence_open [] _ s2 0 _ E0).
    + simpl. apply sub_fence_open_later.
      inversion Lbt; subst. simpl. lia.
    + reflexivity.
    + inversion Lbt; subst. discriminate.
  - exists [], t. split; [reflexivity|]. split; [|intros []].
    apply sub_from_nomatch. intros [|x p1] p2 Ht.
    + simpl in Ht. subst p2. exact E.
    + apply fence_open_later. simpl. lia.
Qed.

(** Replacing matches by nothing adds no character. *)
Lemma sub_from_erase_in ic r (x : ascii) : forall s i skip,
    In x (sub_from ic r [] i s skip) -> In x s.
Proof.
  induction s as [|c s IH]; intros i skip H.
  - destruct skip; simpl in H; [|exact H].
    destruct (match_at ic r false i []) as [m|]; [|exact H].
    destruct (m_end m =? i); [|exact H].
    destruct (match_at ic r true i []); exact H.
  - destruct skip as [|n]; cbn [sub_from] in H.
    + destruct (match_at ic r false i (c :: s)) as [m|].
      * destruct (m_end m =? i).
        -- destruct (match_at ic r true i (c :: s)) as [m2|]; simpl in H.
           ++ right. eapply IH. exact H.
           ++ destruct H as [H|H]; [left; exact H|right; eapply IH; exact H].
        -- simpl in H. right. eapply IH. exact H.
      * destruct H as [H|H]; [left; exact H|right; eapply IH; exact H].
    + right. eapply IH. exact H.
Qed.

(** What the closing fence takes away lies after the last "}". *)
Lemma sub_fence_close_keeps p q :
  ~ In rbrace q ->
  exists q', re_sub false pat_fence_close [] (p ++ rbrace :: q)
             = p ++ rbrace :: q'
             /\ ~ In rbrace q'.
Proof.
  intros Hq. unfold re_sub.
  change (p ++ rbrace :: q) with (p ++ [rbrace] ++ q).
  rewrite app_assoc, sub_from_copy.
  - exists (sub_from false pat_fence_close [] (0 + List.length (p ++ [rbrace])) q 0).
    rewrite <- app_assoc. split; [reflexivity|].
    intros H. apply sub_from_erase_in in H. exact (Hq H).
  - intros p1 p2 E Hne. apply fence_close_no_rbrace.
    apply in_or_app. left.
    destruct (exists_last Hne) as (q0 & y & ->).
    rewrite app_assoc in E. apply app_inj_tail in E. destruct E as [_ <-].
    apply in_or_app. right. left. reflexivity.
Qed.

(** A leading "json" lies before the first "{". *)
Lemma json_token_before a r :
  startswith (lower (a ++ lbrace :: r)) (T "json") = true ->
  exists a', skipn 4 (a ++ lbrace :: r) = a' ++ lbrace :: r
             /\ (forall x, In x a' -> In x a).
Proof.
  intros H.
  destruct a as [|x1 [|x2 [|x3 [|x4 a]]]];
    try solve [
      exfalso;
      cbn [lower map app startswith T list_ascii_of_string] in H;
      repeat match goal with
             | H : _ && _ = true |- _ => apply andb_prop in H; destruct H
             end;
      match goal with
      | H : ascii_eqb _ (lower_char lbrace) = true |- _ =>
          vm_compute in H; discriminate
      end ].
  exists a. split; [reflexivity|]. intros x Hx. simpl. auto.
Qed.

(** The cleaning keeps the text from the first "{" to the last "}". *)
Lemma clean_reply_span a b c :
  ~ In lbrace a -> ~ In rbrace c ->
  exists a' c',
    clean_reply (@Some text (a ++ lbrace :: b ++ rbrace :: c))
    = a' ++ lbrace :: b ++ rbrace :: c'
    /\ ~ In lbrace a' /\ ~ In rbrace c'.
Proof.
  intros Ha Hc. unfold clean_reply, text_or_empty.
  rewrite strip_around.
  assert (Ha1 : ~ In lbrace (lstrip a))
    by (intros H; apply Ha; apply lstrip_in; exact H).
  assert (Hc1 : ~ In rbrace (rstrip c))
    by (intros H; apply Hc; apply rstrip_in; exact H).
  destruct (sub_fence_open_prefix
              (lstrip a ++ lbrace :: b ++ rbrace :: rstrip c))
    as (s1 & s2 & E & -> & Hs1).
  symmetry in E. apply prefix_before in E; [|exact Hs1].
  destruct E as (a2 & Ea & ->).
  assert (Ha2 : ~ In lbrace a2).
  { intros H. apply Ha1. rewrite Ea. apply in_or_app. right. exact H. }
  change (a2 ++ lbrace :: b ++ rbrace :: rstrip c)
    with (a2 ++ (lbrace :: b) ++ rbrace :: rstrip c).
  rewrite app_assoc.
  destruct (@sub_fence_close_keeps (a2 ++ lbrace :: b) (rstrip c) Hc1)
    as (c2 & -> & Hc2).
  rewrite <- app_assoc. cbn [app].
  destruct (startswith (lower (a2 ++ lbrace :: b ++ rbrace :: c2))
                       (T "json")) eqn:Ej.
  - apply json_token_before in Ej. destruct Ej as (a3 & -> & Ha3).
    rewrite strip_around.
    exists (lstrip a3), (rstrip c2). split; [reflexivity|]. split.
    + intros H. apply lstrip_in in H. auto.
    + intros H. apply rstrip_in in H. auto.
  - exists a2, c2. auto.
Qed.

(** ** The request handler, case by case *)

Section ServiceMore.
Variable py_repr : json -> text.
Variable json_loads : text -> loads_result.
Variable json_dumps : json -> text.
Variable generate_content : text -> res text_attr.
Variable files : Type.
Variable write_file : files -> text -> text -> res files.
Variable store : Type.
Variable db_insert : store -> json -> text -> res store.

Local Abbreviation world := (world files store).
Local Abbreviation generate_plan :=
  (generate_plan py_repr json_loads generate_content write_file).
Local Abbreviation normalize := (normalize json_loads write_file).
Local Abbreviation create_plan_endpoint :=
  (create_plan_endpoint py_repr json_loads json_dumps generate_content
                        write_file db_insert).
Local Abbreviation save_plan := (save_plan json_dumps db_insert).
Local Abbreviation save_raw_text := (save_raw_text write_file).
Local Abbreviation py_str := (py_str py_repr).
Local Abbreviation prompt_for := (prompt_for py_repr).
Local Abbreviation handled :=
  (@handled py_repr json_loads json_dumps generate_content files write_file
            store db_insert).

(** The answers of [error_response]. *)
Lemma error_response_cases err_msg :
  (is_rate_limited err_msg = true
   /\ ((exists n, retry_after_of err_msg = Some n /\ (0 <= n)%Z
                  /\ error_response err_msg
                     = MkResponse 429 [(T "Retry-After", str_of_int n)]
                         (JDict [(T "error", JStr err_msg);
                                 (T "retry_after", JInt n)]))
       \/ (retry_after_of err_msg = None
           /\ error_response err_msg
              = MkResponse 429 [] (error_dict err_msg))))
  \/ (is_rate_limited err_msg = false
      /\ error_response err_msg = MkResponse 500 [] (error_dict err_msg)).
Proof.
  unfold error_response, rate_limit_response.
  destruct (is_rate_limited err_msg); [left|right; auto].
  split; [reflexivity|].
  destruct (retry_after_of err_msg) as [n|] eqn:E; [left|right; auto].
  exists n. split; [reflexivity|]. split; [|reflexivity].
  exact (retry_after_nonneg _ E).
Qed.

(** The handler follows one of its paths. *)
Lemma endpoint_handled (w : world) req :
  handled w req (create_plan_endpoint w req).
Proof.
  unfold create_plan_endpoint.
  destruct (is_json req) eqn:Hj; cbn [negb].
  2:{ apply H_not_json. exact Hj. }
  destruct (get_json req) as [data|e] eqn:Hd.
  2:{ apply H_body_raises; assumption. }
  destruct (py_get data (T "goal") JNull) as [goal|e] eqn:Hg.
  2:{ eapply H_body_not_dict; eassumption. }
  destruct (truthy goal) eqn:Ht; cbn [negb].
  2:{ eapply H_no_goal; eassumption. }
  assert (Hreq : request_with_goal req goal).
  { split; [exact Hj|]. exists data. auto. }
  destruct (generate_plan w goal) as [plan w1] eqn:Hgen.
  destruct (py_in (T "error") plan) as [[|]|e] eqn:Hin.
  - destruct (py_get plan (T "error") (JStr [])) as [v|e] eqn:Hv.
    + eapply H_plan_error; eassumption.
    + eapply H_plan_get_raises; eassumption.
  - eapply H_plan_ok; eassumption.
  - eapply H_plan_in_raises; eassumption.
Qed.

Lemma error_dict_in msg : py_in (T "error") (error_dict msg) = Ret true.
Proof. reflexivity. Qed.

(** [generate_plan] changes nothing but the debug file, and that only
    when it returns the invalid-JSON error. *)
Lemma generate_plan_frame (w w1 : world) goal plan :
  generate_plan w goal = (plan, w1) ->
  env_disable_ai w1 = env_disable_ai w
  /\ w_store w1 = w_store w
  /\ (w1 = w \/ plan = error_dict invalid_json_message).
Proof.
  unfold generate_plan, normalize,
    save_raw_text, set_files.
  destruct (ai_disabled w).
  { intros E. inversion E; subst. auto. }
  destruct (generate_content _) as [response|e].
  2:{ intros E. inversion E; subst. auto. }
  destruct (getattr_text response) as [raw_text|e].
  2:{ intros E. inversion E; subst. auto. }
  destruct (json_loads _) as [v|e|e].
  - intros E. inversion E; subst. auto.
  - destruct (write_file _ _ _) as [f|e'];
      intros E; inversion E; subst; cbn; auto.
  - intros E. inversion E; subst. auto.
Qed.

Lemma save_plan_frame (w : world) plan :
  env_disable_ai (save_plan w plan) = env_disable_ai w
  /\ w_files (save_plan w plan) = w_files w.
Proof.
  unfold save_plan, set_store.
  destruct (py_get plan _ _) as [name|e]; [|auto].
  destruct (db_insert _ _ _); auto.
Qed.

Lemma invalid_json_not_rate_limited :
  error_response invalid_json_message
  = MkResponse 500 [] (error_dict invalid_json_message).
Proof. vm_compute. reflexivity. Qed.

(** X1.  A request that is not JSON is answered 400 "Missing JSON in
    request"; a JSON object without "goal", or whose goal is empty,
    zero, false or null, is answered 400 "The 'goal' field is
    required."; the handler answers 400 in these two cases only, and
    then it has called nothing and changed nothing. *)
Theorem bad_request_answers (w : world) req :
  (is_json req = false ->
   create_plan_endpoint w req = (Responds missing_json, w))
  /\ (forall d,
         is_json req = true -> get_json req = Ret (JDict d) ->
         dict_mem (T "goal") d = false
         \/ truthy (dict_get (T "goal") d JNull) = false ->
         create_plan_endpoint w req = (Responds goal_required, w))
  /\ (forall r,
         fst (create_plan_endpoint w req) = Responds r ->
         status r = 400 ->
         snd (create_plan_endpoint w req) = w
         /\ (is_json req = false
             \/ exists d, get_json req = Ret (JDict d)
                          /\ truthy (dict_get (T "goal") d JNull) = false)).
Proof.
  split; [|split].
  - intros Hj. unfold create_plan_endpoint. rewrite Hj. reflexivity.
  - intros d Hj Hd Hg.
    assert (Ht : truthy (dict_get (T "goal") d JNull) = false).
    { destruct Hg as [Hg|Hg]; [|exact Hg].
      replace (dict_get (T "goal") d JNull) with JNull; [reflexivity|].
      clear Hd. induction d as [|[k v] d IH]; [reflexivity|].
      simpl in Hg |- *. apply orb_false_elim in Hg. destruct Hg as [Hk Hg].
      rewrite Hk. auto. }
    unfold create_plan_endpoint. rewrite Hj, Hd. cbn [negb py_get].
    rewrite Ht. reflexivity.
  - intros r Hr Hs.
    destruct (endpoint_handled w req) as
      [Hj|e Hj Hd|data e Hj Hd Hg|data goal Hj Hd Hg Ht
       |goal plan w1 e Hreq Hgen Hin|goal plan w1 e Hreq Hgen Hin Hv
       |goal plan w1 v Hreq Hgen Hin Hv|goal plan w1 Hreq Hgen Hin];
      cbn [fst snd] in *; try discriminate.
    + auto.
    + split; [reflexivity|]. right.
      destruct data; try discriminate. cbn [py_get] in Hg.
      inversion Hg; subst. eauto.
    + exfalso. inversion Hr; subst r.
      destruct (error_response_cases (py_str v))
        as [[_ [(n & _ & _ & E)|[_ E]]]|[_ E]];
        rewrite E in Hs; discriminate.
    + inversion Hr; subst r. discriminate.
Qed.

(** X2.  When the body of a JSON request cannot be read, the exception
    leaves the handler; when the body is JSON but not an object,
    [data.get] raises AttributeError, which leaves the handler as well.
    In both cases nothing was called or changed. *)
Theorem body_not_an_object (w : world) req :
  is_json req = true ->
  (forall e, get_json req = Raise e ->
             create_plan_endpoint w req = (Unhandled e, w))
  /\ (forall data,
         get_json req = Ret data -> (forall d, data <> JDict d) ->
         exists e, create_plan_endpoint w req = (Unhandled e, w)
                   /\ exn_class e = T "AttributeError").
Proof.
  intros Hj. split.
  - intros e He. unfold create_plan_endpoint.
    rewrite Hj, He. reflexivity.
  - intros data Hd Hno. unfold create_plan_endpoint.
    rewrite Hj, Hd. cbn [negb].
    destruct data; try (eexists; split; reflexivity).
    exfalso. exact (Hno d eq_refl).
Qed.

(** X3.  Whatever the request and the model, an answer of the handler
    has status 200, 400, 429 or 500; it has status 200 exactly when its
    body has no "error"; an answer with another status has a string
    under "error"; and a header is set only on a 429 answer, where it is
    Retry-After with the decimal of a delay that is not negative and
    that the body gives under "retry_after". *)
Theorem response_shape (w : world) req r :
  fst (create_plan_endpoint w req) = Responds r ->
  (status r = 200 \/ status r = 400 \/ status r = 429 \/ status r = 500)
  /\ (status r = 200 <-> py_in (T "error") (body r) = Ret false)
  /\ (status r <> 200 ->
      exists msg, py_get (body r) (T "error") JNull = Ret (JStr msg))
  /\ (headers r = []
      \/ status r = 429
         /\ exists n, (0 <= n)%Z
                      /\ headers r = [(T "Retry-After", str_of_int n)]
                      /\ py_get (body r) (T "retry_after") JNull
                         = Ret (JInt n)).
Proof.
  intros Hr.
  destruct (endpoint_handled w req) as
    [Hj|e Hj Hd|data e Hj Hd Hg|data goal Hj Hd Hg Ht
     |goal plan w1 e Hreq Hgen Hin|goal plan w1 e Hreq Hgen Hin Hv
     |goal plan w1 v Hreq Hgen Hin Hv|goal plan w1 Hreq Hgen Hin];
    cbn [fst] in Hr; try discriminate; inversion Hr; subst r; clear Hr.
  - cbn. repeat split; auto; try discriminate. eauto.
  - cbn. repeat split; auto; try discriminate. eauto.
  - destruct (error_response_cases (py_str v))
      as [[_ [(n & _ & Hn & E)|[_ E]]]|[_ E]]; rewrite E; cbn.
    + repeat split; auto; try discriminate; [eauto|].
      right. split; [reflexivity|]. exists n. auto.
    + repeat split; auto; try discriminate. eauto.
    + repeat split; auto; try discriminate. eauto.
  - cbn [status body headers]. repeat split; auto. congruence.
Qed.

(** X4.  A request never changes DISABLE_AI; it changes the table of
    plans only when the answer is 200; and it changes the files only
    when the answer is 500 with the invalid-JSON message, the table
    staying as it was. *)
Theorem request_changes (w : world) req :
  let w' := snd (create_plan_endpoint w req) in
  env_disable_ai w' = env_disable_ai w
  /\ (w_store w' <> w_store w ->
      exists plan,
        fst (create_plan_endpoint w req)
        = Responds (MkResponse 200 [] plan))
  /\ (w_files w' <> w_files w ->
      fst (create_plan_endpoint w req)
      = Responds (MkResponse 500 [] (error_dict invalid_json_message))
      /\ w_store w' = w_store w).
Proof.
  intros w'. subst w'.
  destruct (endpoint_handled w req) as
    [Hj|e Hj Hd|data e Hj Hd Hg|data goal Hj Hd Hg Ht
     |goal plan w1 e Hreq Hgen Hin|goal plan w1 e Hreq Hgen Hin Hv
     |goal plan w1 v Hreq Hgen Hin Hv|goal plan w1 Hreq Hgen Hin];
    cbn [fst snd];
    try (split; [reflexivity|split; intros H; exfalso; apply H; reflexivity]);
    destruct (@generate_plan_frame _ _ _ _ Hgen) as (He & Hs & Hf).
  - split; [exact He|]. split; [intros H; exfalso; exact (H Hs)|].
    intros H. exfalso. destruct Hf as [->| ->]; [apply H; reflexivity|].
    discriminate.
  - split; [exact He|]. split; [intros H; exfalso; exact (H Hs)|].
    intros H. exfalso. destruct Hf as [->| ->]; [apply H; reflexivity|].
    discriminate.
  - split; [exact He|]. split; [intros H; exfalso; exact (H Hs)|].
    intros H. destruct Hf as [->| ->]; [exfalso; apply H; reflexivity|].
    cbn [py_get error_dict dict_get text_eqb] in Hv.
    split; [|exact Hs].
    inversion Hv; subst v. cbn [py_str].
    rewrite invalid_json_not_rate_limited. reflexivity.
  - destruct (save_plan_frame w1 plan) as [He' Hf'].
    split; [congruence|]. split; [eauto|].
    intros H. exfalso. rewrite Hf' in H.
    destruct Hf as [->| ->]; [apply H; reflexivity|discriminate].
Qed.
(** X5.  The model is switched off exactly when DISABLE_AI is "1",
    "true" or "yes" in any mix of upper and lower case.  Then
    [generate_plan] returns the local test plan, whose only task has the
    goal as its description, without calling the model, and a request is
    answered 200 with that plan, which is saved under the name "Local
    Test Plan" when the insert works. *)
Theorem disable_ai_local_plan (w : world) :
  (ai_disabled w = true
   <-> ci_equal (env_disable_ai w) (T "1")
       \/ ci_equal (env_disable_ai w) (T "true")
       \/ ci_equal (env_disable_ai w) (T "yes"))
  /\ (ai_disabled w = true ->
      forall goal,
        generate_plan w goal = (local_test_plan goal, w)
        /\ py_get (local_test_plan goal) (T "tasks") JNull
           = Ret (JList [JDict [(T "task_id", JInt 1);
                                (T "task_name", JStr (T "Test task"));
                                (T "description", goal);
                                (T "timeline_days", JInt 1);
                                (T "dependencies", JList [])]])
        /\ forall req,
            request_with_goal req goal ->
            create_plan_endpoint w req
            = (Responds (MkResponse 200 [] (local_test_plan goal)),
               match db_insert (w_store w) (JStr (T "Local Test Plan"))
                               (json_dumps (local_test_plan goal)) with
               | Ret s => set_store w s
               | Raise _ => w
               end)).
Proof.
  split.
  - unfold ai_disabled. rewrite !orb_true_iff, !text_eqb_eq.
    rewrite !lower_ci_equal by reflexivity. tauto.
  - intros Hai goal.
    assert (Hgen : generate_plan w goal = (local_test_plan goal, w)).
    { unfold generate_plan. rewrite Hai. reflexivity. }
    split; [exact Hgen|]. split; [reflexivity|].
    intros req Hreq.
    rewrite (endpoint_with_goal py_repr json_loads json_dumps
               generate_content write_file db_insert w Hreq), Hgen.
    reflexivity.
Qed.

(** X6.  When the reply has a "{" with a "}" after it, the text handed
    to the JSON parser is the reply from its first "{" to its last "}",
    whatever stands before and after (prose, fences, a "json" tag);
    cleaning that text again gives the same text; and when the parser
    accepts it, [generate_plan] returns what was parsed and changes
    nothing. *)
Theorem reply_object_is_parsed (w : world) (a b c : text) :
  ~ In lbrace a -> ~ In rbrace c ->
  let reply : text := a ++ lbrace :: b ++ rbrace :: c in
  let object : text := lbrace :: b ++ [rbrace] in
  json_candidate (clean_reply (@Some text reply)) = object
  /\ json_candidate (clean_reply (@Some text object)) = object
  /\ (forall goal plan,
         ai_disabled w = false ->
         generate_content (prompt_for goal) = Ret (TextIs reply) ->
         json_loads object = Loaded plan ->
         generate_plan w goal = (plan, w)).
Proof.
  intros Ha Hc reply object.
  assert (G : forall a' c' : text,
             ~ In lbrace a' -> ~ In rbrace c' ->
             json_candidate
               (clean_reply (@Some text (a' ++ lbrace :: b ++ rbrace :: c')))
             = object).
  { intros a' c' Ha' Hc'.
    destruct (@clean_reply_span a' b c' Ha' Hc') as (a2 & c2 & E & Ha2 & Hc2).
    rewrite E. apply json_candidate_span; assumption. }
  assert (E : json_candidate (clean_reply (@Some text reply)) = object)
    by (apply G; assumption).
  split; [exact E|]. split.
  - apply (G [] []); intros [].
  - intros goal plan Hai Hgc Hload.
    unfold generate_plan, normalize.
    rewrite Hai, Hgc. cbn [getattr_text]. rewrite E, Hload. reflexivity.
Qed.

(** X7.  When [json.loads] refuses the cleaned reply with a
    JSONDecodeError, [generate_plan] returns the invalid-JSON error, the
    reply as it came (not the cleaned one) is written to
    last_raw_model_response.txt, a failure to write being passed over,
    and the handler answers 500 with the fixed message even when the
    reply speaks of a quota; when [json.loads] raises another exception,
    its message is the error, no file is written, and the handler
    answers for that message. *)
Theorem unparsable_reply (w : world) goal response raw_text :
  ai_disabled w = false ->
  generate_content (prompt_for goal) = Ret response ->
  getattr_text response = Ret raw_text ->
  (forall e,
      json_loads (json_candidate (clean_reply raw_text)) = JSONDecodeError e ->
      generate_plan w goal
      = (error_dict invalid_json_message, save_raw_text w raw_text)
      /\ (forall f,
             write_file (w_files w) (T "last_raw_model_response.txt")
                        (text_or_empty raw_text) = Ret f ->
             save_raw_text w raw_text = set_files w f)
      /\ (forall e',
             write_file (w_files w) (T "last_raw_model_response.txt")
                        (text_or_empty raw_text) = Raise e' ->
             save_raw_text w raw_text = w)
      /\ forall req,
          request_with_goal req goal ->
          create_plan_endpoint w req
          = (Responds (MkResponse 500 [] (error_dict invalid_json_message)),
             save_raw_text w raw_text))
  /\ (forall e,
         json_loads (json_candidate (clean_reply raw_text)) = LoadsRaises e ->
         generate_plan w goal = (error_dict (exn_str e), w)
         /\ forall req,
             request_with_goal req goal ->
             create_plan_endpoint w req
             = (Responds (error_response (exn_str e)), w)).
Proof.
  intros Hai Hgc Hga. split; intros e Hload.
  - assert (Hgen : generate_plan w goal
                   = (error_dict invalid_json_message,
                      save_raw_text w raw_text)).
    { unfold generate_plan, normalize.
      rewrite Hai, Hgc, Hga, Hload. reflexivity. }
    split; [exact Hgen|]. split; [|split].
    + intros f Hf. unfold save_raw_text. rewrite Hf. reflexivity.
    + intros e' Hf. unfold save_raw_text. rewrite Hf. reflexivity.
    + intros req Hreq.
      rewrite (endpoint_error_dict py_repr json_loads json_dumps
                 generate_content write_file db_insert w Hreq Hgen)
        by reflexivity.
      f_equal; f_equal; vm_compute; reflexivity.
  - assert (Hgen : generate_plan w goal = (error_dict (exn_str e), w)).
    { unfold generate_plan, normalize.
      rewrite Hai, Hgc, Hga, Hload. reflexivity. }
    split; [exact Hgen|].
    intros req Hreq.
    rewrite (endpoint_error_dict py_repr json_loads json_dumps
               generate_content write_file db_insert w Hreq Hgen)
      by reflexivity.
    reflexivity.
Qed.

(** X8.  When the reply parses to a value that is not an object: a
    number, a boolean or null makes ["error" in plan] raise TypeError; a
    list with the item "error", or a string that contains "error",
    makes [plan.get] raise AttributeError; both leave the handler.  Any
    other list or string is answered 200 and is not saved. *)
Theorem plan_not_an_object (w w1 : world) req goal plan :
  request_with_goal req goal ->
  generate_plan w goal = (plan, w1) ->
  (forall d, plan <> JDict d) ->
  match plan with
  | JList l =>
      if existsb (fun x => match x with
                           | JStr s => text_eqb (T "error") s
                           | _ => false
                           end) l
      then exists e, create_plan_endpoint w req = (Unhandled e, w1)
                     /\ exn_class e = T "AttributeError"
      else create_plan_endpoint w req
           = (Responds (MkResponse 200 [] plan), w1)
  | JStr s =>
      if contains (T "error") s
      then exists e, create_plan_endpoint w req = (Unhandled e, w1)
                     /\ exn_class e = T "AttributeError"
      else create_plan_endpoint w req
           = (Responds (MkResponse 200 [] plan), w1)
  | _ => exists e, create_plan_endpoint w req = (Unhandled e, w1)
                   /\ exn_class e = T "TypeError"
  end.
Proof.
  intros Hreq Hgen Hno.
  rewrite (endpoint_with_goal py_repr json_loads json_dumps
             generate_content write_file db_insert w Hreq), Hgen.
  destruct plan; cbn [py_in py_get];
    try (eexists; split; reflexivity).
  - destruct (contains (T "error") s);
      [eexists; split; reflexivity|reflexivity].
  - destruct (existsb _ l);
      [eexists; split; reflexivity|reflexivity].
  - exfalso. exact (Hno d eq_refl).
Qed.
End ServiceMore.

(** ** The table of plans *)

Lemma largest_id_seq t : (t_seq t <= largest_id t)%Z.
Proof.
  unfold largest_id. induction (t_rows t) as [|r rows IH]; simpl; lia.
Qed.

Lemma largest_id_ge t r : In r (t_rows t) -> (row_id r <= largest_id t)%Z.
Proof.
  unfold largest_id. induction (t_rows t) as [|r0 rows IH]; simpl.
  - intros [].
  - intros [->|H]; [lia|]. specialize (IH H). lia.
Qed.

Lemma find_id_none rows id :
  (forall r, In r rows -> row_id r <> id) ->
  find (fun r => Z.eqb (row_id r) id) rows = None.
Proof.
  induction rows as [|r rows IH]; intros H; simpl; [reflexivity|].
  destruct (Z.eqb_spec (row_id r) id) as [E|_].
  - exfalso. exact (H r (or_introl eq_refl) E).
  - apply IH. intros r' Hr'. apply H. right. exact Hr'.
Qed.

Lemma find_id_app rows r id :
  find (fun r => Z.eqb (row_id r) id) (rows ++ [r])
  = match find (fun r => Z.eqb (row_id r) id) rows with
    | Some r' => Some r'
    | None => if Z.eqb (row_id r) id then Some r else None
    end.
Proof.
  induction rows as [|r0 rows IH]; simpl; [reflexivity|].
  destruct (Z.eqb (row_id r0) id); [reflexivity|exact IH].
Qed.

(** No row has the next id. *)
Lemma select_next_id t : select_plan_data t (largest_id t + 1) = None.
Proof.
  unfold select_plan_data. rewrite find_id_none; [reflexivity|].
  intros r Hr. apply largest_id_ge in Hr. lia.
Qed.

(** A row added at the end is found by its id when the id is new, and
    hides no other row. *)
Lemma select_added t r seq id :
  select_plan_data (MkTable (t_rows t ++ [r]) seq) id
  = match select_plan_data t id with
    | Some data => Some data
    | None => if Z.eqb (row_id r) id then Some (row_plan_data r) else None
    end.
Proof.
  unfold select_plan_data. cbn [t_rows]. rewrite find_id_app.
  destruct (find _ (t_rows t)); [reflexivity|].
  destruct (Z.eqb (row_id r) id); reflexivity.
Qed.

Lemma fits_int64_bounds n :
  fits_int64 n = true <-> (- 2 ^ 63 <= n < 2 ^ 63)%Z.
Proof.
  unfold fits_int64. rewrite andb_true_iff, Z.leb_le, Z.ltb_lt. reflexivity.
Qed.

Section PlanStoreFacts.
Variable py_repr : json -> text.
Variable json_loads : text -> loads_result.
Variable json_dumps : json -> text.
Variable generate_content : text -> res text_attr.
Variable files : Type.
Variable write_file : files -> text -> text -> res files.
Variable now : text.
Variable real_text : bool -> py_float -> text.

Local Abbreviation world := (world files database).
Local Abbreviation db_insert := (insert_plan now real_text).
Local Abbreviation generate_plan :=
  (generate_plan py_repr json_loads generate_content write_file).
Local Abbreviation create_plan_endpoint :=
  (create_plan_endpoint py_repr json_loads json_dumps generate_content
                        write_file db_insert).
Local Abbreviation save_plan := (save_plan json_dumps db_insert).
Local Abbreviation get_plan := (get_plan json_loads).
Local Abbreviation stored_name := (stored_name real_text).

(** What an insert that works leaves in the file. *)
Lemma insert_plan_ret db name data db' :
  db_insert db name data = Ret db' ->
  exists t text_name,
    db = Some t
    /\ stored_name name = Ret text_name
    /\ (largest_id t + 1 < 2 ^ 63)%Z
    /\ db' = Some (MkTable (t_rows t
                              ++ [MkRow (largest_id t + 1) text_name data now])
                           (largest_id t + 1)).
Proof.
  unfold insert_plan, stored_name. destruct db as [t|]; [|discriminate].
  destruct (sqlite_bind name) as [v|e]; [|discriminate].
  destruct (Z.ltb_spec (largest_id t + 1) (2 ^ 63)) as [Hlt|_];
    [|discriminate].
  destruct (column_text real_text v) as [text_name|e] eqn:Hc;
    [|discriminate].
  intros E. inversion E; subst. exists t, text_name. auto.
Qed.

Lemma insert_plan_works t name text_name data :
  stored_name name = Ret text_name ->
  (largest_id t + 1 < 2 ^ 63)%Z ->
  db_insert (Some t) name data
  = Ret (Some (MkTable (t_rows t
                          ++ [MkRow (largest_id t + 1) text_name data now])
                       (largest_id t + 1))).
Proof.
  intros Hn Hlt. unfold insert_plan. unfold stored_name in Hn.
  destruct (sqlite_bind name) as [v|e]; [|discriminate].
  apply Z.ltb_lt in Hlt. rewrite Hlt, Hn. reflexivity.
Qed.

(** The file after a request is the file before it, or the file after
    one insert. *)
Lemma endpoint_store (w : world) req :
  w_store (snd (create_plan_endpoint w req)) = w_store w
  \/ exists name data,
      db_insert (w_store w) name data
      = Ret (w_store (snd (create_plan_endpoint w req))).
Proof.
  destruct (endpoint_handled py_repr json_loads json_dumps generate_content
              write_file db_insert w req) as
    [Hj|e Hj Hd|data e Hj Hd Hg|data goal Hj Hd Hg Ht
     |goal plan w1 e Hreq Hgen Hin|goal plan w1 e Hreq Hgen Hin Hv
     |goal plan w1 v Hreq Hgen Hin Hv|goal plan w1 Hreq Hgen Hin];
    cbn [fst snd]; auto;
    destruct (@generate_plan_frame _ _ _ _ _ _ _ _ _ _ Hgen)
      as (_ & Hs & _); auto.
  unfold save_plan.
  destruct (py_get plan _ _) as [name|e]; [|auto].
  destruct (insert_plan now real_text (w_store w1) name (json_dumps plan))
    as [s|e] eqn:Ei; [|auto].
  right. exists name, (json_dumps plan). rewrite <- Hs, Ei. reflexivity.
Qed.

(** A plan that the table takes is answered and saved. *)
Lemma endpoint_saves (w w1 : world) req goal d t name :
  request_with_goal req goal ->
  generate_plan w goal = (JDict d, w1) ->
  dict_mem (T "error") d = false ->
  w_store w = Some t ->
  stored_name (dict_get (T "project_name") d (JStr (T "Untitled Plan")))
  = Ret name ->
  fits_int64 (largest_id t + 1) = true ->
  create_plan_endpoint w req
  = (Responds (MkResponse 200 [] (JDict d)),
     set_store w1
       (Some (MkTable
                (t_rows t
                   ++ [MkRow (largest_id t + 1) name
                             (json_dumps (JDict d)) now])
                (largest_id t + 1)))).
Proof.
  intros Hreq Hgen Hmem Hdb Hname Hfit.
  destruct (@generate_plan_frame _ _ _ _ _ _ _ _ _ _ Hgen) as (_ & Hs & _).
  assert (Hlt : (largest_id t + 1 < 2 ^ 63)%Z)
    by (apply fits_int64_bounds in Hfit; lia).
  rewrite (endpoint_with_goal py_repr json_loads json_dumps
             generate_content write_file db_insert w Hreq), Hgen.
  cbn [py_in]. rewrite Hmem. unfold save_plan. cbn [py_get].
  rewrite Hs, Hdb, (@insert_plan_works t _ _ _ Hname Hlt). reflexivity.
Qed.

(** The row added last is served under its id when the id is new. *)
Lemma get_plan_added t name data plan :
  fits_int64 (largest_id t + 1) = true ->
  json_loads data = Loaded plan ->
  get_plan (Some (MkTable (t_rows t
                             ++ [MkRow (largest_id t + 1) name data now])
                          (largest_id t + 1)))
           (largest_id t + 1)
  = Responds (MkResponse 200 [] plan).
Proof.
  intros Hfit Hload. unfold get_plan. rewrite Hfit.
  rewrite select_added, select_next_id.
  cbn [row_id row_plan_data]. rewrite Z.eqb_refl, Hload. reflexivity.
Qed.


(** X10.  A request to create a plan takes no saved plan away: a plan
    that [get_plan] served before is served as before, the answer of
    [get_plan] changes for no id but the one after the largest so far,
    and a missing table stays missing. *)
Theorem saved_plans_are_kept (w : world) req :
  let db := w_store w in
  let db' := w_store (snd (create_plan_endpoint w req)) in
  (forall id plan,
      get_plan db id = Responds (MkResponse 200 [] plan) ->
      get_plan db' id = Responds (MkResponse 200 [] plan))
  /\ (forall t id,
         db = Some t -> id <> (largest_id t + 1)%Z ->
         get_plan db' id = get_plan db id)
  /\ (db = None -> db' = None).
Proof.
  intros db db'.
  assert (H : db' = db
              \/ exists t r,
                  db = Some t
                  /\ row_id r = (largest_id t + 1)%Z
                  /\ db' = Some (MkTable (t_rows t ++ [r]) (row_id r))).
  { destruct (endpoint_store w req) as [E|(name & data & E)]; [left; exact E|].
    right. apply insert_plan_ret in E.
    destruct E as (t & text_name & Hdb & _ & _ & E).
    exists t, (MkRow (largest_id t + 1) text_name data now). auto. }
  destruct H as [->|(t & r & Hdb & Hr & ->)].
  { split; [auto|]. split; auto. }
  rewrite Hdb. split; [|split; [|discriminate]].
  - intros id plan. unfold get_plan.
    destruct (fits_int64 id); [|auto]. rewrite select_added.
    destruct (select_plan_data t id); [auto|discriminate].
  - intros t' id E Hid. inversion E; subst t'. unfold get_plan.
    destruct (fits_int64 id); [|auto]. rewrite select_added.
    destruct (select_plan_data t id); [auto|].
    rewrite Hr. destruct (Z.eqb_spec (largest_id t + 1) id); [|reflexivity].
    congruence.
Qed.

(** X11.  As long as the table has not been created, a good plan is
    answered 200 but not saved and [get_plan] raises "no such table" for
    every id; once [init_db] has created the table, the plan of the same
    request is served under the id 1.  [init_db] always leaves a table,
    changes nothing when there is one, and does the same when run
    twice. *)
Theorem table_is_needed (w w1 : world) req goal d :
  request_with_goal req goal ->
  generate_plan w goal = (JDict d, w1) ->
  dict_mem (T "error") d = false ->
  (w_store w = None ->
   create_plan_endpoint w req = (Responds (MkResponse 200 [] (JDict d)), w1)
   /\ w_store w1 = None
   /\ forall id, get_plan None id = Unhandled no_such_table)
  /\ (forall name,
         w_store w = init_db None ->
         stored_name (dict_get (T "project_name") d
                               (JStr (T "Untitled Plan"))) = Ret name ->
         json_loads (json_dumps (JDict d)) = Loaded (JDict d) ->
         get_plan (w_store (snd (create_plan_endpoint w req))) 1
         = Responds (MkResponse 200 [] (JDict d)))
  /\ (forall db,
         init_db db <> None
         /\ init_db (init_db db) = init_db db
         /\ forall t, db = Some t -> init_db db = db).
Proof.
  intros Hreq Hgen Hmem.
  destruct (@generate_plan_frame _ _ _ _ _ _ _ _ _ _ Hgen) as (_ & Hs & _).
  split; [|split].
  - intros Hdb. rewrite Hdb in Hs. split; [|split; [exact Hs|reflexivity]].
    rewrite (endpoint_with_goal py_repr json_loads json_dumps
               generate_content write_file db_insert w Hreq), Hgen.
    cbn [py_in]. rewrite Hmem. unfold save_plan. cbn [py_get].
    rewrite Hs. reflexivity.
  - intros name Hdb Hname Hround.
    rewrite (@endpoint_saves w w1 req goal d (MkTable [] 0) name
               Hreq Hgen Hmem Hdb Hname eq_refl).
    cbn [fst snd set_store w_store].
    apply (@get_plan_added (MkTable [] 0) name _ _ eq_refl Hround).
  - intros [t|]; cbn; repeat split; try discriminate; congruence.
Qed.

(** X12.  [get_plan] on an id that does not fit a 64-bit integer
    raises OverflowError; on an id that fits and that no row has, among
    them every id above the largest one so far, it answers 404 "Plan not
    found". *)
Theorem get_plan_misses t id :
  (fits_int64 id = false ->
   get_plan (Some t) id = Unhandled int_too_large)
  /\ (fits_int64 id = true ->
      (forall r, In r (t_rows t) -> row_id r <> id) ->
      get_plan (Some t) id = Responds plan_not_found)
  /\ (largest_id t < id -> id < 2 ^ 63 -> 0 <= id ->
      get_plan (Some t) id = Responds plan_not_found)%Z.
Proof.
  unfold get_plan. split; [intros ->; reflexivity|].
  assert (H : fits_int64 id = true ->
              (forall r, In r (t_rows t) -> row_id r <> id) ->
              (if fits_int64 id
               then match select_plan_data t id with
                    | Some data =>
                        match json_loads data with
                        | Loaded plan_data =>
                            Responds (MkResponse 200 [] plan_data)
                        | JSONDecodeError e => Unhandled e
                        | LoadsRaises e => Unhandled e
                        end
                    | None => Responds plan_not_found
                    end
               else Unhandled int_too_large) = Responds plan_not_found).
  { intros -> Hno. unfold select_plan_data.
    rewrite find_id_none by exact Hno. reflexivity. }
  split; [exact H|].
  intros Hlt Hmax H0. apply H.
  - apply fits_int64_bounds. lia.
  - intros r Hr. apply largest_id_ge in Hr. lia.
Qed.
End PlanStoreFacts.

Section PlanStoreFacts2.
Variable py_repr : json -> text.
Variable json_loads : text -> loads_result.
Variable json_dumps : json -> text.
Variable generate_content : text -> res text_attr.
Variable files : Type.
Variable write_file : files -> text -> text -> res files.
Variable now : text.
Variable real_text : bool -> py_float -> text.

Local Abbreviation world := (world files database).
Local Abbreviation db_insert := (insert_plan now real_text).
Local Abbreviation generate_plan :=
  (generate_plan py_repr json_loads generate_content write_file).
Local Abbreviation create_plan_endpoint :=
  (create_plan_endpoint py_repr json_loads json_dumps generate_content
                        write_file db_insert).
Local Abbreviation stored_name := (stored_name real_text).


End PlanStoreFacts2.

(** ** [inspect_db.py] *)

Lemma rjust_length width s :
  List.length (rjust width s) = Nat.max width (List.length s).
Proof. unfold rjust. rewrite length_app, repeat_length. lia. Qed.

Lemma short_ids :
  forallb (fun n => List.length (str_of_int (Z.of_nat n)) <=? 4)
          (seq 0 (100 * 100)) = true.
Proof. vm_compute. reflexivity. Qed.

Lemma str_of_int_short n :
  (0 <= n <= 9999)%Z -> List.length (str_of_int n) <= 4.
Proof.
  intros Hn. pose proof short_ids as H. rewrite forallb_forall in H.
  specialize (H (Z.to_nat n)). rewrite Z2Nat.id in H by lia.
  apply Nat.leb_le. apply H. apply in_seq. lia.
Qed.

Section InspectFacts.
Variable db_path : text.
Variable json_loads : text -> loads_result.
Variable json_dumps_indent : json -> text.
Variable newest_first : list plan_row -> list plan_row.
Variable integer_of_text : text -> option Z.

Local Abbreviation list_plans := (list_plans db_path newest_first).
Local Abbreviation show_plan :=
  (show_plan db_path json_loads json_dumps_indent integer_of_text).
Local Abbreviation main :=
  (main db_path json_loads json_dumps_indent newest_first integer_of_text).
Local Abbreviation get_plan := (get_plan json_loads).


(** X15.  The script takes its command in any mix of upper and lower
    case: "list" lists whatever arguments follow, "show" with exactly
    one argument shows that plan, and the script prints its usage text
    and exits with status 1 exactly when there is no command or the
    command is neither of these. *)
Theorem main_dispatch file (argv : list text) :
  let cmd : text := nth 1 argv [] in
  (ci_equal cmd (T "list") -> 2 <= List.length argv ->
   main file argv = exits 0 (list_plans file 50))
  /\ (forall prog plan_id,
         ci_equal cmd (T "show") -> argv = [prog; cmd; plan_id] ->
         main file argv = exits 0 (show_plan file plan_id))
  /\ ((exists out, main file argv = Ret (out, 1))
      <-> List.length argv < 2
          \/ (~ ci_equal cmd (T "list")
              /\ ~ (ci_equal cmd (T "show") /\ List.length argv = 3)))
  /\ (forall out, main file argv = Ret (out, 1) -> out = [usage_text]).
Proof.
  intros cmd. unfold main. cbv zeta. fold cmd.
  assert (Hlist : text_eqb (lower cmd) (T "list") = true
                  <-> ci_equal cmd (T "list"))
    by (rewrite text_eqb_eq; apply lower_ci_equal; reflexivity).
  assert (Hshow : text_eqb (lower cmd) (T "show") = true
                  <-> ci_equal cmd (T "show"))
    by (rewrite text_eqb_eq; apply lower_ci_equal; reflexivity).
  assert (Hexits : forall o out, exits 0 o <> Ret (out, 1)).
  { intros [lines|e] out; cbn; [|discriminate].
    intros E. inversion E. }
  split; [|split; [|split]].
  - intros Hc Hl. apply Hlist in Hc.
    replace (List.length argv <? 2) with false
      by (symmetry; apply Nat.ltb_ge; exact Hl).
    rewrite Hc. reflexivity.
  - intros prog plan_id Hc E.
    apply Hshow in Hc.
    assert (Hn : text_eqb (lower cmd) (T "list") = false).
    { pose proof Hc as Hc'. apply text_eqb_eq in Hc'. rewrite Hc'.
      reflexivity. }
    rewrite Hn, Hc. rewrite E. reflexivity.
  - destruct (Nat.ltb_spec (List.length argv) 2) as [Hl|Hl].
    { split; [auto|]. intros _. eauto. }
    destruct (text_eqb (lower cmd) (T "list")) eqn:El.
    { split.
      - intros [out E]. exfalso. exact (Hexits _ _ E).
      - intros [H|[H _]]; [lia|]. exfalso. apply H, Hlist. reflexivity. }
    destruct (text_eqb (lower cmd) (T "show")) eqn:Es; cbn [andb].
    + destruct (Nat.eqb_spec (List.length argv) 3) as [H3|H3].
      * split.
        -- intros [out E]. exfalso. exact (Hexits _ _ E).
        -- intros [H|[_ H]]; [lia|]. exfalso. apply H.
           split; [apply Hshow; reflexivity|exact H3].
      * split; [|eauto]. intros _. right. split.
        -- intros H. apply Hlist in H. congruence.
        -- intros [_ H]. exact (H3 H).
    + split; [|eauto]. intros _. right. split.
      * intros H. apply Hlist in H. congruence.
      * intros [H _]. apply Hshow in H. congruence.
  - intros out.
    destruct (List.length argv <? 2); [intros E; inversion E; reflexivity|].
    destruct (text_eqb (lower cmd) (T "list")).
    { intros E. exfalso. exact (Hexits _ _ E). }
    destruct (text_eqb (lower cmd) (T "show") && (List.length argv =? 3)).
    { intros E. exfalso. exact (Hexits _ _ E). }
    intros E. inversion E. reflexivity.
Qed.

(** X16.  On a database with the table, [list_plans] prints between 1
    and 50 lines: "No plans saved yet." when no row is selected,
    otherwise one line for each of the first 50 rows.  A line starts
    with the id on the right of a field of four characters, which is
    exactly four wide for ids from 0 to 9999 and is the id in full when
    the id is longer. *)
Theorem list_plans_lines t :
  exists lines,
    list_plans (Some (Some t)) 50 = Ret lines
    /\ 1 <= List.length lines <= 50
    /\ (newest_first (t_rows t) = [] -> lines = [T "No plans saved yet."])
    /\ (newest_first (t_rows t) <> [] ->
        lines = map format_row (firstn 50 (newest_first (t_rows t))))
    /\ forall r,
        format_row r
        = rjust 4 (str_of_int (row_id r)) ++ T " | " ++ row_created_at r
            ++ T " | " ++ row_project_name r
        /\ List.length (rjust 4 (str_of_int (row_id r)))
           = Nat.max 4 (List.length (str_of_int (row_id r)))
        /\ ((0 <= row_id r <= 9999)%Z ->
            List.length (rjust 4 (str_of_int (row_id r))) = 4)
        /\ (4 <= List.length (str_of_int (row_id r)) ->
            rjust 4 (str_of_int (row_id r)) = str_of_int (row_id r)).
Proof.
  assert (F : forall r,
             format_row r
             = rjust 4 (str_of_int (row_id r)) ++ T " | " ++ row_created_at r
                 ++ T " | " ++ row_project_name r
             /\ List.length (rjust 4 (str_of_int (row_id r)))
                = Nat.max 4 (List.length (str_of_int (row_id r)))
             /\ ((0 <= row_id r <= 9999)%Z ->
                 List.length (rjust 4 (str_of_int (row_id r))) = 4)
             /\ (4 <= List.length (str_of_int (row_id r)) ->
                 rjust 4 (str_of_int (row_id r)) = str_of_int (row_id r))).
  { intros r. split; [reflexivity|]. split; [apply rjust_length|]. split.
    - intros Hr. rewrite rjust_length.
      pose proof (str_of_int_short Hr). lia.
    - intros Hl. unfold rjust.
      replace (4 - List.length (str_of_int (row_id r))) with 0 by lia.
      reflexivity. }
  unfold list_plans. cbn [sqlite_bind].
  change (fits_int64 50) with true. cbv iota.
  unfold sql_limit. change (50 <? 0)%Z with false. cbv iota.
  change (Z.to_nat 50) with 50.
  destruct (newest_first (t_rows t)) as [|r0 rows] eqn:E.
  - exists [T "No plans saved yet."]. cbn [firstn List.length].
    split; [reflexivity|]. split; [lia|]. split; [reflexivity|].
    split; [congruence|exact F].
  - exists (map format_row (firstn 50 (r0 :: rows))).
    split; [reflexivity|]. split.
    + rewrite length_map, length_firstn. cbn [List.length]. lia.
    + split; [discriminate|]. split; [reflexivity|exact F].
Qed.
End InspectFacts.

(** ** The further properties on the example collaborators *)

(** X1 on the example collaborators: the goal is the empty string. *)
Lemma bad_request_witness :
  create_plan_endpoint example_repr json_loads_ref example_dumps
                       (model_replies plan_x_text)
                       example_write example_insert example_world
                       (MkRequest true (Ret (JDict [(T "goal", JStr [])])))
  = (Responds goal_required, example_world).
Proof.
  apply (proj1 (proj2 (bad_request_answers
                         example_repr json_loads_ref example_dumps
                         (model_replies plan_x_text)
                         example_write example_insert example_world
                         (MkRequest true (Ret (JDict [(T "goal", JStr [])])))))
               [(T "goal", JStr [])]).
  - reflexivity.
  - reflexivity.
  - right. reflexivity.
Defined.

(** X2 on the example collaborators: the body is a JSON list. *)
Lemma body_not_an_object_witness :
  exists e,
    create_plan_endpoint example_repr json_loads_ref example_dumps
                         (model_replies plan_x_text)
                         example_write example_insert example_world
                         (MkRequest true (Ret (JList [JStr (T "goal")])))
    = (Unhandled e, example_world)
    /\ exn_class e = T "AttributeError".
Proof.
  apply (proj2 (@body_not_an_object
                  example_repr json_loads_ref example_dumps
                  (model_replies plan_x_text) _
                  example_write _ example_insert example_world
                  (MkRequest true (Ret (JList [JStr (T "goal")])))
                  eq_refl)
               (JList [JStr (T "goal")]) eq_refl).
  intros d. discriminate.
Defined.

(** X3 on the example collaborators: the model fails with a quota
    message that names a delay. *)
Lemma response_shape_witness :
  status (MkResponse 429 [(T "Retry-After", T "13")]
            (JDict [(T "error", JStr quota_message);
                    (T "retry_after", JInt 13)])) = 429
  /\ exists n, (0 <= n)%Z
               /\ [(T "Retry-After", T "13")]
                  = [(T "Retry-After", str_of_int n)]
               /\ Ret (JInt 13) = Ret (JInt n).
Proof.
  destruct (proj2 (proj2 (proj2
             (@response_shape
                example_repr json_loads_ref example_dumps
                (model_raises quota_failure) _
                example_write _ example_insert example_world
                (request_for (T "Learn Rocq"))
                (MkResponse 429 [(T "Retry-After", T "13")]
                   (JDict [(T "error", JStr quota_message);
                           (T "retry_after", JInt 13)]))
                ltac:(vm_compute; reflexivity))))) as [H|H].
  - discriminate H.
  - exact H.
Defined.

(** X4 on the example collaborators: the reply is not JSON, the debug
    file is written and the answer is 500. *)
Lemma request_changes_witness :
  fst (create_plan_endpoint example_repr json_loads_ref example_dumps
                            (model_replies (T "no plan today"))
                            example_write example_insert example_world
                            (request_for (T "Learn Rocq")))
  = Responds (MkResponse 500 [] (error_dict invalid_json_message)).
Proof.
  apply (proj2 (proj2 (request_changes
                         example_repr json_loads_ref example_dumps
                         (model_replies (T "no plan today"))
                         example_write example_insert example_world
                         (request_for (T "Learn Rocq"))))).
  vm_compute. discriminate.
Defined.

(** X5 on the example collaborators: DISABLE_AI is YES and the model
    would fail. *)
Lemma disable_ai_witness :
  create_plan_endpoint example_repr json_loads_ref example_dumps
                       (model_raises quota_failure)
                       example_write example_insert
                       (MkWorld (T "YES") [] [])
                       (request_for (T "Learn Rocq"))
  = (Responds (MkResponse 200 [] (local_test_plan (JStr (T "Learn Rocq")))),
     MkWorld (T "YES") []
             [(JStr (T "Local Test Plan"), T "<json>")]).
Proof.
  apply (proj2 (proj2 (proj2 (disable_ai_local_plan
                         example_repr json_loads_ref example_dumps
                         (model_raises quota_failure)
                         example_write example_insert
                         (MkWorld (T "YES") [] []))
                       eq_refl (JStr (T "Learn Rocq"))))).
  apply request_for_has_goal. discriminate.
Defined.

(** X6 on the example collaborators: prose and a fence around the
    object. *)
Lemma reply_object_witness :
  generate_plan example_repr json_loads_ref (model_replies chatty_reply)
                example_write example_world (JStr (T "Learn Rocq"))
  = (JDict plan_x, example_world).
Proof.
  refine (proj2 (proj2 (@reply_object_is_parsed
                   example_repr json_loads_ref
                   (model_replies chatty_reply) _ example_write _
                   example_world
                   (T "Sure, here is the plan:" ++ newline :: T "```json"
                      ++ [newline])
                   plan_x_body
                   (newline :: T "``` I hope it helps.")
                   _ _))
                (JStr (T "Learn Rocq")) (JDict plan_x) _ _ _).
  - vm_compute. intuition discriminate.
  - vm_compute. intuition discriminate.
  - reflexivity.
  - reflexivity.
  - vm_compute. reflexivity.
Defined.

(** X7 on the example collaborators: a reply that is not JSON and
    speaks of a quota. *)
Lemma unparsable_reply_witness :
  create_plan_endpoint example_repr json_loads_ref example_dumps
                       (model_replies (T "quota 429: no plan today"))
                       example_write example_insert example_world
                       (request_for (T "Learn Rocq"))
  = (Responds (MkResponse 500 [] (error_dict invalid_json_message)),
     MkWorld [] [(T "last_raw_model_response.txt",
                  T "quota 429: no plan today")] []).
Proof.
  refine (proj2 (proj2 (proj2 (proj1
            (@unparsable_reply
               example_repr json_loads_ref example_dumps
               (model_replies (T "quota 429: no plan today")) _
               example_write _ example_insert example_world
               (JStr (T "Learn Rocq"))
               (TextIs (T "quota 429: no plan today"))
               (Some (T "quota 429: no plan today"))
               eq_refl eq_refl eq_refl)
            decode_error _)))
            (request_for (T "Learn Rocq")) _).
  - vm_compute. reflexivity.
  - apply request_for_has_goal. discriminate.
Defined.

(** X8 on the example collaborators: the reply is a JSON list. *)
Lemma plan_not_an_object_witness :
  create_plan_endpoint example_repr json_loads_ref example_dumps
                       (model_replies (T "[1, 2]"))
                       example_write example_insert example_world
                       (request_for (T "Learn Rocq"))
  = (Responds (MkResponse 200 [] (JList [JInt 1; JInt 2])), example_world).
Proof.
  refine (@plan_not_an_object
            example_repr json_loads_ref example_dumps
            (model_replies (T "[1, 2]")) _ example_write _ example_insert
            example_world example_world
            (request_for (T "Learn Rocq")) (JStr (T "Learn Rocq"))
            (JList [JInt 1; JInt 2]) _ _ _).
  - apply request_for_has_goal. discriminate.
  - vm_compute. reflexivity.
  - intros d. discriminate.
Defined.


(** X10 on the example collaborators: the plan of id 1 after one more
    request. *)
Lemma saved_plans_kept_witness :
  get_plan json_loads_ref
           (w_store (snd (create_plan_endpoint
                            example_repr json_loads_ref dumps_plan_x
                            (model_replies chatty_reply) example_write
                            (insert_plan example_now example_real_text)
                            (table_world (Some table_x))
                            (request_for (T "Learn Rocq")))))
           1
  = Responds (MkResponse 200 [] (JDict plan_x)).
Proof.
  apply (proj1 (saved_plans_are_kept
                  example_repr json_loads_ref dumps_plan_x
                  (model_replies chatty_reply) example_write
                  example_now example_real_text
                  (table_world (Some table_x))
                  (request_for (T "Learn Rocq")))).
  vm_compute. reflexivity.
Defined.

(** X11 on the example collaborators: no table yet. *)
Lemma table_is_needed_witness :
  create_plan_endpoint example_repr json_loads_ref dumps_plan_x
                       (model_replies chatty_reply) example_write
                       (insert_plan example_now example_real_text)
                       (table_world None)
                       (request_for (T "Learn Rocq"))
  = (Responds (MkResponse 200 [] (JDict plan_x)), table_world None).
Proof.
  apply (proj1 (@table_is_needed
                  example_repr json_loads_ref dumps_plan_x
                  (model_replies chatty_reply) _ example_write
                  example_now example_real_text
                  (table_world None) (table_world None)
                  (request_for (T "Learn Rocq")) (JStr (T "Learn Rocq"))
                  plan_x
                  (request_for_has_goal (goal := T "Learn Rocq")
                     ltac:(discriminate))
                  ltac:(vm_compute; reflexivity)
                  eq_refl)
               eq_refl).
Defined.

(** X12 on the table that holds the plan X. *)
Lemma get_plan_misses_witness :
  get_plan json_loads_ref (Some table_x) 2 = Responds plan_not_found
  /\ get_plan json_loads_ref (Some table_x) (2 ^ 63)
     = Unhandled int_too_large.
Proof.
  split.
  - apply (proj2 (proj2 (get_plan_misses json_loads_ref table_x 2)));
      vm_compute; congruence.
  - apply (proj1 (get_plan_misses json_loads_ref table_x (2 ^ 63))).
    reflexivity.
Defined.



(** X15 on two command lines. *)
Lemma main_dispatch_witness :
  main (T "plans.db") json_loads_ref example_dumps example_newest_first
       example_integer_of_text (Some (Some table_broken))
       [T "inspect_db.py"; T "Show"; T "1"]
  = exits 0 (show_plan (T "plans.db") json_loads_ref example_dumps
                       example_integer_of_text
                       (Some (Some table_broken)) (T "1"))
  /\ main (T "plans.db") json_loads_ref example_dumps example_newest_first
          example_integer_of_text (Some (Some table_broken))
          [T "inspect_db.py"; T "show"]
     = Ret ([usage_text], 1).
Proof.
  pose proof (main_dispatch (T "plans.db") json_loads_ref example_dumps
                example_newest_first example_integer_of_text
                (Some (Some table_broken))
                [T "inspect_db.py"; T "Show"; T "1"]) as H1.
  pose proof (main_dispatch (T "plans.db") json_loads_ref example_dumps
                example_newest_first example_integer_of_text
                (Some (Some table_broken))
                [T "inspect_db.py"; T "show"]) as H2.
  cbv zeta in H1, H2. split.
  - apply (proj1 (proj2 H1) (T "inspect_db.py") (T "1")); [|reflexivity].
    apply lower_ci_equal; reflexivity.
  - destruct (proj2 (proj1 (proj2 (proj2 H2)))) as [out E].
    + right. split.
      * intros H. apply lower_ci_equal in H; [discriminate|reflexivity].
      * intros [_ H]. discriminate.
    + rewrite E. rewrite (proj2 (proj2 (proj2 H2)) out E). reflexivity.
Defined.

(** X16 on a table of two rows. *)
Lemma list_plans_witness :
  list_plans (T "plans.db") example_newest_first
             (Some (Some table_broken)) 50
  = Ret [T "   2 | 2024-05-01 12:00:00 | Y";
         T "   1 | 2024-05-01 12:00:00 | X"].
Proof.
  destruct (list_plans_lines (T "plans.db") example_newest_first table_broken)
    as (lines & E & _ & _ & H & _).
  rewrite E. rewrite H; [reflexivity|]. discriminate.
Defined.
